(** * AI Pulse: the fetch / merge / dedupe / rank / cache pipeline

    A shallow embedding of the aggregation code of the three generations of
    [app.js] that talk to the network:

    - [V2]: one Algolia query per filter ([fetchArticles], [loadArticles];
      storage key [aipulse_cache_v2], the second program of [src/app.js]),
    - [V3]: several Algolia queries per filter, settled independently
      ([fetchAll], [load]; storage key [aipulse_cache_v3]),
    - [V4]: dev.to tags plus one Algolia query, merged by normalized title
      ([fetchDevTo], [fetchHN], [merge], [load]; storage key [aipulse_v4]).

    The static-feed generation (the first program of [src/app.js]), which
    reads [articles.json] and filters it on the page, has neither fetch
    pipeline nor cache; its filter and pager are [V5].

    JavaScript values are modelled by the types the code expects: numbers that
    hold counts, scores and epoch milliseconds are [Z], strings are [string]
    (ASCII case mapping), arrays are [list], the seen-[Set]s are [gset] and the
    cache object persisted in [localStorage] is a [gmap] from filter names to
    entries.  [Array.prototype.sort] is stable (ECMAScript 2019), which is
    modelled by a stable insertion sort driven by the comparator. *)

From Stdlib Require Import ZArith List String Ascii Bool Lia Sorted.
From stdpp Require Import base decidable option list sorting gmap strings pretty.

Local Open Scope string_scope.
Local Open Scope Z_scope.
Local Open Scope list_scope.

(** ** JavaScript prelude *)

Module Js.

(** Completion of a computation: a value, or a thrown exception (a rejected
    promise once awaited). *)
Inductive res (A : Type) : Type :=
| Ret (a : A)
| Throw.
Arguments Ret {A} a.
Arguments Throw {A}.

Definition is_Ret {A} (r : res A) : Prop := exists a, r = Ret a.

(** [try { body } catch { handler }] *)
Definition try_catch {A} (body : res A) (handler : res A) : res A :=
  match body with
  | Ret a => Ret a
  | Throw => handler
  end.

(** What an HTTP exchange gives to the code that awaits it: the promise
    rejects (transport error, [!res.ok], unparseable JSON), or the body
    carries a list of records, or the body parses but the field read as a
    list is not an array (iterating it raises a [TypeError]). *)
Inductive response (A : Type) : Type :=
| NetFail
| Body (records : list A)
| BadBody.
Arguments NetFail {A}.
Arguments Body {A} records.
Arguments BadBody {A}.

(** A computation that issues requests of type [R]: it extends the trace of
    the requests issued so far and completes with a value or throws. *)
Definition act (R A : Type) : Type := list R -> list R * res A.

Definition ret {R A} (a : A) : act R A := fun tr => (tr, Ret a).
Definition throw {R A} : act R A := fun tr => (tr, Throw).
Definition bind {R A B} (m : act R A) (k : A -> act R B) : act R B :=
  fun tr =>
    match m tr with
    | (tr', Ret a) => k a tr'
    | (tr', Throw) => (tr', Throw)
    end.

(** [Promise.all([p, q])]: both computations are started (so both issue
    their requests, [p] first), and the join throws when either does. *)
Definition both {R A B} (p : act R A) (q : act R B) : act R (A * B) :=
  fun tr =>
    let '(tr1, a) := p tr in
    let '(tr2, b) := q tr1 in
    (tr2, match a, b with
          | Ret a, Ret b => Ret (a, b)
          | _, _ => Throw
          end).

(** [await Promise.allSettled(xs.map(f))] for computations that settle with
    a value of type [B] in every case: all are started in order. *)
Fixpoint settle_all {R A B} (f : A -> list R -> list R * B) (xs : list A)
    (tr : list R) : list R * list B :=
  match xs with
  | [] => (tr, [])
  | x :: xs' =>
      let '(tr1, b) := f x tr in
      let '(tr2, bs) := settle_all f xs' tr1 in
      (tr2, b :: bs)
  end.

(** *** Strings *)

Definition is_upper (c : ascii) : bool :=
  let n := nat_of_ascii c in (65 <=? n)%nat && (n <=? 90)%nat.
Definition is_lower (c : ascii) : bool :=
  let n := nat_of_ascii c in (97 <=? n)%nat && (n <=? 122)%nat.
Definition is_digit (c : ascii) : bool :=
  let n := nat_of_ascii c in (48 <=? n)%nat && (n <=? 57)%nat.
Definition is_space (c : ascii) : bool := (nat_of_ascii c =? 32)%nat.

Definition lower_char (c : ascii) : ascii :=
  if is_upper c then ascii_of_nat (nat_of_ascii c + 32) else c.

(** [s.toLowerCase()] *)
Fixpoint toLowerCase (s : string) : string :=
  match s with
  | EmptyString => EmptyString
  | String c s' => String (lower_char c) (toLowerCase s')
  end.

(** [s.includes(w)] *)
Fixpoint includes (s w : string) : bool :=
  if String.prefix w s then true
  else match s with
       | EmptyString => false
       | String _ s' => includes s' w
       end.

(** [s.replace(/[^a-z0-9 ]/g, '')] *)
Fixpoint strip_punct (s : string) : string :=
  match s with
  | EmptyString => EmptyString
  | String c s' =>
      if is_lower c || is_digit c || is_space c
      then String c (strip_punct s')
      else strip_punct s'
  end.

Fixpoint trim_start (s : string) : string :=
  match s with
  | String c s' => if is_space c then trim_start s' else s
  | EmptyString => EmptyString
  end.

(** Removes the trailing spaces. *)
Fixpoint trim_end (s : string) : string :=
  match s with
  | EmptyString => EmptyString
  | String c s' =>
      match trim_end s' with
      | EmptyString => if is_space c then EmptyString else String c EmptyString
      | t => String c t
      end
  end.

(** [s.trim()], for strings whose only white space is the space. *)
Definition trim (s : string) : string := trim_end (trim_start s).

(** [s.slice(0, n)] *)
Definition slice_str (n : nat) (s : string) : string := String.substring 0 n s.

(** Truthiness of an optional string field: missing and [''] are falsy. *)
Definition truthy (s : option string) : bool :=
  match s with
  | Some (String _ _) => true
  | _ => false
  end.

(** [x || 0] on an optional number. *)
Definition or0 (x : option Z) : Z := default 0 x.

(** *** Arrays *)

Section Arrays.
Context {A : Type}.

(** [xs.slice(0, n)] *)
Definition slice0 (n : nat) (xs : list A) : list A := take n xs.

(** [xs.slice(i, i + n)] *)
Definition slice (i n : nat) (xs : list A) : list A := take n (drop i xs).

(** [xs.sort(cmp)]: the sort is stable, and [cmp x y <= 0] leaves [x]
    before [y]. *)
Fixpoint sort_insert (cmp : A -> A -> Z) (x : A) (l : list A) : list A :=
  match l with
  | [] => [x]
  | y :: l' => if cmp x y <=? 0 then x :: l else y :: sort_insert cmp x l'
  end.

Definition sort (cmp : A -> A -> Z) (l : list A) : list A :=
  foldr (sort_insert cmp) [] l.

(** The loop
    [for (const a of xs) if (!seen.has(key(a)) && keep(a)) { seen.add(key(a)); out.push(a) }]
    over a [Set] of keys and an output array, one iteration. *)
Definition absorb `{Countable K} (key : A -> K) (keep : A -> bool)
    (st : gset K * list A) (a : A) : gset K * list A :=
  if negb (bool_decide (key a ∈ st.1)) && keep a
  then ({[key a]} ∪ st.1, st.2 ++ [a])
  else st.

Definition absorb_all `{Countable K} (key : A -> K) (keep : A -> bool)
    (st : gset K * list A) (xs : list A) : gset K * list A :=
  fold_left (absorb key keep) xs st.
End Arrays.

End Js.


Import Js.

(** ** Text utilities shared by the variants *)

Module Text.

(** [s.replace(/c/g, rep)] for a pattern that is one literal character. *)
Fixpoint replace_char (c : ascii) (rep : string) (s : string) : string :=
  match s with
  | EmptyString => EmptyString
  | String x s' =>
      if Ascii.eqb x c then rep +:+ replace_char c rep s'
      else String x (replace_char c rep s')
  end.

(** The double quote and the apostrophe. *)
Definition quot : ascii := ascii_of_nat 34.
Definition apos : ascii := ascii_of_nat 39.

(** A row of the auto-tag tables: [{ label, words }]. *)
Record rule : Type := Rule {
  label : string;
  words : list string
}.

(** [TABLE.filter(({ words }) => words.some(w => t.includes(w)))
          .map(({ label }) => label).slice(0, 3)] *)
Definition pick (table : list rule) (t : string) : list string :=
  slice0 3 (map label (List.filter (fun r => existsb (includes t) (words r)) table)).

End Text.

(** ** The cache kept in [localStorage]

    [saveCache] and [loadCache] are the same code in the three variants, up to
    the storage key and a redundant [filter] field that [V2] adds to an
    entry. *)

Module Cache.

(** [const CACHE_TTL = 60 * 60 * 1000; // 1 hour] *)
Definition CACHE_TTL : Z := 60 * 60 * 1000.

Section Store.
Context {A : Type}.

(** [{ ts: Date.now(), articles }] ([V2]: [{ ts, filter, articles }]). *)
Record entry : Type := Entry {
  ts : Z;
  tag : option string;
  articles : list A
}.

(** What [localStorage.getItem(CACHE_KEY)] holds: nothing, a string that
    [JSON.parse] rejects, or the serialized cache object. *)
Inductive blob : Type :=
| NoItem
| Garbage
| Json (m : gmap string entry).

(** The storage area: the item, and whether the [setItem] of the run
    exceeds the quota.  A run writes at most once; for two writes in a row,
    each with its own outcome, see [saveCache_when]. *)
Record storage : Type := Storage {
  item : blob;
  quota_exceeded : bool
}.

(** [JSON.parse(localStorage.getItem(CACHE_KEY) || '{}')] *)
Definition parse (st : storage) : res (gmap string entry) :=
  match item st with
  | NoItem => Ret ∅
  | Garbage => Throw
  | Json m => Ret m
  end.

(** [localStorage.setItem(CACHE_KEY, JSON.stringify(all))] *)
Definition setItem (st : storage) (m : gmap string entry) : res storage :=
  if quota_exceeded st then Throw
  else Ret {| item := Json m; quota_exceeded := quota_exceeded st |}.

Definition saveCache_body (st : storage) (now : Z) (lbl : option string)
    (filter : string) (arts : list A) : res storage :=
  match parse st with
  | Ret all => setItem st (<[filter := Entry now lbl arts]> all)
  | Throw => Throw
  end.

(** [function saveCache(filter, articles) { try { ... } catch { } }]:
    the storage after the call. *)
Definition saveCache (st : storage) (now : Z) (lbl : option string)
    (filter : string) (arts : list A) : storage :=
  match saveCache_body st now lbl filter arts with
  | Ret st' => st'
  | Throw => st
  end.

Definition loadCache_body (st : storage) (now : Z) (filter : string)
    : res (option (list A)) :=
  match parse st with
  | Ret all =>
      match all !! filter with
      | None => Ret None
      | Some e => if now - ts e >? CACHE_TTL then Ret None
                  else Ret (Some (articles e))
      end
  | Throw => Throw
  end.

(** [function loadCache(filter) { try { ... } catch { return null; } }];
    [None] is [null]. *)
Definition loadCache (st : storage) (now : Z) (filter : string)
    : res (option (list A)) :=
  try_catch (loadCache_body st now filter) (Ret None).

(** [!force && loadCache(filter)]; [None] is the falsy outcome ([false]
    or [null]). *)
Definition consult (st : storage) (now : Z) (filter : string) (force : bool)
    : res (option (list A)) :=
  if force then Ret None else loadCache st now filter.
End Store.

Arguments entry : clear implicits.
Arguments blob : clear implicits.
Arguments storage : clear implicits.

End Cache.

(** ** The page: what a run leaves in the globals and on screen *)

Module Ui.

(** [const PAGE_SIZE = 18;] in the three variants. *)
Definition PAGE_SIZE : nat := 18.

(** The empty-state messages written into the grid. *)
Inductive empty_state : Type :=
| NoArticlesFound   (* written by [finish] / [finishRender] on an empty list *)
| LoadFailed        (* written by the [catch] branch without cache *)
| CouldNotLoad.     (* written by [V4.load] when the broader query is empty too *)

(** The texts passed to [showError]. *)
Inductive notice : Type :=
| ShowingCached     (* "... showing cached articles." *)
| LimitedResults    (* "Limited results for this filter - showing broader AI articles." *)
| CheckConnection.  (* "Could not load articles. Check your connection and try again." *)

Inductive stamp : Type := Blank | FromCache | Updated.

Inductive grid (A : Type) : Type :=
| Cards (shown : list A)
| Empty (why : empty_state).
Arguments Cards {A} shown.
Arguments Empty {A} why.

Record page (A : Type) : Type := Page {
  allArticles : list A;
  displayedCount : nat;
  currentFilter : string;
  view : grid A;
  articleCount : nat;
  lastUpdated : stamp;
  errorBanner : option notice;
  loadMore : bool
}.
Arguments Page {A}.
Arguments allArticles {A}.
Arguments displayedCount {A}.
Arguments currentFilter {A}.
Arguments view {A}.
Arguments articleCount {A}.
Arguments lastUpdated {A}.
Arguments errorBanner {A}.
Arguments loadMore {A}.

(** What a run returns to the world: the page, the requests it issued in
    order, and the storage it leaves. *)
Record run (R A : Type) : Type := Run {
  shown : page A;
  requests : list R;
  disk : Cache.storage A
}.
Arguments Run {R A}.
Arguments shown {R A}.
Arguments requests {R A}.
Arguments disk {R A}.

Section Render.
Context {A : Type}.

(** [finish(fromCache)] after [allArticles = all], with the banner as the
    surrounding code leaves it; [renderPage] shows the first page, the
    counters having been zeroed at the start of the run. *)
Definition finish (filter : string) (all : list A) (fromCache : bool)
    (banner : option notice) : page A :=
  match all with
  | [] => Page [] 0 filter (Empty NoArticlesFound) 0 Blank banner false
  | _ =>
      let slice := Js.slice 0 PAGE_SIZE all in
      Page all (length slice) filter (Cards slice) (length all)
           (if fromCache then FromCache else Updated) banner
           (length slice <? length all)%nat
  end.

(** The branches that write an empty state themselves and set the count
    to ['0 articles']; [all] is whatever [allArticles] holds by then. *)
Definition gave_up (filter : string) (all : list A) (why : empty_state)
    (banner : option notice) : page A :=
  Page all 0 filter (Empty why) 0 Blank banner false.
End Render.

End Ui.

(** ** The pager: [renderPage] over the globals it reads and writes *)

Module Pager.

(** [allArticles] (or [filtered]), [displayedCount], the cards appended to
    the grid since it was last cleared, and whether the load-more button is
    displayed. *)
Record state (A : Type) : Type := State {
  allArticles : list A;
  displayedCount : nat;
  cards : list A;
  loadMore : bool
}.
Arguments State {A}.
Arguments allArticles {A}.
Arguments displayedCount {A}.
Arguments cards {A}.
Arguments loadMore {A}.

(** [function renderPage()], for a page size of [size]. *)
Definition renderPage {A} (size : nat) (p : state A) : state A :=
  let slice := Js.slice (displayedCount p) size (allArticles p) in
  let shown := (displayedCount p + length slice)%nat in
  State (allArticles p) shown (cards p ++ slice) (shown <? length (allArticles p))%nat.

(** The state in which [load] and [applyFilter] leave the globals before the
    first [renderPage]: counter zeroed, grid cleared, button hidden. *)
Definition cleared {A} (all : list A) : state A := State all 0 [] false.

(** The load-more button pressed [k] times. *)
Definition pressed {A} (size k : nat) (p : state A) : state A :=
  Nat.iter k (renderPage size) p.

End Pager.

(** ** Hacker News (Algolia) records *)

Module Hn.

Record Hit : Type := MkHit {
  objectID : string;
  title : option string;
  url : option string;
  points : option Z;
  num_comments : option Z;
  created_at_i : Z
}.

(** A search request: the query and the width of the time window in days
    (the [created_at_i > since] filter). *)
Record request : Type := Search {
  query : string;
  daysBack : Z
}.

Global Instance request_eq_dec : EqDecision request.
Proof. solve_decision. Defined.

(** The comparator of both Algolia variants:
    [(a, b) => (b.points || 0) - (a.points || 0)] *)
Definition by_points (a b : Hit) : Z := or0 (points b) - or0 (points a).

Definition score (h : Hit) : Z := or0 (points h).

End Hn.

(** ** Variant 2: one Algolia query per filter ([aipulse_cache_v2]) *)

Module V2.
Import Hn Ui.

Definition MAX_RESULTS : nat := 60.

Definition TOPIC_QUERIES : gmap string string :=
  list_to_map [
    ("all", "artificial intelligence OR machine learning OR LLM OR GPT OR neural network");
    ("llm", "LLM large language model ChatGPT Claude GPT");
    ("research", "AI research machine learning paper arxiv");
    ("openai", "OpenAI GPT ChatGPT Sora");
    ("google", "Google DeepMind Gemini Bard");
    ("robotics", "AI robotics autonomous robot");
    ("opensource", "open source AI model Llama Mistral HuggingFace") ].

(** [TOPIC_QUERIES[filter] || TOPIC_QUERIES.all] *)
Definition topic (filter : string) : string :=
  default "artificial intelligence OR machine learning OR LLM OR GPT OR neural network"
          (TOPIC_QUERIES !! filter).

(** The network: what the [n]-th request of a run is answered with. *)
Definition network : Type := nat -> request -> response Hit.

(** [fetchHN(query, daysBack)]: throws on a failed exchange, otherwise
    returns [data.hits || []]; [None] stands for a [hits] value that is not
    an array. *)
Definition fetchHN (net : network) (q : string) (days : Z)
    : act request (option (list Hit)) :=
  fun tr =>
    let r := Search q days in
    (tr ++ [r],
     match net (length tr) r with
     | NetFail => Throw
     | Body l => Ret (Some l)
     | BadBody => Ret None
     end).

(** [hits.length < 5]; the length of a non-array is [undefined], and
    [undefined < 5] is false. *)
Definition sparse (hits : option (list Hit)) : bool :=
  match hits with
  | Some l => (length l <? 5)%nat
  | None => false
  end.

(** The [seen]/[filter] pass of [fetchArticles]. *)
Definition unique (hits : list Hit) : list Hit :=
  (absorb_all objectID (fun _ => true) (∅, []) hits).2.

(** Sort by points descending, keep [MAX_RESULTS]. *)
Definition rank (hits : list Hit) : list Hit :=
  slice0 MAX_RESULTS (sort by_points (unique hits)).

(** [async function fetchArticles(filter)] *)
Definition fetchArticles (net : network) (filter : string)
    : act request (list Hit) :=
  let q := topic filter in
  bind (fetchHN net q 1) (fun hits =>
  bind (if sparse hits then fetchHN net q 3 else ret hits) (fun hits =>
  match hits with
  | Some l => ret (rank l)
  | None => throw      (* [hits.filter] is not a function *)
  end)).

(** [async function loadArticles(filter = 'all', forceRefresh = false)].
    [t0] is the clock at the first cache read, [t1] at the cache access
    that follows the fetch.  [prev] is the list the page held before. *)
Definition loadArticles (prev : list Hit) (st : Cache.storage Hit)
    (net : network) (t0 t1 : Z) (filter : string) (forceRefresh : bool)
    : res (run request Hit) :=
  match Cache.consult st t0 filter forceRefresh with
  | Throw => Throw
  | Ret (Some cached) =>                       (* an array is truthy *)
      Ret (Run (finish filter cached true None) [] st)
  | Ret None =>
      match fetchArticles net filter [] with
      | (tr, Ret all) =>
          Ret (Run (finish filter all false None) tr
                   (Cache.saveCache st t1 (Some filter) filter all))
      | (tr, Throw) =>
          match Cache.loadCache st t1 filter with
          | Throw => Throw
          | Ret (Some cached) =>
              Ret (Run (finish filter cached true (Some ShowingCached)) tr st)
          | Ret None =>
              Ret (Run (gave_up filter prev LoadFailed (Some CheckConnection)) tr st)
          end
      end
  end.

(** [function escapeHTML(str)] *)
Definition escapeHTML (str : string) : string :=
  Text.replace_char Text.apos "&#39;"
    (Text.replace_char Text.quot "&quot;"
      (Text.replace_char ">" "&gt;"
        (Text.replace_char "<" "&lt;"
          (Text.replace_char "&" "&amp;" str)))).

Definition TAG_MAP : list Text.rule :=
  [ Text.Rule "LLM" ["llm"; "language model"; "gpt"; "chatgpt"; "claude"; "gemini"; "mistral"; "llama"];
    Text.Rule "Research" ["research"; "paper"; "arxiv"; "study"; "benchmark"];
    Text.Rule "Open Source" ["open source"; "open-source"; "huggingface"; "ollama"; "llama"; "mistral"];
    Text.Rule "Robotics" ["robot"; "robotic"; "autonomous"; "drone"];
    Text.Rule "Image/Video" ["image"; "video"; "diffusion"; "sora"; "midjourney"; "stable diffusion"; "dall-e"];
    Text.Rule "Safety" ["safety"; "alignment"; "bias"; "ethics"; "regulation"];
    Text.Rule "Business" ["startup"; "funding"; "valuation"; "acquisition"; "revenue"; "raises"] ].

(** [function getTags(title)] *)
Definition getTags (title : string) : list string :=
  Text.pick TAG_MAP (toLowerCase title).

(** [function timeAgo(unixSeconds)], [now] being [Date.now()]. *)
Definition timeAgo (now unixSeconds : Z) : string :=
  let diff := now / 1000 - unixSeconds in
  if diff <? 60 then "just now"
  else if diff <? 3600 then pretty (diff / 60) +:+ "m ago"
  else if diff <? 86400 then pretty (diff / 3600) +:+ "h ago"
  else if diff <? 86400 * 2 then "yesterday"
  else pretty (diff / 86400) +:+ "d ago".

(** [function renderPage()] *)
Definition renderPage (p : Pager.state Hit) : Pager.state Hit :=
  Pager.renderPage PAGE_SIZE p.

End V2.

(** ** Variant 3: several Algolia queries per filter ([aipulse_cache_v3]) *)

Module V3.
Import Hn Ui.

Definition FILTER_QUERIES : gmap string (list string) :=
  list_to_map [
    ("all", ["artificial intelligence"; "machine learning"; "LLM"; "OpenAI"]);
    ("llm", ["large language model"; "LLM"; "ChatGPT"; "Claude AI"; "Gemini AI"]);
    ("research", ["AI research"; "machine learning paper"; "deep learning"; "neural network"]);
    ("openai", ["OpenAI"; "ChatGPT"; "GPT-4"; "Sora OpenAI"]);
    ("google", ["Google DeepMind"; "Gemini Google"; "Google AI"]);
    ("robotics", ["AI robotics"; "robot AI"; "autonomous robot"]);
    ("opensource", ["open source AI"; "Llama AI"; "Mistral AI"; "HuggingFace"]) ].

(** [FILTER_QUERIES[filter] || FILTER_QUERIES.all] *)
Definition queries_of (filter : string) : list string :=
  default ["artificial intelligence"; "machine learning"; "LLM"; "OpenAI"]
          (FILTER_QUERIES !! filter).

Definition network : Type := nat -> request -> response Hit.

(** [fetchOne(query, daysBack)] as [Promise.allSettled] sees it: the
    outcome of the exchange, whatever it is. *)
Definition fetchOne (net : network) (days : Z) (q : string)
    (tr : list request) : list request * response Hit :=
  let r := Search q days in (tr ++ [r], net (length tr) r).

(** The body of [for (const b of batches)]: a rejected batch is skipped, a
    fulfilled one is iterated ([!seen.has(hit.objectID) && hit.title]). *)
Definition absorb_batch (st : res (gset string * list Hit)) (b : response Hit)
    : res (gset string * list Hit) :=
  match st with
  | Throw => Throw
  | Ret s =>
      match b with
      | NetFail => Ret s
      | Body hits => Ret (absorb_all objectID (fun h => truthy (title h)) s hits)
      | BadBody => Throw
      end
  end.

Definition absorb_batches (s : gset string * list Hit) (bs : list (response Hit))
    : res (gset string * list Hit) :=
  fold_left absorb_batch bs (Ret s).

(** One round: the queries of the filter over a window of [days] days,
    settled together, then folded into [seen] and [results]. *)
Definition round (net : network) (days : Z) (qs : list string)
    (s : gset string * list Hit) : act request (gset string * list Hit) :=
  fun tr =>
    let '(tr', batches) := settle_all (fetchOne net days) qs tr in
    (tr', absorb_batches s batches).

(** [results.length < 6] *)
Definition sparse (results : list Hit) : bool := (length results <? 6)%nat.

(** [seen] and [results] when the sort is reached. *)
Definition collect (net : network) (filter : string)
    : act request (gset string * list Hit) :=
  let qs := queries_of filter in
  bind (round net 1 qs (∅, [])) (fun s =>
  if sparse s.2 then round net 3 qs s else ret s).

(** [async function fetchAll(filter)] *)
Definition fetchAll (net : network) (filter : string) : act request (list Hit) :=
  bind (collect net filter) (fun s =>
  ret (slice0 80 (sort by_points s.2))).

(** [async function load(filter = 'all', force = false)]; [None] is the
    early return taken while [isLoading] is set, which leaves everything
    as it was. *)
Definition load (isLoading : bool) (prev : list Hit) (st : Cache.storage Hit)
    (net : network) (t0 t1 : Z) (filter : string) (force : bool)
    : option (res (run request Hit)) :=
  if isLoading then None else Some
  match Cache.consult st t0 filter force with
  | Throw => Throw
  | Ret (Some (a :: cached)) =>               (* [cached && cached.length > 0] *)
      Ret (Run (finish filter (a :: cached) true None) [] st)
  | Ret _ =>
      match fetchAll net filter [] with
      | (tr, Ret all) =>
          Ret (Run (finish filter all false None) tr
                   (match all with
                    | [] => st
                    | _ => Cache.saveCache st t1 None filter all
                    end))
      | (tr, Throw) =>
          match Cache.loadCache st t1 filter with
          | Throw => Throw
          | Ret (Some (a :: fb)) =>
              Ret (Run (finish filter (a :: fb) true (Some ShowingCached)) tr st)
          | Ret _ =>
              Ret (Run (gave_up filter prev LoadFailed None) tr st)
          end
      end
  end.

(** [function esc(s)] *)
Definition esc (s : string) : string :=
  Text.replace_char Text.apos "&#39;"
    (Text.replace_char Text.quot "&quot;"
      (Text.replace_char ">" "&gt;"
        (Text.replace_char "<" "&lt;"
          (Text.replace_char "&" "&amp;" s)))).

Definition TAGS : list Text.rule :=
  [ Text.Rule "LLM" ["llm"; "language model"; "gpt"; "chatgpt"; "claude"; "gemini"; "mistral"; "llama"];
    Text.Rule "Research" ["research"; "paper"; "arxiv"; "study"; "benchmark"; "dataset"];
    Text.Rule "Open Source" ["open source"; "open-source"; "huggingface"; "ollama"; "llama"; "mistral"];
    Text.Rule "Robotics" ["robot"; "robotic"; "autonomous"; "drone"];
    Text.Rule "Image/Video" ["image"; "video"; "diffusion"; "sora"; "midjourney"; "stable diffusion"; "dall-e"];
    Text.Rule "Safety" ["safety"; "alignment"; "bias"; "ethics"; "regulation"];
    Text.Rule "Business" ["startup"; "funding"; "valuation"; "acquisition"; "revenue"; "raises"; "billion"] ].

(** [function getTags(title)] *)
Definition getTags (title : string) : list string :=
  Text.pick TAGS (toLowerCase title).

(** [function timeAgo(unix)], [now] being [Date.now()]. *)
Definition timeAgo (now unix : Z) : string :=
  let s := now / 1000 - unix in
  if s <? 60 then "just now"
  else if s <? 3600 then pretty (s / 60) +:+ "m ago"
  else if s <? 86400 then pretty (s / 3600) +:+ "h ago"
  else if s <? 172800 then "yesterday"
  else pretty (s / 86400) +:+ "d ago".

(** [function renderPage()] *)
Definition renderPage (p : Pager.state Hit) : Pager.state Hit :=
  Pager.renderPage PAGE_SIZE p.

End V3.

(** ** Variant 4: dev.to tags and one Algolia query ([aipulse_v4]) *)

Module V4.
Import Ui.

(** A record of the dev.to articles API. *)
Record DevTo : Type := MkDevTo {
  dt_id : Z;
  dt_title : option string;
  dt_url : string;
  positive_reactions_count : option Z;
  comments_count : option Z
}.

(** The common article shape built by both fetchers (the display-only
    fields [source], [date] and [dateStr] are left out). *)
Record Article : Type := MkArticle {
  id : string;
  title : string;
  url : string;
  points : Z;
  comments : Z
}.

Global Instance Article_eq_dec : EqDecision Article.
Proof. solve_decision. Defined.

Record config : Type := Config { devto : list string; hn : string }.

Definition FILTERS : gmap string config :=
  list_to_map [
    ("all", Config ["artificial-intelligence"; "machinelearning"; "llm"] "artificial intelligence");
    ("llm", Config ["llm"; "gpt"; "openai"] "large language model");
    ("research", Config ["deeplearning"; "machinelearning"; "datascience"] "machine learning research");
    ("openai", Config ["openai"; "chatgpt"; "gpt"] "OpenAI");
    ("google", Config ["googleai"; "gemini"; "tensorflow"] "Google DeepMind Gemini");
    ("robotics", Config ["robotics"; "ros"] "AI robotics");
    ("opensource", Config ["opensource"; "llm"; "huggingface"] "open source AI model");
    ("funding", Config ["startup"; "artificial-intelligence"; "machinelearning"]
                       "AI startup funding raises million") ].

(** [FILTERS[filter] || FILTERS.all] *)
Definition config_of (filter : string) : config :=
  default (Config ["artificial-intelligence"; "machinelearning"; "llm"] "artificial intelligence")
          (FILTERS !! filter).

Definition FUNDING_KEYWORDS : list string :=
  [ "raises"; "funding"; "raised"; "series a"; "series b"; "series c"; "series d";
    "seed round"; "investment"; "investor"; "venture"; "valuation"; "valued at";
    "million"; "billion"; "backed"; "round led"; "secures"; "secured"; "acqui";
    "ipo"; "unicorn"; "pre-seed"; "growth round"; "led by"; "capital" ].

Inductive request : Type :=
| DevToTag (tag : string)
| HnSearch (query : string).

Global Instance request_eq_dec : EqDecision request.
Proof. solve_decision. Defined.

(** The two upstream services, answering the [n]-th request of a run. *)
Record network : Type := Network {
  devto_api : nat -> string -> response DevTo;
  hn_api : nat -> string -> response Hn.Hit
}.

(** One element of [promises] in [fetchDevTo]:
    [fetch(...).then(r => r.ok ? r.json() : []).catch(() => [])];
    [None] is a body that is not an array. *)
Definition fetchTag (net : network) (tag : string) (tr : list request)
    : list request * option (list DevTo) :=
  (tr ++ [DevToTag tag],
   match devto_api net (length tr) tag with
   | NetFail => Some []
   | Body l => Some l
   | BadBody => None
   end).

Definition of_devto (a : DevTo) : Article :=
  {| id := "devto-" +:+ pretty (dt_id a);
     title := default "" (dt_title a);
     url := dt_url a;
     points := or0 (positive_reactions_count a);
     comments := or0 (comments_count a) |}.

(** The nested loops of [fetchDevTo] over one batch:
    [if (!seen.has(a.id) && a.title) { seen.add(a.id); results.push({...}) }] *)
Definition absorb_tag (st : res (gset Z * list DevTo)) (batch : option (list DevTo))
    : res (gset Z * list DevTo) :=
  match st, batch with
  | Ret s, Some l => Ret (absorb_all dt_id (fun a => truthy (dt_title a)) s l)
  | _, _ => Throw
  end.

(** [async function fetchDevTo(tags)] *)
Definition fetchDevTo (net : network) (tags : list string)
    : act request (list Article) :=
  fun tr =>
    let '(tr', batches) := settle_all (fetchTag net) tags tr in
    (tr', match fold_left absorb_tag batches (Ret (∅, [])) with
          | Ret s => Ret (map of_devto s.2)
          | Throw => Throw
          end).

Definition of_hit (h : Hn.Hit) : Article :=
  {| id := "hn-" +:+ Hn.objectID h;
     title := default "" (Hn.title h);
     url := match Hn.url h with
            | Some (String c u) => String c u
            | _ => "https://news.ycombinator.com/item?id=" +:+ Hn.objectID h
            end;
     points := or0 (Hn.points h);
     comments := or0 (Hn.num_comments h) |}.

(** [async function fetchHN(query)]: every failure is caught and gives
    [[]]. *)
Definition fetchHN (net : network) (q : string) : act request (list Article) :=
  fun tr =>
    (tr ++ [HnSearch q],
     match hn_api net (length tr) q with
     | Body hits => Ret (map of_hit (List.filter (fun h => truthy (Hn.title h)) hits))
     | NetFail | BadBody => Ret []
     end).

(** [const normalize = t => t.toLowerCase().replace(/[^a-z0-9 ]/g, '').trim();] *)
Definition normalize (t : string) : string := trim (strip_punct (toLowerCase t)).

(** [normalize(a.title).slice(0, 60)] *)
Definition key (a : Article) : string := slice_str 60 (normalize (title a)).

(** [(a, b) => b.points - a.points] *)
Definition by_points (a b : Article) : Z := points b - points a.

(** The [seen]/[all] loop of [merge] over [[...devto, ...hn]]. *)
Definition dedupe (xs : list Article) : list Article :=
  (absorb_all key (fun _ => true) (∅, []) xs).2.

(** [function merge(devto, hn)] *)
Definition merge (devto hn : list Article) : list Article :=
  slice0 80 (sort by_points (dedupe (devto ++ hn))).

(** [FUNDING_KEYWORDS.some(kw => (a.title || '').toLowerCase().includes(kw))] *)
Definition mentions_funding (a : Article) : bool :=
  existsb (fun kw => includes (toLowerCase (title a)) kw) FUNDING_KEYWORDS.

(** The list [load] holds once the sources are merged and, for the funding
    filter, post-filtered. *)
Definition aggregate (filter : string) (devto hn : list Article) : list Article :=
  let all := merge devto hn in
  if String.eqb filter "funding" then List.filter mentions_funding all else all.

(** The [catch] branch of [load]. *)
Definition recover (held : list Article) (st : Cache.storage Article)
    (t1 : Z) (filter : string) (tr : list request) : res (run request Article) :=
  match Cache.loadCache st t1 filter with
  | Throw => Throw
  | Ret (Some (a :: fb)) =>
      Ret (Run (finish filter (a :: fb) true (Some ShowingCached)) tr st)
  | Ret _ =>
      Ret (Run (gave_up filter held LoadFailed None) tr st)
  end.

(** [async function load(filter = 'all', force = false)] *)
Definition load (prev : list Article) (st : Cache.storage Article)
    (net : network) (t0 t1 : Z) (filter : string) (force : bool)
    : res (run request Article) :=
  match Cache.consult st t0 filter force with
  | Throw => Throw
  | Ret (Some (a :: cached)) =>               (* [cached && cached.length > 0] *)
      Ret (Run (finish filter (a :: cached) true None) [] st)
  | Ret _ =>
      let cfg := config_of filter in
      match both (fetchDevTo net (devto cfg)) (fetchHN net (hn cfg)) [] with
      | (tr, Ret (d, h)) =>
          match aggregate filter d h with
          | a :: all =>
              Ret (Run (finish filter (a :: all) false None) tr
                       (Cache.saveCache st t1 None filter (a :: all)))
          | [] =>
              (* Try broader fallback *)
              match fetchDevTo net ["artificial-intelligence"] tr with
              | (tr', Ret (a :: fallback)) =>
                  Ret (Run (finish filter (a :: fallback) false (Some LimitedResults)) tr' st)
              | (tr', Ret []) =>
                  Ret (Run (gave_up filter [] CouldNotLoad None) tr' st)
              | (tr', Throw) => recover [] st t1 filter tr'
              end
          end
      | (tr, Throw) => recover prev st t1 filter tr
      end
  end.

(** [function esc(s)]; the argument is a string already, so [String(s)] is
    the identity. *)
Definition esc (s : string) : string :=
  Text.replace_char Text.quot "&quot;"
    (Text.replace_char ">" "&gt;"
      (Text.replace_char "<" "&lt;"
        (Text.replace_char "&" "&amp;" s))).

Definition TAG_MAP : list Text.rule :=
  [ Text.Rule "LLM" ["llm"; "language model"; "gpt"; "chatgpt"; "claude"; "gemini"; "mistral"; "llama"];
    Text.Rule "Research" ["research"; "paper"; "arxiv"; "study"; "benchmark"];
    Text.Rule "Open Source" ["open source"; "open-source"; "huggingface"; "llama"; "mistral"; "ollama"];
    Text.Rule "Robotics" ["robot"; "robotic"; "autonomous"; "drone"];
    Text.Rule "Image/Video" ["image"; "video"; "diffusion"; "sora"; "midjourney"; "dall-e"; "stable diffusion"];
    Text.Rule "Safety" ["safety"; "alignment"; "bias"; "ethics"; "regulation"];
    Text.Rule "Funding" ["raises"; "raised"; "funding"; "series a"; "series b"; "series c"; "seed";
                         "investment"; "million"; "billion"; "ipo"; "unicorn"; "venture";
                         "valuation"; "backed"];
    Text.Rule "Acquisition" ["acqui"; "acquired"; "acquisition"; "merger"; "buys"; "bought"] ].

(** [function autoTags(title)], for a title that is a string. *)
Definition autoTags (title : string) : list string :=
  Text.pick TAG_MAP (toLowerCase title).

(** [function timeAgo(dateStr)]: [now] is [Date.now()] and [time] the epoch
    milliseconds [new Date(dateStr).getTime()] of a date string that parses. *)
Definition timeAgo (now time : Z) : string :=
  let diff := (now - time) / 1000 in
  if diff <? 60 then "just now"
  else if diff <? 3600 then pretty (diff / 60) +:+ "m ago"
  else if diff <? 86400 then pretty (diff / 3600) +:+ "h ago"
  else if diff <? 172800 then "yesterday"
  else pretty (diff / 86400) +:+ "d ago".

(** [function timeAgoUnix(unix)]: [new Date(unix * 1000).toISOString()] is
    parsed back by [timeAgo] to the same millisecond. *)
Definition timeAgoUnix (now unix : Z) : string := timeAgo now (unix * 1000).

(** [function renderPage()] *)
Definition renderPage (p : Pager.state Article) : Pager.state Article :=
  Pager.renderPage PAGE_SIZE p.

End V4.


(** ** The static-feed page: filtering [articles.json] in the browser *)

Module V5.

(** [const PAGE_SIZE = 15;] *)
Definition PAGE_SIZE : nat := 15.

(** An article of [articles.json], with the fields the filter reads (the
    display-only fields are left out). *)
Record Article : Type := MkArticle {
  title : option string;
  category : option string;
  url : string
}.

Definition FUNDING_WORDS : list string :=
  [ "raises"; "raised"; "funding"; "series a"; "series b"; "series c"; "series d";
    "seed round"; "investment"; "venture"; "million"; "billion"; "ipo"; "unicorn";
    "valuation"; "secures"; "secured"; "backed"; "acquisition"; "acquires" ].

(** [article.category === filter] *)
Definition in_category (a : Article) (filter : string) : bool :=
  match category a with
  | Some c => String.eqb c filter
  | None => false
  end.

(** [function matchesFilter(article, filter)] *)
Definition matchesFilter (a : Article) (filter : string) : bool :=
  if String.eqb filter "all" then true
  else if String.eqb filter "funding" then
    if in_category a "funding" then true
    else let t := toLowerCase (default "" (title a)) in
         existsb (fun w => includes t w) FUNDING_WORDS
  else in_category a filter.

(** What [applyFilter] leaves: [currentFilter], the pager over [filtered],
    whether the empty-state message was written, and the article count. *)
Record screen : Type := Screen {
  currentFilter : string;
  pager : Pager.state Article;
  empty_state : bool;
  articleCount : nat
}.

(** [function renderPage()], over [filtered]. *)
Definition renderPage (p : Pager.state Article) : Pager.state Article :=
  Pager.renderPage PAGE_SIZE p.

(** [function applyFilter(filter)] over the loaded [allArticles]. *)
Definition applyFilter (allArticles : list Article) (filter : string) : screen :=
  let filtered := List.filter (fun a => matchesFilter a filter) allArticles in
  match filtered with
  | [] => Screen filter (Pager.cleared filtered) true 0
  | _ => Screen filter (renderPage (Pager.cleared filtered)) false (length filtered)
  end.

End V5.

(** * Vocabulary of the properties *)

(** Descending scores. *)
Definition desc {A} (score : A -> Z) (a b : A) : Prop := score b <= score a.

(** The articles of score [k], in list order. *)
Definition with_score {A} (score : A -> Z) (k : Z) (l : list A) : list A :=
  List.filter (fun a => score a =? k) l.

(** [has key k a]: article [a] carries the deduplication key [k]. *)
Definition has {A K} `{EqDecision K} (key : A -> K) (k : K) (a : A) : bool :=
  bool_decide (key a = k).

(** How many articles of [l] carry the key [k]. *)
Definition count_key {A K} `{EqDecision K} (key : A -> K) (k : K) (l : list A) : nat :=
  length (List.filter (has key k) l).

(** The first article of [l] that carries the key [k]. *)
Definition first_with {A K} `{EqDecision K} (key : A -> K) (k : K) (l : list A)
    : option A :=
  List.find (has key k) l.

(** The seen-set holds exactly the keys of the articles pushed so far. *)
Definition tracks {A} `{Countable K} (key : A -> K) (st : gset K * list A) : Prop :=
  forall k, k ∈ st.1 <-> first_with key k st.2 <> None.

(** The bodies of the fulfilled batches, in order. *)
Definition fulfilled {A} (bs : list (response A)) : list A :=
  concat (map (fun b => match b with Body l => l | _ => [] end) bs).

(** No settled batch carries a body that cannot be iterated. *)
Definition iterable {A} (bs : list (response A)) : bool :=
  forallb (fun b => match b with BadBody => false | _ => true end) bs.

(** The answers to the requests [rs], the first being the [n]-th of the
    run. *)
Definition answers (net : nat -> Hn.request -> response Hn.Hit) (n : nat)
    (rs : list Hn.request) : list (response Hn.Hit) :=
  imap (fun i r => net (n + i)%nat r) rs.

(** The first cache read of a run does not end it: it gave [null] (or was
    skipped by [force]), or, where the code also asks for a non-empty list,
    it gave an empty one. *)
Definition reaches_fetch {A} (empty_is_miss : bool) (c : res (option (list A))) : Prop :=
  c = Ret None \/ (empty_is_miss = true /\ c = Ret (Some [])).

(** The run served a list taken from the cache: at once, without a request,
    or after a failed fetch, under the "showing cached articles" notice. *)
Definition served_from_cache {R A} (r : Ui.run R A) : Prop :=
  Ui.requests r = [] \/ Ui.errorBanner (Ui.shown r) = Some Ui.ShowingCached.

(** [w] occurs in [s]. *)
Definition occurs_in (w s : string) : Prop :=
  exists pre post, s = pre +:+ w +:+ post.

(** Every entry of the stored cache object holds a non-empty list. *)
Definition no_empty_entry {A} (st : Cache.storage A) : Prop :=
  forall m f e, Cache.item st = Cache.Json m -> m !! f = Some e ->
                Cache.articles e <> [].

(** Every list held in the cache satisfies [P]. *)
Definition entries_all {A} (P : list A -> Prop) (st : Cache.storage A) : Prop :=
  forall m f e, Cache.item st = Cache.Json m -> m !! f = Some e ->
                P (Cache.articles e).

(** The list a run leaves on the page: [allArticles] when cards are shown,
    nothing under an empty state. *)
Definition listed {R A} (r : Ui.run R A) : list A :=
  match Ui.view (Ui.shown r) with
  | Ui.Cards _ => Ui.allArticles (Ui.shown r)
  | Ui.Empty _ => []
  end.

(** ** Vocabulary of the further properties *)

(** [saveCache] on the stored blob [b] when the [setItem] of this very call
    raises iff [full]: whether the quota is exceeded depends on the value
    being written, so it is an outcome of each write. *)
Definition saveCache_when {A} (full : bool) (b : Cache.blob A) (now : Z)
    (lbl : option string) (filter : string) (arts : list A) : Cache.blob A :=
  Cache.item (Cache.saveCache (Cache.Storage b full) now lbl filter arts).

(** The storage cannot be written: the blob does not parse, or the quota is
    exceeded. *)
Definition unwritable {A} (st : Cache.storage A) : Prop :=
  Cache.item st = Cache.Garbage \/ Cache.quota_exceeded st = true.

(** The service [net] with every failed exchange replaced by an empty
    answer. *)
Definition heal {R A} (net : nat -> R -> response A) : nat -> R -> response A :=
  fun n r => match net n r with NetFail => Body [] | b => b end.

(** The requests of one round of [fetchAll] for [filter]: one per query,
    over [d] days. *)
Definition day (d : Z) (filter : string) : list Hn.request :=
  map (fun q => Hn.Search q d) (V3.queries_of filter).

(** The bodies of the dev.to batches, in order, when all can be iterated. *)
Definition bodies {A} (batches : list (option (list A))) : list A :=
  concat (map (default []) batches).

(** The characters of a string, in order. *)
Definition chars (s : string) : list ascii := list_ascii_of_string s.

(** The characters that the escaping functions replace. *)
Definition markup (c : ascii) : Prop :=
  c = "&"%char \/ c = "<"%char \/ c = ">"%char \/ c = Text.quot.

(** [f] tags titles by [table]: at most three labels, without repeats, in
    the order of the table, each backed by one of its words occurring in the
    lower-cased title; every matching label is there when at most three
    match; and the case of the title does not matter. *)
Definition tags_by (table : list Text.rule) (f : string -> list string) : Prop :=
  forall title,
    (length (f title) <= 3)%nat
    /\ NoDup (f title)
    /\ f title `sublist_of` map Text.label table
    /\ (forall l, l ∈ f title ->
          exists r w, r ∈ table /\ Text.label r = l /\ w ∈ Text.words r
                      /\ occurs_in w (toLowerCase title))
    /\ (forall r w, r ∈ table -> w ∈ Text.words r ->
          occurs_in w (toLowerCase title) ->
          Text.label r ∈ f title \/ length (f title) = 3%nat)
    /\ f (toLowerCase title) = f title.

(** The characters a deduplication key is made of. *)
Definition key_char (c : ascii) : bool := is_lower c || is_digit c || is_space c.

(** An ASCII character that is neither a letter nor a digit. *)
Definition no_alnum (c : ascii) : Prop :=
  (nat_of_ascii c < 128)%nat
  /\ is_upper c = false /\ is_lower c = false /\ is_digit c = false.

(** What the pager shows is a prefix of its list: the cards are the first
    [displayedCount] articles. *)
Definition in_step {A} (p : Pager.state A) : Prop :=
  Pager.cards p = take (Pager.displayedCount p) (Pager.allArticles p)
  /\ (Pager.displayedCount p <= length (Pager.allArticles p))%nat.

(** * Concrete inputs *)

Module Sample.

(** Eighty-one dev.to articles with pairwise distinct titles and scores
    100, 101, ..., 180. *)
Definition crowd : list V4.Article :=
  map (fun n => V4.MkArticle ("devto-" +:+ pretty n) ("Story " +:+ pretty n)
                             "https://dev.to/s" (100 + n) 0)
      (seqZ 0 81).

(** Two reports of one story, told apart only by case and punctuation,
    both with score 1. *)
Definition report_devto : V4.Article :=
  V4.MkArticle "devto-900" "OpenAI Raises $500M" "https://dev.to/r" 1 0.
Definition report_hn : V4.Article :=
  V4.MkArticle "hn-901" "OpenAI raises $500M!" "https://example.org/r" 1 4.

(** A hit, and storages of the multi-query variant whose ["llm"] entry was
    written at time 0: one with that hit, one with an empty list. *)
Definition old_story : Hn.Hit :=
  Hn.MkHit "41" (Some "Old story") (Some "https://example.org/41")
           (Some 10) (Some 2) 0.
Definition kept_store : Cache.storage Hn.Hit :=
  Cache.Storage (Cache.Json {[ "llm" := Cache.Entry 0 None [old_story] ]}) false.
Definition hollow_store : Cache.storage Hn.Hit :=
  Cache.Storage (Cache.Json {[ "llm" := Cache.Entry 0 None [] ]}) false.

(** Upstream services that fail every exchange, and that answer every
    exchange with a body that is not a list. *)
Definition offline : nat -> Hn.request -> response Hn.Hit := fun _ _ => NetFail.
Definition garbled : nat -> Hn.request -> response Hn.Hit := fun _ _ => BadBody.

(** Ten minutes and two hours, in milliseconds. *)
Definition ten_minutes : Z := 10 * 60 * 1000.
Definition two_hours : Z := 2 * 60 * 60 * 1000.

(** Hits with a title and a score. *)
Definition story (n pts : Z) : Hn.Hit :=
  Hn.MkHit (pretty n) (Some ("Story " +:+ pretty n)) None (Some pts) None 0.

(** An Algolia service with three hits in the one-day window, one of them
    twice, and three in the three-day window. *)
Definition feed : nat -> Hn.request -> response Hn.Hit :=
  fun _ r =>
    if Hn.daysBack r =? 1
    then Body [story 1 5; story 2 9; story 1 5]
    else Body [story 2 9; story 3 9; story 4 1].

(** dev.to and Algolia answering with the same funding story and a
    tutorial. *)
Definition tutorial : V4.DevTo :=
  V4.MkDevTo 8 (Some "Intro to Rust") "https://dev.to/t" (Some 3) None.
Definition wire : V4.network :=
  V4.Network
    (fun _ _ => Body [V4.MkDevTo 7 (Some "OpenAI Raises $500M") "https://dev.to/a"
                                 (Some 80) (Some 1); tutorial])
    (fun _ _ => Body [Hn.MkHit "1" (Some "OpenAI raises $500M")
                               (Some "https://example.org/1") (Some 120) (Some 3) 0]).

(** Services that know the tutorial only. *)
Definition quiet_wire : V4.network :=
  V4.Network (fun _ _ => Body [tutorial]) (fun _ _ => Body []).

(** dev.to answering with something that is not a list. *)
Definition broken_wire : V4.network :=
  V4.Network (fun _ _ => BadBody) (fun _ _ => Body []).

(** The requests of the funding filter before the fallback. *)
Definition funding_requests : list V4.request :=
  [V4.DevToTag "startup"; V4.DevToTag "artificial-intelligence";
   V4.DevToTag "machinelearning"; V4.HnSearch "AI startup funding raises million"].

(** An empty storage, and storages of the other variants with an entry for
    ["funding"] written at time 0. *)
Definition blank {A} : Cache.storage A := Cache.Storage Cache.NoItem false.
Definition funded : V4.Article := V4.of_devto tutorial.
Definition funding_store : Cache.storage V4.Article :=
  Cache.Storage (Cache.Json {[ "funding" := Cache.Entry 0 None [funded] ]}) false.


(** An article of the static feed. *)
Definition note : V5.Article :=
  V5.MkArticle (Some "OpenAI raises $500M") (Some "llm") "https://example.org/1".

(** dev.to answering every tag with two tutorials, the less popular one
    first. *)
Definition guide : V4.DevTo :=
  V4.MkDevTo 9 (Some "Learning Go") "https://dev.to/g" (Some 10) None.
Definition rising_wire : V4.network :=
  V4.Network (fun _ _ => Body [tutorial; guide]) (fun _ _ => Body []).

(** dev.to answering every tag with eighty-one stories. *)
Definition crowd_raw : list V4.DevTo :=
  map (fun n => V4.MkDevTo n (Some ("Story " +:+ pretty n)) "https://dev.to/s"
                           (Some (100 + n)) (Some 0))
      (seqZ 0 81).
Definition crowded_wire : V4.network :=
  V4.Network (fun _ _ => Body crowd_raw) (fun _ _ => Body []).

End Sample.

(** * Properties *)

(** ** Worked examples *)

Example includes_ex : Js.includes (Js.toLowerCase "OpenAI Raises $500M") "raises" = true.
Proof. reflexivity. Qed.

Example normalize_ex :
  Js.slice_str 60 (Js.trim (Js.strip_punct (Js.toLowerCase "  OpenAI Raises $500M! ")))
  = "openai raises 500m".
Proof. reflexivity. Qed.

Example scenario_identity_preference :
  V4.merge [V4.MkArticle "devto-2" "OpenAI Raises $500M" "u" 80 0]
           [V4.MkArticle "hn-1" "OpenAI raises $500M" "v" 120 3]
  = [V4.MkArticle "devto-2" "OpenAI Raises $500M" "u" 80 0].
Proof. vm_compute. reflexivity. Qed.

(** ** The stable sort *)

Section SortFacts.
Context {A : Type} (score : A -> Z) (cmp : A -> A -> Z).
Hypothesis cmp_score : forall x y, cmp x y = score y - score x.

Local Abbreviation desc := (desc score).
Local Abbreviation with_score := (with_score score).

Lemma sort_insert_perm x l : sort_insert cmp x l ≡ₚ x :: l.
Proof.
  induction l as [|y l IH]; simpl; [done|].
  destruct (cmp x y <=? 0); [done|].
  rewrite IH. apply perm_swap.
Qed.

Lemma sort_perm l : sort cmp l ≡ₚ l.
Proof.
  induction l as [|x l IH]; simpl; [done|].
  rewrite sort_insert_perm. by f_equiv.
Qed.

Lemma sort_length l : length (sort cmp l) = length l.
Proof. by rewrite sort_perm. Qed.

Lemma sort_insert_sorted x l :
  StronglySorted desc l -> StronglySorted desc (sort_insert cmp x l).
Proof.
  induction l as [|y l IH]; simpl; intros Hs.
  - repeat constructor.
  - destruct (Z.leb_spec (cmp x y) 0) as [Hle|Hgt]; rewrite cmp_score in *.
    + apply StronglySorted_cons in Hs as Hs'. destruct Hs' as [Hy Hl].
      constructor; [done|]. constructor; [unfold desc; lia|].
      eapply Forall_impl; [exact Hy|]. unfold desc. intros; lia.
    + apply StronglySorted_cons in Hs as [Hy Hl].
      constructor; [by apply IH|].
      rewrite sort_insert_perm. constructor; [unfold desc; lia|done].
Qed.

Lemma sort_sorted l : StronglySorted desc (sort cmp l).
Proof.
  induction l as [|x l IH]; simpl; [constructor|].
  by apply sort_insert_sorted.
Qed.

Lemma sort_insert_stable k x l :
  with_score k (sort_insert cmp x l) = with_score k (x :: l).
Proof.
  unfold with_score.
  induction l as [|y l IH]; simpl; [done|].
  destruct (Z.leb_spec (cmp x y) 0) as [Hle|Hgt]; [done|].
  rewrite cmp_score in Hgt. simpl. rewrite IH. simpl.
  destruct (Z.eqb_spec (score x) k), (Z.eqb_spec (score y) k); try done; lia.
Qed.

(** Stability: sorting does not reorder articles of equal score. *)
Lemma sort_stable k l : with_score k (sort cmp l) = with_score k l.
Proof.
  induction l as [|x l IH]; simpl; [done|].
  rewrite sort_insert_stable. unfold with_score in *. simpl. by rewrite IH.
Qed.

Lemma sorted_take n l : StronglySorted desc l -> StronglySorted desc (take n l).
Proof.
  intros Hs. rewrite <- (take_drop n l) in Hs.
  by apply StronglySorted_app_1_l in Hs.
Qed.

Lemma sorted_filter f l :
  StronglySorted desc l -> StronglySorted desc (List.filter f l).
Proof.
  induction 1 as [|x l Hs IH Hx]; simpl; [constructor|].
  destruct (f x); [|done]. constructor; [done|].
  rewrite Forall_forall in *. intros y Hy.
  apply list_elem_of_In, List.filter_In in Hy as [Hy _].
  apply Hx. by apply list_elem_of_In.
Qed.

(** Adjacent pairs are in descending order. *)
Lemma sorted_adjacent l : StronglySorted desc l -> Sorted desc l.
Proof. apply StronglySorted_Sorted. Qed.
End SortFacts.

Section ListFacts.
Context {A : Type}.

Lemma filter_take_prefix (f : A -> bool) n l :
  List.filter f (take n l) `prefix_of` List.filter f l.
Proof.
  exists (List.filter f (drop n l)).
  by rewrite <- List.filter_app, take_drop.
Qed.

Lemma filter_filter_comm (f g : A -> bool) l :
  List.filter f (List.filter g l) = List.filter g (List.filter f l).
Proof.
  induction l as [|x l IH]; simpl; [done|].
  destruct (f x) eqn:Hf, (g x) eqn:Hg; simpl; rewrite ?Hf, ?Hg, IH; done.
Qed.

Lemma filter_length_le (f : A -> bool) l :
  (length (List.filter f l) <= length l)%nat.
Proof.
  induction l as [|x l IH]; simpl; [done|].
  destruct (f x); simpl; lia.
Qed.

Lemma filter_sublist (f : A -> bool) l : List.filter f l `sublist_of` l.
Proof.
  induction l as [|x l IH]; simpl; [done|].
  destruct (f x); by constructor.
Qed.
End ListFacts.

(** ** The seen-set loop *)

Section AbsorbFacts.
Context {A : Type} `{Countable K} (key : A -> K) (keep : A -> bool).

Local Abbreviation has := (has key).
Local Abbreviation count_key := (count_key key).
Local Abbreviation first_with := (first_with key).
Local Abbreviation tracks := (tracks key).

Lemma first_with_app k l1 l2 :
  first_with k (l1 ++ l2) =
  match first_with k l1 with Some a => Some a | None => first_with k l2 end.
Proof.
  unfold first_with. induction l1 as [|x l1 IH]; simpl; [done|].
  by destruct (has k x).
Qed.

Lemma first_with_Some k l a :
  first_with k l = Some a -> a ∈ l /\ key a = k.
Proof.
  intros Hf. apply List.find_some in Hf as [Hin Hk].
  split; [by apply list_elem_of_In|].
  unfold has in Hk. by apply bool_decide_eq_true in Hk.
Qed.

Lemma first_with_None k l :
  first_with k l = None <-> forall a, a ∈ l -> key a <> k.
Proof.
  unfold first_with, has. split.
  - intros Hf a Hin Hk.
    apply list_elem_of_In in Hin. apply (List.find_none _ _ Hf) in Hin.
    by rewrite bool_decide_eq_false in Hin.
  - induction l as [|x l IH]; simpl; intros Hall; [done|].
    rewrite bool_decide_false; [|apply Hall; left].
    apply IH. intros a Ha. apply Hall. by right.
Qed.

Lemma tracks_empty : tracks (∅, []).
Proof. intros k. simpl. set_solver. Qed.

Lemma absorb_tracks st a : tracks st -> tracks (absorb key keep st a).
Proof.
  intros Ht. unfold absorb.
  destruct (negb (bool_decide (key a ∈ st.1)) && keep a) eqn:Hc; [|done].
  intros k. simpl. rewrite first_with_app, elem_of_union, elem_of_singleton, (Ht k).
  destruct (first_with k st.2) eqn:Hf.
  - split; [done|by right].
  - unfold first_with, has. simpl.
    destruct (bool_decide_reflect (key a = k)) as [Hk|Hk]; split.
    + done.
    + intros _. by left.
    + intros [->|?]; done.
    + done.
Qed.

Lemma absorb_all_tracks xs st : tracks st -> tracks (absorb_all key keep st xs).
Proof.
  unfold absorb_all. revert st.
  induction xs as [|x xs IH]; simpl; intros st Ht; [done|].
  by apply IH, absorb_tracks.
Qed.

(** The loop only appends. *)
Lemma absorb_all_extends xs st :
  exists added, (absorb_all key keep st xs).2 = st.2 ++ added
                /\ added `sublist_of` List.filter keep xs.
Proof.
  unfold absorb_all. revert st.
  induction xs as [|x xs IH]; simpl; intros st.
  - exists []. by rewrite app_nil_r.
  - destruct (IH (absorb key keep st x)) as (added & -> & Hsub).
    unfold absorb.
    destruct (bool_decide (key x ∈ st.1)); simpl.
    + exists added. split; [done|]. destruct (keep x); [by constructor|done].
    + destruct (keep x); simpl.
      * exists (x :: added). rewrite <- app_assoc. split; [done|by constructor].
      * by exists added.
Qed.

(** Identity preference: for every key the loop keeps the article the
    output already had, or else the first kept article of the input. *)
Lemma absorb_all_first xs st k :
  tracks st ->
  first_with k (absorb_all key keep st xs).2 =
  match first_with k st.2 with
  | Some a => Some a
  | None => List.find (fun a => has k a && keep a) xs
  end.
Proof.
  unfold absorb_all. revert st.
  induction xs as [|x xs IH]; simpl; intros st Ht.
  - by destruct (first_with k st.2).
  - rewrite IH by by apply absorb_tracks.
    unfold absorb.
    destruct (bool_decide_reflect (key x ∈ st.1)) as [Hin|Hnin]; simpl.
    + destruct (first_with k st.2) eqn:Hf; [done|].
      unfold has at 2. case_bool_decide as Hk; [|done].
      subst k. apply Ht in Hin. done.
    + destruct (keep x) eqn:Hkeep; simpl.
      * rewrite first_with_app. destruct (first_with k st.2); [done|].
        unfold first_with. simpl. rewrite andb_true_r.
        by destruct (has k x).
      * rewrite andb_false_r. done.
Qed.

Lemma absorb_all_nodup xs st :
  tracks st -> NoDup (map key st.2) ->
  NoDup (map key (absorb_all key keep st xs).2).
Proof.
  unfold absorb_all. revert st.
  induction xs as [|x xs IH]; simpl; intros st Ht Hnd; [done|].
  apply IH; [by apply absorb_tracks|].
  unfold absorb.
  destruct (bool_decide_reflect (key x ∈ st.1)) as [Hin|Hnin]; simpl; [done|].
  destruct (keep x); simpl; [|done].
  rewrite map_app. simpl. apply NoDup_app. split_and!; [done| |apply NoDup_singleton].
  intros k Hk ->%list_elem_of_singleton.
  apply Hnin, Ht. apply list_elem_of_fmap in Hk as (a & Hka & Ha).
  intros Hnone. rewrite first_with_None in Hnone. by apply (Hnone a).
Qed.

(** With distinct keys, a key is carried by one article or by none. *)
Lemma count_key_nodup k l :
  NoDup (map key l) ->
  count_key k l = match first_with k l with Some _ => 1%nat | None => 0%nat end.
Proof.
  unfold count_key, first_with.
  induction l as [|x l IH]; simpl; intros Hnd; [done|].
  apply NoDup_cons in Hnd as [Hx Hnd].
  destruct (has k x) eqn:Hk; simpl; [|by apply IH].
  apply bool_decide_eq_true in Hk.
  f_equal. rewrite (IH Hnd).
  destruct (List.find (has k) l) eqn:Hf; [|done].
  apply first_with_Some in Hf as [Hin Hk'].
  exfalso. apply Hx. rewrite Hk, <- Hk'. by apply list_elem_of_fmap_2.
Qed.

Lemma count_key_le_1 k l : NoDup (map key l) -> (count_key k l <= 1)%nat.
Proof.
  intros Hnd. rewrite count_key_nodup by done.
  destruct (first_with k l); lia.
Qed.

Lemma nodup_keys_sublist l1 l2 :
  l1 `sublist_of` l2 -> NoDup (map key l2) -> NoDup (map key l1).
Proof.
  intros Hs Hnd. eapply sublist_NoDup; [exact Hnd|]. by apply (fmap_sublist key).
Qed.

Lemma nodup_keys_perm l1 l2 :
  l1 ≡ₚ l2 -> NoDup (map key l2) -> NoDup (map key l1).
Proof. intros Hp Hnd. by rewrite Hp. Qed.

Lemma count_key_perm k l1 l2 : l1 ≡ₚ l2 -> count_key k l1 = count_key k l2.
Proof.
  unfold count_key. induction 1; simpl; try congruence.
  - destruct (has k x); simpl; congruence.
  - destruct (has k x), (has k y); simpl; congruence.
Qed.
End AbsorbFacts.

(** With distinct keys, two articles that share a key are one. *)
Lemma nodup_keys_eq {A} `{Countable K} (key : A -> K) l a b :
  NoDup (map key l) -> a ∈ l -> b ∈ l -> key a = key b -> a = b.
Proof.
  intros Hnd Ha Hb Hk.
  apply list_elem_of_lookup in Ha as [i Hi], Hb as [j Hj].
  assert (i = j) as ->; [|congruence].
  eapply NoDup_lookup; [exact Hnd|..]; rewrite list_lookup_fmap.
  - by rewrite Hi.
  - rewrite Hj. simpl. by rewrite Hk.
Qed.

(** ** The cache contract *)

Section CacheFacts.
Context {A : Type}.
Implicit Types (st : Cache.storage A) (e : Cache.entry A).

Lemma loadCache_total st now filter : is_Ret (Cache.loadCache st now filter).
Proof.
  unfold Cache.loadCache, Cache.loadCache_body, Cache.parse, try_catch, is_Ret.
  destruct (Cache.item st) as [| |m]; [rewrite lookup_empty|..]; eauto.
  destruct (m !! filter) as [e|]; eauto.
  destruct (now - Cache.ts e >? Cache.CACHE_TTL); eauto.
Qed.

Lemma loadCache_unfold st now filter :
  Cache.loadCache st now filter =
  Ret (match Cache.item st with
       | Cache.Json m =>
           match m !! filter with
           | Some e => if now - Cache.ts e >? Cache.CACHE_TTL then None
                       else Some (Cache.articles e)
           | None => None
           end
       | _ => None
       end).
Proof.
  unfold Cache.loadCache, Cache.loadCache_body, Cache.parse, try_catch.
  destruct (Cache.item st) as [| |m]; [by rewrite lookup_empty|done|].
  destruct (m !! filter) as [e|]; [|done].
  by destruct (now - Cache.ts e >? Cache.CACHE_TTL).
Qed.

Lemma loadCache_Some st now filter l :
  Cache.loadCache st now filter = Ret (Some l) <->
  exists m e, Cache.item st = Cache.Json m /\ m !! filter = Some e
              /\ now - Cache.ts e <= Cache.CACHE_TTL /\ Cache.articles e = l.
Proof.
  rewrite loadCache_unfold. split.
  - destruct (Cache.item st) as [| |m]; [done..|].
    destruct (m !! filter) as [e|] eqn:He; [|done].
    destruct (Z.gtb_spec (now - Cache.ts e) Cache.CACHE_TTL); [done|].
    intros [= <-]. exists m, e. repeat split; [done|lia].
  - intros (m & e & -> & -> & Hage & <-).
    destruct (Z.gtb_spec (now - Cache.ts e) Cache.CACHE_TTL); [lia|done].
Qed.

Lemma loadCache_stale st now filter m e :
  Cache.item st = Cache.Json m -> m !! filter = Some e ->
  Cache.CACHE_TTL < now - Cache.ts e ->
  Cache.loadCache st now filter = Ret None.
Proof.
  intros Hm He Hage. rewrite loadCache_unfold, Hm, He.
  destruct (Z.gtb_spec (now - Cache.ts e) Cache.CACHE_TTL); [done|lia].
Qed.

Lemma loadCache_absent st now filter :
  (Cache.item st = Cache.NoItem \/ Cache.item st = Cache.Garbage
   \/ exists m, Cache.item st = Cache.Json m /\ m !! filter = None) ->
  Cache.loadCache st now filter = Ret None.
Proof.
  rewrite loadCache_unfold.
  intros [-> | [-> | (m & -> & ->)]]; done.
Qed.

(** A write that went through is the entry read back. *)
Lemma saveCache_body_lookup st T lbl filter arts st' :
  Cache.saveCache_body st T lbl filter arts = Ret st' ->
  exists m, Cache.item st' = Cache.Json m
            /\ m !! filter = Some (Cache.Entry T lbl arts).
Proof.
  unfold Cache.saveCache_body, Cache.setItem.
  destruct (Cache.parse st) as [all|]; [|done].
  destruct (Cache.quota_exceeded st); [done|].
  intros [= <-]. eexists. split; [done|]. apply lookup_insert_eq.
Qed.

(** Whatever [saveCache] does, entries of the storage are the old ones or
    the one just written. *)
Lemma saveCache_entries st T lbl filter arts m f e :
  Cache.item (Cache.saveCache st T lbl filter arts) = Cache.Json m ->
  m !! f = Some e ->
  e = Cache.Entry T lbl arts
  \/ exists m0, Cache.item st = Cache.Json m0 /\ m0 !! f = Some e.
Proof.
  unfold Cache.saveCache, Cache.saveCache_body, Cache.setItem, Cache.parse.
  destruct (Cache.item st) as [| |m0] eqn:Hitem.
  - destruct (Cache.quota_exceeded st); simpl; [congruence|].
    intros [= <-]. rewrite lookup_insert. case_decide; [|by rewrite lookup_empty].
    intros [= <-]. by left.
  - congruence.
  - destruct (Cache.quota_exceeded st); simpl.
    + rewrite Hitem. intros [= <-] He. right. eauto.
    + intros [= <-]. rewrite lookup_insert. case_decide.
      * intros [= <-]. by left.
      * intros He. right. eauto.
Qed.
End CacheFacts.

(** C4 -- the [get] contract of the cache store ([loadCache] of the three
    cached variants).  For every storage content, filter and read time the
    call completes without throwing; it returns a list exactly when the
    stored blob parses, holds an entry for the filter and the age of that
    entry is at most [CACHE_TTL], which is one hour, and the list is the
    stored one; a missing item, a blob that does not parse and a blob without
    the filter give [null]; an entry written at [T] is returned at
    [T + CACHE_TTL - eps] and is absent at [T + CACHE_TTL + eps].  The body of
    the [try] does throw on a blob that does not parse: it is the [catch] that
    keeps the exception inside. *)
Theorem C4_loadCache_contract :
  forall (A : Type) (st : Cache.storage A) (now : Z) (filter : string),
    is_Ret (Cache.loadCache st now filter)
    /\ Cache.CACHE_TTL = 3600000
    /\ (forall l, Cache.loadCache st now filter = Ret (Some l) <->
          exists m e, Cache.item st = Cache.Json m /\ m !! filter = Some e
                      /\ now - Cache.ts e <= Cache.CACHE_TTL
                      /\ Cache.articles e = l)
    /\ ((Cache.item st = Cache.NoItem \/ Cache.item st = Cache.Garbage
         \/ exists m, Cache.item st = Cache.Json m /\ m !! filter = None) ->
        Cache.loadCache st now filter = Ret None)
    /\ (forall T lbl arts st' eps,
          Cache.saveCache_body st T lbl filter arts = Ret st' -> 0 < eps ->
          Cache.loadCache st' (T + Cache.CACHE_TTL - eps) filter = Ret (Some arts)
          /\ Cache.loadCache st' (T + Cache.CACHE_TTL) filter = Ret (Some arts)
          /\ Cache.loadCache st' (T + Cache.CACHE_TTL + eps) filter = Ret None)
    /\ (Cache.item st = Cache.Garbage ->
        Cache.loadCache_body st now filter = Throw).
Proof.
  intros A st now filter. split_and!;
    [..|intros Hg; unfold Cache.loadCache_body, Cache.parse; by rewrite Hg].
  - apply loadCache_total.
  - reflexivity.
  - apply loadCache_Some.
  - apply loadCache_absent.
  - intros T lbl arts st' eps Hsave Heps.
    apply saveCache_body_lookup in Hsave as (m & Hm & He).
    split_and!.
    + apply loadCache_Some. exists m, (Cache.Entry T lbl arts). simpl.
      repeat split; [done..|lia].
    + apply loadCache_Some. exists m, (Cache.Entry T lbl arts). simpl.
      repeat split; [done..|lia].
    + eapply loadCache_stale; [done..|]. simpl. lia.
Qed.

(** ** Deduplicate, rank, cut: the shape shared by the three variants *)

Section PipelineFacts.
Context {A : Type} `{Countable K} (key : A -> K) (keep : A -> bool).
Context (score : A -> Z) (cmp : A -> A -> Z).
Hypothesis cmp_score : forall x y, cmp x y = score y - score x.

(** [results] after the seen-set loop from an empty set, then sorted and
    cut to [cap]. *)
Let results (xs : list A) : list A := (absorb_all key keep (∅, []) xs).2.
Let ranked (cap : nat) (xs : list A) : list A := slice0 cap (sort cmp (results xs)).

Lemma results_nodup xs : NoDup (map key (results xs)).
Proof. apply absorb_all_nodup; [apply tracks_empty|constructor]. Qed.

Lemma results_first xs k :
  first_with key k (results xs) = List.find (fun a => has key k a && keep a) xs.
Proof. unfold results. by rewrite absorb_all_first by apply tracks_empty. Qed.

Lemma results_sublist xs : results xs `sublist_of` List.filter keep xs.
Proof.
  destruct (absorb_all_extends key keep xs (∅, [])) as (added & Heq & Hsub).
  unfold results. by rewrite Heq.
Qed.

Lemma ranked_length cap xs : (length (ranked cap xs) <= cap)%nat.
Proof. unfold ranked, slice0. rewrite length_take. lia. Qed.

Lemma ranked_sorted cap xs : Sorted (desc score) (ranked cap xs).
Proof.
  apply sorted_adjacent, sorted_take. by apply sort_sorted.
Qed.

Lemma ranked_stable cap xs k :
  with_score score k (ranked cap xs) `prefix_of` with_score score k (results xs).
Proof.
  unfold ranked, slice0.
  rewrite <- (sort_stable score cmp cmp_score k (results xs)).
  apply filter_take_prefix.
Qed.

Lemma ranked_incl cap xs a : a ∈ ranked cap xs -> a ∈ results xs.
Proof.
  unfold ranked, slice0. intros Hin.
  apply (subseteq_take cap) in Hin. by rewrite (sort_perm cmp) in Hin.
Qed.

Lemma ranked_nodup cap xs : NoDup (map key (ranked cap xs)).
Proof.
  unfold ranked, slice0.
  eapply nodup_keys_sublist; [apply sublist_take|].
  eapply nodup_keys_perm; [apply sort_perm|]. apply results_nodup.
Qed.

(** Whatever the output holds for a key is the first kept article of the
    input with that key, itself. *)
Lemma ranked_first cap xs a :
  a ∈ ranked cap xs ->
  List.find (fun b => has key (key a) b && keep b) xs = Some a.
Proof.
  intros Hin%ranked_incl. rewrite <- results_first.
  destruct (first_with key (key a) (results xs)) as [b|] eqn:Hf.
  - f_equal. apply first_with_Some in Hf as [Hb Hk].
    pose proof (results_nodup xs) as Hnd.
    apply list_elem_of_lookup in Hb as [i Hi], Hin as [j Hj].
    assert (i = j) as ->; [|congruence].
    eapply NoDup_lookup; [exact Hnd|..]; rewrite list_lookup_fmap.
    + by rewrite Hi.
    + rewrite Hj. simpl. by rewrite Hk.
  - rewrite first_with_None in Hf. by apply Hf in Hin.
Qed.

Lemma ranked_count_le cap xs k : (count_key key k (ranked cap xs) <= 1)%nat.
Proof. apply count_key_le_1, ranked_nodup. Qed.

(** A kept input article has its key once in [results]. *)
Lemma results_count xs a :
  a ∈ xs -> keep a = true -> count_key key (key a) (results xs) = 1%nat.
Proof.
  intros Hin Hkeep. rewrite count_key_nodup by apply results_nodup.
  rewrite results_first.
  destruct (List.find _ xs) eqn:Hf; [done|].
  apply list_elem_of_In in Hin. apply (List.find_none _ _ Hf) in Hin.
  unfold has in Hin. rewrite Hkeep, bool_decide_true in Hin; done.
Qed.

(** The cut is the only way to lose a key. *)
Lemma ranked_count_uncut cap xs a :
  a ∈ xs -> keep a = true -> (length (results xs) <= cap)%nat ->
  count_key key (key a) (ranked cap xs) = 1%nat.
Proof.
  intros Hin Hkeep Hlen. unfold ranked, slice0.
  rewrite take_ge by (by rewrite sort_length).
  rewrite (count_key_perm key _ _ _ (sort_perm cmp _)).
  by apply results_count.
Qed.
End PipelineFacts.

(** ** What the fetchers issue and return *)

Section FetchFacts.
Import Hn.

Lemma find_keep_all {A} `{Countable K} (key : A -> K) k xs :
  List.find (fun b => has key k b && true) xs = first_with key k xs.
Proof.
  unfold first_with. induction xs as [|x xs IH]; simpl; [done|].
  rewrite andb_true_r. by destruct (has key k x).
Qed.

Lemma settle_fetchOne net days qs tr :
  settle_all (V3.fetchOne net days) qs tr =
  (tr ++ map (fun q => Search q days) qs,
   answers net (length tr) (map (fun q => Search q days) qs)).
Proof.
  unfold answers. revert tr.
  induction qs as [|q qs IH]; intros tr; simpl.
  - by rewrite app_nil_r.
  - rewrite IH. rewrite <- app_assoc. simpl. f_equal.
    rewrite Nat.add_0_r. f_equal. apply imap_ext. intros i r _. simpl.
    rewrite length_app. simpl. f_equal. lia.
Qed.

Lemma absorb_batches_Throw {A} (f : res A -> response Hit -> res A) bs :
  (forall b, f Throw b = Throw) -> fold_left f bs Throw = Throw.
Proof. intros Hf. induction bs as [|b bs IH]; simpl; [done|]. by rewrite Hf. Qed.

Lemma absorb_batches_spec s bs :
  V3.absorb_batches s bs =
  if iterable bs
  then Ret (absorb_all objectID (fun h => truthy (title h)) s (fulfilled bs))
  else Throw.
Proof.
  unfold V3.absorb_batches, fulfilled, absorb_all. revert s.
  induction bs as [|b bs IH]; intros s; simpl; [done|].
  destruct b as [|hits|]; simpl.
  - apply IH.
  - rewrite IH. by rewrite fold_left_app.
  - by apply absorb_batches_Throw.
Qed.

Lemma round_spec net days qs s tr :
  V3.round net days qs s tr =
  let rs := map (fun q => Search q days) qs in
  let bs := answers net (length tr) rs in
  (tr ++ rs,
   if iterable bs
   then Ret (absorb_all objectID (fun h => truthy (title h)) s (fulfilled bs))
   else Throw).
Proof.
  unfold V3.round. rewrite settle_fetchOne. simpl. by rewrite absorb_batches_spec.
Qed.

Lemma answers_app net n rs1 rs2 :
  answers net n (rs1 ++ rs2) =
  answers net n rs1 ++ answers net (n + length rs1) rs2.
Proof.
  unfold answers. rewrite imap_app. f_equal.
  apply imap_ext. intros i r _. simpl. f_equal. lia.
Qed.

Lemma fulfilled_app {A} (bs1 bs2 : list (response A)) :
  fulfilled (bs1 ++ bs2) = fulfilled bs1 ++ fulfilled bs2.
Proof. unfold fulfilled. by rewrite map_app, concat_app. Qed.

(** Everything [collect] returns is the seen-set loop run over the bodies
    of the answers to the requests it issued, in order. *)
Lemma collect_spec net filter reqs s :
  V3.collect net filter [] = (reqs, Ret s) ->
  s = absorb_all objectID (fun h => truthy (title h)) (∅, [])
                 (fulfilled (answers net 0 reqs)).
Proof.
  unfold V3.collect, bind. rewrite round_spec. simpl.
  set (rs1 := map (fun q => Search q 1) (V3.queries_of filter)).
  destruct (iterable (answers net 0 rs1)); [|done].
  set (s1 := absorb_all _ _ _ (fulfilled (answers net 0 rs1))).
  destruct (V3.sparse s1.2).
  - rewrite round_spec. simpl.
    set (rs3 := map (fun q => Search q 3) (V3.queries_of filter)).
    destruct (iterable (answers net (length rs1) rs3)); [|done].
    intros [= <- <-]. rewrite answers_app, fulfilled_app.
    unfold absorb_all. rewrite fold_left_app. done.
  - unfold ret. intros [= <- <-]. done.
Qed.

Lemma fetchAll_spec net filter tr tr' out :
  V3.fetchAll net filter tr = (tr', Ret out) ->
  exists s, V3.collect net filter tr = (tr', Ret s)
            /\ out = slice0 80 (sort by_points s.2).
Proof.
  unfold V3.fetchAll, bind.
  destruct (V3.collect net filter tr) as [tr1 [s|]]; [|done].
  unfold ret. intros [= <- <-]. eauto.
Qed.

Lemma fetchArticles_spec net filter tr tr' out :
  V2.fetchArticles net filter tr = (tr', Ret out) ->
  exists n days hits,
    net n (Search (V2.topic filter) days) = Body hits /\ out = V2.rank hits.
Proof.
  unfold V2.fetchArticles, bind, V2.fetchHN.
  destruct (net (length tr) _) as [|l1|] eqn:H1; simpl; [done| |done].
  destruct (length l1 <? 5)%nat.
  - destruct (net (length (tr ++ _)) _) as [|l3|] eqn:H3; simpl; [done| |done].
    unfold ret. intros [= <- <-]. eauto.
  - unfold ret. intros [= <- <-]. eauto.
Qed.
End FetchFacts.

(** ** Sort, cut and post-filter of each variant *)

Section RankFacts.
Context {A : Type} (score : A -> Z) (cmp : A -> A -> Z).
Hypothesis cmp_score : forall x y, cmp x y = score y - score x.

Lemma cut_sorted cap l : Sorted (desc score) (slice0 cap (sort cmp l)).
Proof. apply StronglySorted_Sorted, sorted_take. by apply sort_sorted. Qed.

Lemma cut_stable cap l k :
  with_score score k (slice0 cap (sort cmp l)) `prefix_of` with_score score k l.
Proof.
  rewrite <- (sort_stable score cmp cmp_score k l). apply filter_take_prefix.
Qed.

Lemma cut_length cap l : (length (slice0 cap (sort cmp l)) <= cap)%nat.
Proof. unfold slice0. rewrite length_take. lia. Qed.

Lemma filter_sorted f l :
  Sorted (desc score) l -> Sorted (desc score) (List.filter f l).
Proof.
  intros Hs. apply StronglySorted_Sorted, sorted_filter.
  apply Sorted_StronglySorted; [|done].
  intros x y z. unfold desc. lia.
Qed.
End RankFacts.

Lemma hn_cmp_score x y : Hn.by_points x y = Hn.score y - Hn.score x.
Proof. reflexivity. Qed.

Lemma v4_cmp_score x y : V4.by_points x y = V4.points y - V4.points x.
Proof. reflexivity. Qed.

Lemma aggregate_cases filter devto hn :
  V4.aggregate filter devto hn = V4.merge devto hn
  \/ V4.aggregate filter devto hn = List.filter V4.mentions_funding (V4.merge devto hn).
Proof. unfold V4.aggregate. destruct (String.eqb filter "funding"); auto. Qed.

Lemma aggregate_sublist filter devto hn :
  V4.aggregate filter devto hn `sublist_of` V4.merge devto hn.
Proof.
  destruct (aggregate_cases filter devto hn) as [-> | ->]; [done|].
  apply filter_sublist.
Qed.

(** ** What a run shows and caches *)

Lemma listed_finish {R A} filter (l : list A) fromCache banner (tr : list R) st :
  listed (Ui.Run (Ui.finish filter l fromCache banner) tr st) = l.
Proof. by destruct l. Qed.

Lemma listed_gave_up {R A} filter (l : list A) why banner (tr : list R) st :
  listed (Ui.Run (Ui.gave_up filter l why banner) tr st) = [].
Proof. done. Qed.

(** Reads the list off the page a run ends on. *)
Ltac on_page :=
  rewrite ?listed_finish, ?listed_gave_up; try unfold listed;
  cbn [Ui.shown Ui.view Ui.allArticles Ui.errorBanner Ui.disk].

Lemma saveCache_entries_all {A} (P : list A -> Prop) (st : Cache.storage A)
    T lbl filter arts :
  entries_all P st -> P arts ->
  entries_all P (Cache.saveCache st T lbl filter arts).
Proof.
  intros Hst Harts m f e Hm He.
  destruct (saveCache_entries st T lbl filter arts m f e Hm He)
    as [-> | (m0 & Hm0 & He0)]; [done|].
  by eapply Hst.
Qed.

Lemma loadCache_entries_all {A} (P : list A -> Prop) (st : Cache.storage A)
    now filter l :
  entries_all P st -> Cache.loadCache st now filter = Ret (Some l) -> P l.
Proof.
  intros Hst (m & e & Hm & He & _ & <-)%loadCache_Some. by eapply Hst.
Qed.

Lemma consult_entries_all {A} (P : list A -> Prop) (st : Cache.storage A)
    now filter force l :
  entries_all P st -> Cache.consult st now filter force = Ret (Some l) -> P l.
Proof.
  unfold Cache.consult. destruct force; [done|]. apply loadCache_entries_all.
Qed.

(** What a run of [loadArticles] shows and leaves in the cache has every
    property that the results of [fetchArticles] and the cached lists
    have. *)
Lemma v2_load_keeps (P : list Hn.Hit -> Prop) prev st net t0 t1 filter force r :
  P [] ->
  (forall tr out, V2.fetchArticles net filter [] = (tr, Ret out) -> P out) ->
  entries_all P st ->
  V2.loadArticles prev st net t0 t1 filter force = Ret r ->
  entries_all P (Ui.disk r) /\ P (listed r).
Proof.
  intros Hnil Hfetch Hst Hrun. unfold V2.loadArticles in Hrun.
  destruct (Cache.consult st t0 filter force) as [[c|]|] eqn:Hc;
    cbv beta iota in Hrun; [| |discriminate].
  { injection Hrun as <-. on_page. split; [done|].
    by eapply consult_entries_all. }
  destruct (V2.fetchArticles net filter []) as [tr [all|]] eqn:Hf;
    cbv beta iota in Hrun.
  { injection Hrun as <-. on_page.
    split; [apply saveCache_entries_all|]; eauto. }
  destruct (Cache.loadCache st t1 filter) as [[fb|]|] eqn:Hfb;
    cbv beta iota in Hrun; [| |discriminate]; injection Hrun as <-.
  - on_page. split; [done|]. by eapply loadCache_entries_all.
  - by on_page.
Qed.

Lemma v3_load_keeps (P : list Hn.Hit -> Prop) prev st net t0 t1 filter force r :
  P [] ->
  (forall tr out, V3.fetchAll net filter [] = (tr, Ret out) -> P out) ->
  entries_all P st ->
  V3.load false prev st net t0 t1 filter force = Some (Ret r) ->
  entries_all P (Ui.disk r) /\ P (listed r).
Proof.
  intros Hnil Hfetch Hst Hrun. unfold V3.load in Hrun.
  destruct (Cache.consult st t0 filter force) as [[[|a c]|]|] eqn:Hc;
    cbv beta iota in Hrun; [| | |discriminate].
  2:{ injection Hrun as <-. on_page. split; [done|].
      by eapply consult_entries_all. }
  all: destruct (V3.fetchAll net filter []) as [tr [all|]] eqn:Hf;
    cbv beta iota in Hrun.
  1,3: injection Hrun as <-; on_page;
    (split; [|by eauto]); destruct all; [done|apply saveCache_entries_all; eauto].
  all: destruct (Cache.loadCache st t1 filter) as [[[|b fb]|]|] eqn:Hfb;
    cbv beta iota in Hrun; [| | |discriminate]; injection Hrun as <-.
  all: on_page; (split; [done|]); try done.
  all: by eapply loadCache_entries_all.
Qed.

Lemma recover_keeps (P : list V4.Article -> Prop) held st t1 filter tr r :
  P [] -> entries_all P st ->
  V4.recover held st t1 filter tr = Ret r ->
  Ui.disk r = st /\ P (listed r)
  /\ Ui.errorBanner (Ui.shown r) <> Some Ui.LimitedResults.
Proof.
  intros Hnil Hst Hrun. unfold V4.recover in Hrun.
  destruct (Cache.loadCache st t1 filter) as [[[|b fb]|]|] eqn:Hfb;
    cbv beta iota in Hrun; [| | |discriminate]; injection Hrun as <-.
  all: on_page; split_and!; try done.
  by eapply loadCache_entries_all.
Qed.

(** The same for [load] of the two-source variant, where the broadened
    list, shown under the "limited results" notice, is the one list that
    does not come out of [merge] or of the cache: it is what [fetchDevTo]
    returned for the one tag, and it is not cached. *)
Lemma v4_load_keeps (P : list V4.Article -> Prop) prev st net t0 t1 filter force r :
  P [] ->
  (forall d h, P (V4.aggregate filter d h)) ->
  entries_all P st ->
  V4.load prev st net t0 t1 filter force = Ret r ->
  entries_all P (Ui.disk r)
  /\ (Ui.errorBanner (Ui.shown r) <> Some Ui.LimitedResults -> P (listed r))
  /\ (Ui.errorBanner (Ui.shown r) = Some Ui.LimitedResults ->
      Ui.disk r = st
      /\ exists tr, (V4.fetchDevTo net ["artificial-intelligence"] tr).2
                    = Ret (listed r)).
Proof.
  intros Hnil Hagg Hst Hrun. unfold V4.load in Hrun.
  destruct (Cache.consult st t0 filter force) as [[[|a c]|]|] eqn:Hc;
    cbv beta iota zeta in Hrun; [| | |discriminate].
  2:{ injection Hrun as <-. on_page. split_and!; [done| |done].
      intros _. by eapply consult_entries_all. }
  all: destruct (both _ _ []) as [tr [[d h]|]]; cbv beta iota in Hrun.
  2,4: apply (recover_keeps P) in Hrun as (-> & Hl & Hb); done.
  all: pose proof (Hagg d h) as Hdh;
    destruct (V4.aggregate filter d h) as [|x all]; cbv beta iota in Hrun.
  2,4: injection Hrun as <-; on_page;
    split_and!; [by apply saveCache_entries_all|done|done].
  all: destruct (V4.fetchDevTo net ["artificial-intelligence"] tr)
    as [tr' [[|y fb]|]] eqn:Hfb; cbv beta iota in Hrun.
  3,6: apply (recover_keeps P) in Hrun as (-> & Hl & Hb); done.
  all: injection Hrun as <-; on_page;
    split_and!; try done.
  all: intros _; split; [done|]; exists tr; by rewrite Hfb.
Qed.

Lemma aggregate_sorted filter devto hn :
  Sorted (desc V4.points) (V4.aggregate filter devto hn).
Proof.
  assert (Hm : Sorted (desc V4.points) (V4.merge devto hn))
    by apply (cut_sorted _ _ v4_cmp_score).
  destruct (aggregate_cases filter devto hn) as [-> | ->]; [done|].
  by apply filter_sorted.
Qed.

Lemma aggregate_length filter devto hn :
  (length (V4.aggregate filter devto hn) <= 80)%nat.
Proof.
  etransitivity; [apply sublist_length, aggregate_sublist|]. apply cut_length.
Qed.

Lemma cut_length_exact {A} (cmp : A -> A -> Z) cap l :
  length (slice0 cap (sort cmp l)) = Nat.min cap (length l).
Proof. unfold slice0. by rewrite length_take, sort_length. Qed.

(** C7, as the code has it -- sort correctness and stability.  The sort is a
    stable sort by descending score: its output is a permutation of its
    input, every earlier score is at least every later one, and the articles
    of any one score keep their order.  Whatever [fetchArticles], [fetchAll],
    [merge] and [merge] followed by the funding post-filter return is a cut
    (a sublist, for the post-filter) of such a sorted list, so every adjacent
    pair has the earlier score at least the later one and equal scores appear
    in the order of the deduplicated list, which is the fetch order.  A run
    shows and caches sorted lists as long as the cache held sorted lists,
    with one exception: the broadened list that [load] of the two-source
    variant shows under the "limited results" notice is the list
    [fetchDevTo] returned for the one tag, in that order; it is not cached. *)
Theorem C7_sorted_and_stable :
  (forall l : list Hn.Hit,
      sort Hn.by_points l ≡ₚ l
      /\ StronglySorted (desc Hn.score) (sort Hn.by_points l)
      /\ forall k, with_score Hn.score k (sort Hn.by_points l) = with_score Hn.score k l)
  /\ (forall l : list V4.Article,
      sort V4.by_points l ≡ₚ l
      /\ StronglySorted (desc V4.points) (sort V4.by_points l)
      /\ forall k, with_score V4.points k (sort V4.by_points l) = with_score V4.points k l)
  /\ (forall net filter tr tr' out,
      V2.fetchArticles net filter tr = (tr', Ret out) ->
      Sorted (desc Hn.score) out
      /\ exists n days hits,
           net n (Hn.Search (V2.topic filter) days) = Body hits
           /\ out = V2.rank hits
           /\ V2.rank hits = slice0 V2.MAX_RESULTS (sort Hn.by_points (V2.unique hits))
           /\ forall k, with_score Hn.score k out
                        `prefix_of` with_score Hn.score k (V2.unique hits))
  /\ (forall net filter tr tr' out,
      V3.fetchAll net filter tr = (tr', Ret out) ->
      Sorted (desc Hn.score) out
      /\ exists s, V3.collect net filter tr = (tr', Ret s)
         /\ out = slice0 80 (sort Hn.by_points s.2)
         /\ forall k, with_score Hn.score k out `prefix_of` with_score Hn.score k s.2)
  /\ (forall devto hn,
      Sorted (desc V4.points) (V4.merge devto hn)
      /\ V4.merge devto hn = slice0 80 (sort V4.by_points (V4.dedupe (devto ++ hn)))
      /\ forall k, with_score V4.points k (V4.merge devto hn)
                   `prefix_of` with_score V4.points k (V4.dedupe (devto ++ hn)))
  /\ (forall filter devto hn,
      Sorted (desc V4.points) (V4.aggregate filter devto hn)
      /\ forall k, with_score V4.points k (V4.aggregate filter devto hn)
                   `sublist_of` with_score V4.points k (V4.dedupe (devto ++ hn)))
  /\ (forall prev st net t0 t1 filter force r,
      entries_all (Sorted (desc Hn.score)) st ->
      V2.loadArticles prev st net t0 t1 filter force = Ret r ->
      entries_all (Sorted (desc Hn.score)) (Ui.disk r)
      /\ Sorted (desc Hn.score) (listed r))
  /\ (forall prev st net t0 t1 filter force r,
      entries_all (Sorted (desc Hn.score)) st ->
      V3.load false prev st net t0 t1 filter force = Some (Ret r) ->
      entries_all (Sorted (desc Hn.score)) (Ui.disk r)
      /\ Sorted (desc Hn.score) (listed r))
  /\ (forall prev st net t0 t1 filter force r,
      entries_all (Sorted (desc V4.points)) st ->
      V4.load prev st net t0 t1 filter force = Ret r ->
      entries_all (Sorted (desc V4.points)) (Ui.disk r)
      /\ (Ui.errorBanner (Ui.shown r) <> Some Ui.LimitedResults ->
          Sorted (desc V4.points) (listed r))
      /\ (Ui.errorBanner (Ui.shown r) = Some Ui.LimitedResults ->
          Ui.disk r = st
          /\ exists tr, (V4.fetchDevTo net ["artificial-intelligence"] tr).2
                        = Ret (listed r))).
Proof.
  split_and!.
  - intros l. split_and!;
      [apply sort_perm|apply (sort_sorted _ _ hn_cmp_score)
      |intros k; apply (sort_stable _ _ hn_cmp_score)].
  - intros l. split_and!;
      [apply sort_perm|apply (sort_sorted _ _ v4_cmp_score)
      |intros k; apply (sort_stable _ _ v4_cmp_score)].
  - intros net filter tr tr' out (n & days & hits & Hnet & ->)%fetchArticles_spec.
    split; [apply (cut_sorted _ _ hn_cmp_score)|].
    exists n, days, hits. split_and!; [done..|].
    intros k. apply (cut_stable _ _ hn_cmp_score).
  - intros net filter tr tr' out (s & Hs & ->)%fetchAll_spec.
    split; [apply (cut_sorted _ _ hn_cmp_score)|].
    exists s. split_and!; [done..|]. intros k. apply (cut_stable _ _ hn_cmp_score).
  - intros devto hn. split_and!; [apply (cut_sorted _ _ v4_cmp_score)|done|].
    intros k. apply (cut_stable _ _ v4_cmp_score).
  - intros filter devto hn. split; [apply aggregate_sorted|].
    intros k. transitivity (with_score V4.points k (V4.merge devto hn)).
    + unfold with_score.
      destruct (aggregate_cases filter devto hn) as [-> | ->]; [done|].
      rewrite filter_filter_comm. apply filter_sublist.
    + destruct (cut_stable _ _ v4_cmp_score 80%nat
                  (V4.dedupe (devto ++ hn)) k) as [rest ->].
      by apply sublist_inserts_r.
  - intros prev st net t0 t1 filter force r Hst Hrun.
    apply (v2_load_keeps (Sorted (desc Hn.score)) _ _ _ _ _ _ _ _
             (Sorted_nil _)) in Hrun; [done| |done].
    intros tr out (n & days & hits & _ & ->)%fetchArticles_spec.
    apply (cut_sorted _ _ hn_cmp_score).
  - intros prev st net t0 t1 filter force r Hst Hrun.
    apply (v3_load_keeps (Sorted (desc Hn.score)) _ _ _ _ _ _ _ _
             (Sorted_nil _)) in Hrun; [done| |done].
    intros tr out (s & _ & ->)%fetchAll_spec. apply (cut_sorted _ _ hn_cmp_score).
  - intros prev st net t0 t1 filter force r Hst Hrun.
    apply (v4_load_keeps (Sorted (desc V4.points)) _ _ _ _ _ _ _ _
             (Sorted_nil _)) in Hrun; [done| |done].
    intros d h. apply aggregate_sorted.
Qed.

(** C7, as stated, fails: dev.to knows two tutorials with 3 and 10
    reactions, in that order, and none mentions funding; the funding filter
    falls back to the broadened list and shows it as it came, the less
    popular tutorial first. *)
Lemma C7_fallback_list_is_not_sorted :
  exists r,
    V4.load [] Sample.blank Sample.rising_wire 0 1 "funding" false = Ret r
    /\ Ui.errorBanner (Ui.shown r) = Some Ui.LimitedResults
    /\ map V4.points (listed r) = [3; 10]
    /\ ~ Sorted (desc V4.points) (listed r).
Proof.
  eexists. split; [vm_compute; reflexivity|].
  split_and!; [reflexivity..|].
  unfold listed. simpl. intros Hs.
  inversion Hs as [|? ? _ Hd]; subst.
  inversion Hd as [|? ? Hab]; subst.
  unfold desc in Hab. simpl in Hab. lia.
Qed.

(** C8, as the code has it -- truncation.  The list returned by
    [fetchArticles] has [min 60 n] entries and the lists returned by
    [fetchAll] and [merge] have [min 80 n], for [n] deduplicated articles;
    the funding post-filter only shortens.  A run shows and caches lists
    within the cap as long as the cache held such lists, with one exception:
    the broadened list that [load] of the two-source variant shows under the
    "limited results" notice is the list [fetchDevTo] returned for the one
    tag, whatever its length; it is not cached. *)
Theorem C8_truncation :
  V2.MAX_RESULTS = 60%nat
  /\ (forall net filter tr tr' out,
        V2.fetchArticles net filter tr = (tr', Ret out) ->
        (length out <= V2.MAX_RESULTS)%nat)
  /\ (forall net filter tr tr' out,
        V3.fetchAll net filter tr = (tr', Ret out) -> (length out <= 80)%nat)
  /\ (forall devto hn, (length (V4.merge devto hn) <= 80)%nat)
  /\ (forall filter devto hn, (length (V4.aggregate filter devto hn) <= 80)%nat)
  /\ (forall hits,
        length (V2.rank hits) = Nat.min V2.MAX_RESULTS (length (V2.unique hits)))
  /\ (forall net filter tr tr' out,
        V3.fetchAll net filter tr = (tr', Ret out) ->
        exists s, V3.collect net filter tr = (tr', Ret s)
                  /\ length out = Nat.min 80 (length s.2))
  /\ (forall devto hn,
        length (V4.merge devto hn) = Nat.min 80 (length (V4.dedupe (devto ++ hn))))
  /\ (forall prev st net t0 t1 filter force r,
      entries_all (fun l => (length l <= V2.MAX_RESULTS)%nat) st ->
      V2.loadArticles prev st net t0 t1 filter force = Ret r ->
      entries_all (fun l => (length l <= V2.MAX_RESULTS)%nat) (Ui.disk r)
      /\ (length (listed r) <= V2.MAX_RESULTS)%nat)
  /\ (forall prev st net t0 t1 filter force r,
      entries_all (fun l => (length l <= 80)%nat) st ->
      V3.load false prev st net t0 t1 filter force = Some (Ret r) ->
      entries_all (fun l => (length l <= 80)%nat) (Ui.disk r)
      /\ (length (listed r) <= 80)%nat)
  /\ (forall prev st net t0 t1 filter force r,
      entries_all (fun l => (length l <= 80)%nat) st ->
      V4.load prev st net t0 t1 filter force = Ret r ->
      entries_all (fun l => (length l <= 80)%nat) (Ui.disk r)
      /\ (Ui.errorBanner (Ui.shown r) <> Some Ui.LimitedResults ->
          (length (listed r) <= 80)%nat)
      /\ (Ui.errorBanner (Ui.shown r) = Some Ui.LimitedResults ->
          Ui.disk r = st
          /\ exists tr, (V4.fetchDevTo net ["artificial-intelligence"] tr).2
                        = Ret (listed r))).
Proof.
  split_and!.
  - reflexivity.
  - intros net filter tr tr' out (n & days & hits & _ & ->)%fetchArticles_spec.
    apply cut_length.
  - intros net filter tr tr' out (s & _ & ->)%fetchAll_spec. apply cut_length.
  - intros devto hn. apply cut_length.
  - intros filter devto hn. apply aggregate_length.
  - intros hits. apply cut_length_exact.
  - intros net filter tr tr' out (s & Hs & ->)%fetchAll_spec.
    exists s. split; [done|]. apply cut_length_exact.
  - intros devto hn. apply cut_length_exact.
  - intros prev st net t0 t1 filter force r Hst Hrun.
    apply (v2_load_keeps (fun l => (length l <= V2.MAX_RESULTS)%nat)) in Hrun;
      [done|simpl; lia| |done].
    intros tr out (n & days & hits & _ & ->)%fetchArticles_spec. apply cut_length.
  - intros prev st net t0 t1 filter force r Hst Hrun.
    apply (v3_load_keeps (fun l => (length l <= 80)%nat)) in Hrun;
      [done|simpl; lia| |done].
    intros tr out (s & _ & ->)%fetchAll_spec. apply cut_length.
  - intros prev st net t0 t1 filter force r Hst Hrun.
    apply (v4_load_keeps (fun l => (length l <= 80)%nat)) in Hrun;
      [done|simpl; lia| |done].
    intros d h. apply aggregate_length.
Qed.

(** C8, as stated, fails: dev.to answers every tag with the same 81 stories,
    none of which mentions funding; the funding filter falls back to the
    broadened list and shows all 81. *)
Lemma C8_fallback_list_is_not_cut :
  exists r,
    V4.load [] Sample.blank Sample.crowded_wire 0 1 "funding" false = Ret r
    /\ Ui.errorBanner (Ui.shown r) = Some Ui.LimitedResults
    /\ length (listed r) = 81%nat
    /\ Ui.articleCount (Ui.shown r) = 81%nat
    /\ ~ (length (listed r) <= 80)%nat.
Proof.
  eexists. split; [vm_compute; reflexivity|].
  split_and!; [reflexivity..|]. unfold listed. simpl. lia.
Qed.

(** ** Deduplication *)

Lemma v4_dedupe_first xs k :
  first_with V4.key k (V4.dedupe xs) = first_with V4.key k xs.
Proof. unfold V4.dedupe. by rewrite results_first, find_keep_all. Qed.

Lemma v4_merge_first devto hn a :
  a ∈ V4.merge devto hn -> first_with V4.key (V4.key a) (devto ++ hn) = Some a.
Proof. intros Hin%ranked_first. by rewrite find_keep_all in Hin. Qed.

Lemma v2_rank_first hits a :
  a ∈ V2.rank hits -> first_with Hn.objectID (Hn.objectID a) hits = Some a.
Proof. intros Hin%ranked_first. by rewrite find_keep_all in Hin. Qed.

(** The articles of a [fetchAll] result come out of the seen-set loop run
    over the bodies of the answers, in the order of the requests. *)
Lemma fetchAll_ranked net filter reqs out :
  V3.fetchAll net filter [] = (reqs, Ret out) ->
  out = slice0 80 (sort Hn.by_points
          (absorb_all Hn.objectID (fun h => truthy (Hn.title h)) (∅, [])
                      (fulfilled (answers net 0 reqs))).2).
Proof.
  intros (s & Hs & ->)%fetchAll_spec. by apply collect_spec in Hs as ->.
Qed.

Section KeepFacts.
Context {A : Type} `{Countable K} (key : A -> K) (keep : A -> bool).
Context (cmp : A -> A -> Z).

(** The first kept article that carries the key of a kept input article is
    in [results], alone with that key; the output holds no other article with
    that key, and holds this one when nothing is cut. *)
Lemma first_kept cap xs a :
  a ∈ xs -> keep a = true ->
  let results := (absorb_all key keep (∅, []) xs).2 in
  let ranked := slice0 cap (sort cmp results) in
  exists b,
    List.find (fun x => has key (key a) x && keep x) xs = Some b
    /\ b ∈ results
    /\ (forall c, c ∈ results -> key c = key a -> c = b)
    /\ (forall c, c ∈ ranked -> key c = key a -> c = b)
    /\ ((length results <= cap)%nat -> b ∈ ranked).
Proof.
  intros Hin Hkeep results ranked.
  pose proof (results_first key keep xs (key a)) as Hfirst. fold results in Hfirst.
  pose proof (results_nodup key keep xs) as Hnd. fold results in Hnd.
  destruct (List.find _ xs) as [b|] eqn:Hfind.
  2:{ apply list_elem_of_In in Hin. apply (List.find_none _ _ Hfind) in Hin.
      unfold has in Hin. rewrite Hkeep, bool_decide_true in Hin; done. }
  apply first_with_Some in Hfirst as [Hb Hkb].
  assert (Huniq : forall c, c ∈ results -> key c = key a -> c = b).
  { intros c Hc Hkc.
    apply (nodup_keys_eq key results); [exact Hnd|done..|congruence]. }
  exists b. split_and!; [done..| |].
  - intros c Hc. apply Huniq. unfold ranked, slice0 in Hc.
    apply (subseteq_take cap) in Hc. by rewrite (sort_perm cmp) in Hc.
  - intros Hlen. unfold ranked, slice0.
    rewrite take_ge by (by rewrite sort_length). by rewrite (sort_perm cmp).
Qed.
End KeepFacts.

(** C9, as the code has it -- the identity-preference rule.  The seen-set
    loop keeps, for every key, the first article in fetch order that carries
    it: in [merge] the order is [[...devto, ...hn]], so a dev.to article wins
    over a Hacker News one; in [fetchAll] it is the order of the settled
    batches, first round before second; in [fetchArticles] the order of the
    hits.  For every input article the first occurrence of its key is in the
    deduplicated list, alone with that key; the output holds no other article
    with that key, and holds this one, with all its fields, whenever the
    deduplicated list fits the cap.  Every article of the output is the
    first occurrence of its key, and no two share a key. *)
Theorem C9_first_occurrence_wins :
  (forall devto hn,
      (forall k, first_with V4.key k (V4.dedupe (devto ++ hn))
                 = first_with V4.key k (devto ++ hn))
      /\ V4.merge devto hn = slice0 80 (sort V4.by_points (V4.dedupe (devto ++ hn)))
      /\ NoDup (map V4.key (V4.merge devto hn))
      /\ (forall a, a ∈ V4.merge devto hn ->
            first_with V4.key (V4.key a) (devto ++ hn) = Some a
            /\ (first_with V4.key (V4.key a) devto <> None ->
                first_with V4.key (V4.key a) devto = Some a))
      /\ (forall a, a ∈ devto ++ hn ->
            exists b,
              first_with V4.key (V4.key a) (devto ++ hn) = Some b
              /\ b ∈ V4.dedupe (devto ++ hn)
              /\ (forall c, c ∈ V4.dedupe (devto ++ hn) -> V4.key c = V4.key a -> c = b)
              /\ (forall c, c ∈ V4.merge devto hn -> V4.key c = V4.key a -> c = b)
              /\ ((length (V4.dedupe (devto ++ hn)) <= 80)%nat ->
                  b ∈ V4.merge devto hn)))
  /\ (forall net filter reqs out,
      V3.fetchAll net filter [] = (reqs, Ret out) ->
      let titled := fun h => truthy (Hn.title h) in
      let hits := fulfilled (answers net 0 reqs) in
      NoDup (map Hn.objectID out)
      /\ (forall a, a ∈ out ->
            List.find (fun h => has Hn.objectID (Hn.objectID a) h && titled h) hits
            = Some a)
      /\ (forall a, a ∈ hits -> titled a = true ->
            exists b s,
              List.find (fun h => has Hn.objectID (Hn.objectID a) h && titled h) hits
              = Some b
              /\ V3.collect net filter [] = (reqs, Ret s)
              /\ b ∈ s.2
              /\ (forall c, c ∈ s.2 -> Hn.objectID c = Hn.objectID a -> c = b)
              /\ (forall c, c ∈ out -> Hn.objectID c = Hn.objectID a -> c = b)
              /\ ((length s.2 <= 80)%nat -> b ∈ out)))
  /\ (forall hits,
      (forall k, first_with Hn.objectID k (V2.unique hits)
                 = first_with Hn.objectID k hits)
      /\ NoDup (map Hn.objectID (V2.rank hits))
      /\ (forall a, a ∈ V2.rank hits ->
            first_with Hn.objectID (Hn.objectID a) hits = Some a)
      /\ (forall a, a ∈ hits ->
            exists b,
              first_with Hn.objectID (Hn.objectID a) hits = Some b
              /\ b ∈ V2.unique hits
              /\ (forall c, c ∈ V2.unique hits -> Hn.objectID c = Hn.objectID a -> c = b)
              /\ (forall c, c ∈ V2.rank hits -> Hn.objectID c = Hn.objectID a -> c = b)
              /\ ((length (V2.unique hits) <= V2.MAX_RESULTS)%nat ->
                  b ∈ V2.rank hits))).
Proof.
  split_and!.
  - intros devto hn. split_and!.
    + intros k. apply v4_dedupe_first.
    + reflexivity.
    + apply ranked_nodup.
    + intros a Hin. apply v4_merge_first in Hin as Hfirst. split; [done|].
      rewrite first_with_app in Hfirst.
      by destruct (first_with V4.key (V4.key a) devto).
    + intros a Hin.
      destruct (first_kept V4.key (fun _ => true) V4.by_points 80 (devto ++ hn) a Hin eq_refl)
        as (b & Hfind & Hrest).
      exists b. rewrite find_keep_all in Hfind. by split.
  - intros net filter reqs out Hfetch titled hits.
    pose proof (fetchAll_ranked _ _ _ _ Hfetch) as Hout.
    apply fetchAll_spec in Hfetch as (s & Hs & _).
    pose proof (collect_spec _ _ _ _ Hs) as Hs'.
    split_and!.
    + rewrite Hout. apply ranked_nodup.
    + intros a Hin. rewrite Hout in Hin. by apply ranked_first in Hin.
    + intros a Hin Ht.
      destruct (first_kept Hn.objectID titled Hn.by_points 80 hits a Hin Ht)
        as (b & Hfind & Hb & Hu & Hu' & Hcut).
      exists b, s. subst s out. by split_and!.
  - intros hits. split_and!.
    + intros k. unfold V2.unique. by rewrite results_first, find_keep_all.
    + apply ranked_nodup.
    + intros a. apply v2_rank_first.
    + intros a Hin.
      destruct (first_kept Hn.objectID (fun _ => true) Hn.by_points V2.MAX_RESULTS
                           hits a Hin eq_refl) as (b & Hfind & Hrest).
      exists b. rewrite find_keep_all in Hfind. by split.
Qed.

(** C9, as stated, fails: the two reports of [Sample] collide on their key
    and the dev.to one comes first, yet the output of [merge] keeps neither,
    because eighty-one better-scored articles fill the cap of 80. *)
Lemma C9_cut_drops_the_first_occurrence :
  let devto := Sample.crowd ++ [Sample.report_devto] in
  let hn := [Sample.report_hn] in
  V4.key Sample.report_devto = V4.key Sample.report_hn
  /\ first_with V4.key (V4.key Sample.report_hn) (devto ++ hn) = Some Sample.report_devto
  /\ first_with V4.key (V4.key Sample.report_hn) (V4.merge devto hn) = None
  /\ ~ Sample.report_devto ∈ V4.merge devto hn.
Proof.
  assert (Hnone : first_with V4.key (V4.key Sample.report_hn)
                    (V4.merge (Sample.crowd ++ [Sample.report_devto]) [Sample.report_hn])
                  = None) by (vm_compute; reflexivity).
  split_and!; [vm_compute; reflexivity..|exact Hnone|].
  intros Hin. rewrite first_with_None in Hnone. by apply (Hnone _ Hin).
Qed.

(** C2, as the code has it -- an article of the input has its key carried
    exactly once by the deduplicated list and at most once by the output;
    the output carries it exactly once whenever the deduplicated list fits
    the cap (80, or [MAX_RESULTS = 60]), the cut being the only way to lose
    it.  In [fetchAll] this is about hits that have a title, the others
    being dropped by the same loop. *)
Theorem C2_one_per_key_up_to_the_cut :
  (forall devto hn a, a ∈ devto ++ hn ->
      count_key V4.key (V4.key a) (V4.dedupe (devto ++ hn)) = 1%nat
      /\ (count_key V4.key (V4.key a) (V4.merge devto hn) <= 1)%nat
      /\ ((length (V4.dedupe (devto ++ hn)) <= 80)%nat ->
          count_key V4.key (V4.key a) (V4.merge devto hn) = 1%nat))
  /\ (forall hits a, a ∈ hits ->
      count_key Hn.objectID (Hn.objectID a) (V2.unique hits) = 1%nat
      /\ (count_key Hn.objectID (Hn.objectID a) (V2.rank hits) <= 1)%nat
      /\ ((length (V2.unique hits) <= V2.MAX_RESULTS)%nat ->
          count_key Hn.objectID (Hn.objectID a) (V2.rank hits) = 1%nat))
  /\ (forall net filter reqs out a,
      V3.fetchAll net filter [] = (reqs, Ret out) ->
      a ∈ fulfilled (answers net 0 reqs) -> truthy (Hn.title a) = true ->
      exists s, V3.collect net filter [] = (reqs, Ret s)
        /\ count_key Hn.objectID (Hn.objectID a) s.2 = 1%nat
        /\ (count_key Hn.objectID (Hn.objectID a) out <= 1)%nat
        /\ ((length s.2 <= 80)%nat ->
            count_key Hn.objectID (Hn.objectID a) out = 1%nat)).
Proof.
  split_and!.
  - intros devto hn a Hin. split_and!.
    + by apply results_count.
    + apply ranked_count_le.
    + intros Hlen. by apply ranked_count_uncut.
  - intros hits a Hin. split_and!.
    + by apply results_count.
    + apply ranked_count_le.
    + intros Hlen. by apply ranked_count_uncut.
  - intros net filter reqs out a Hfetch Hin Htitle.
    pose proof (fetchAll_ranked _ _ _ _ Hfetch) as ->.
    apply fetchAll_spec in Hfetch as (s & Hs & _). exists s.
    split; [done|]. apply collect_spec in Hs as ->. split_and!.
    + by apply (results_count Hn.objectID (fun h => truthy (Hn.title h))).
    + apply ranked_count_le.
    + intros Hlen.
      by apply (ranked_count_uncut Hn.objectID (fun h => truthy (Hn.title h))).
Qed.

(** C2, as stated, fails: the two reports of [Sample] share their key, yet
    the output of [merge] holds neither, because eighty-one better-scored
    articles fill the cap of 80. *)
Lemma C2_cut_drops_both_reports :
  let devto := Sample.crowd ++ [Sample.report_devto] in
  let hn := [Sample.report_hn] in
  V4.key Sample.report_devto = V4.key Sample.report_hn
  /\ length (V4.merge devto hn) = 80%nat
  /\ count_key V4.key (V4.key Sample.report_devto) (V4.merge devto hn) = 0%nat
  /\ ~ (count_key V4.key (V4.key Sample.report_devto) (V4.merge devto hn) = 1%nat).
Proof. vm_compute. split_and!; [reflexivity..|discriminate]. Qed.

(** ** The sparse fallback *)

Lemma round_extends net days qs s tr tr' s' :
  V3.round net days qs s tr = (tr', Ret s') -> s.2 `prefix_of` s'.2.
Proof.
  rewrite round_spec. simpl.
  destruct (iterable _); [|done]. intros [= _ <-].
  destruct (absorb_all_extends Hn.objectID (fun h => truthy (Hn.title h))
              (fulfilled (answers net (length tr)
                 (map (fun q => Hn.Search q days) qs))) s) as (added & -> & _).
  by exists added.
Qed.

Lemma round_requests net days qs s tr :
  (V3.round net days qs s tr).1 = tr ++ map (fun q => Hn.Search q days) qs.
Proof. by rewrite round_spec. Qed.

(** What a round adds to the results it starts from. *)
Lemma round_adds s xs :
  tracks Hn.objectID s -> NoDup (map Hn.objectID s.2) ->
  let titled := fun h => truthy (Hn.title h) in
  exists added,
    (absorb_all Hn.objectID titled s xs).2 = s.2 ++ added
    /\ added `sublist_of` List.filter titled xs
    /\ NoDup (map Hn.objectID (s.2 ++ added))
    /\ (forall h, h ∈ xs -> titled h = true ->
          first_with Hn.objectID (Hn.objectID h) s.2 = None ->
          exists b, b ∈ added
                    /\ List.find (fun x => has Hn.objectID (Hn.objectID h) x && titled x) xs
                       = Some b).
Proof.
  intros Ht Hnd titled.
  destruct (absorb_all_extends Hn.objectID titled xs s) as (added & Heq & Hsub).
  exists added. split_and!; [done..| |].
  - rewrite <- Heq. by apply absorb_all_nodup.
  - intros h Hin Htitled Hnone.
    pose proof (absorb_all_first Hn.objectID titled xs s (Hn.objectID h) Ht) as Hfirst.
    rewrite Hnone, Heq in Hfirst.
    destruct (List.find _ xs) as [b|] eqn:Hfind.
    + exists b. split; [|done].
      apply first_with_Some in Hfirst as [Hb Hk].
      apply elem_of_app in Hb as [Hb|Hb]; [|done].
      rewrite first_with_None in Hnone. by apply Hnone in Hb.
    + apply list_elem_of_In in Hin. apply (List.find_none _ _ Hfind) in Hin.
      unfold has in Hin. rewrite Htitled, bool_decide_true in Hin; done.
Qed.

(** C6 -- the sparse fallback.  [fetchArticles] asks for the one-day window
    first; when that answer has fewer than 5 hits it asks once more, for the
    three-day window, and the second answer replaces the first; with 5 hits or
    more nothing else is asked.  [fetchAll] asks every query of the filter for
    the one-day window; when fewer than 6 results were collected it asks every
    query once more for the three-day window and extends the results of the
    first round: they stay in front, and behind them come, in order, the
    titled hits of the widened answers whose id is new, the first hit of
    every new id; the sorted cut of that list is returned (the call throws
    when a widened answer is not a list).  With 6 results or more nothing
    else is asked. *)
Theorem C6_sparse_fallback :
  (forall net filter tr l,
      let q := V2.topic filter in
      net (length tr) (Hn.Search q 1) = Body l ->
      ((length l < 5)%nat ->
       V2.fetchArticles net filter tr =
       (tr ++ [Hn.Search q 1; Hn.Search q 3],
        match net (S (length tr)) (Hn.Search q 3) with
        | Body l3 => Ret (V2.rank l3)
        | _ => Throw
        end))
      /\ ((5 <= length l)%nat ->
          V2.fetchArticles net filter tr = (tr ++ [Hn.Search q 1], Ret (V2.rank l))))
  /\ (forall net filter s1,
      let qs := V3.queries_of filter in
      let day1 := map (fun q => Hn.Search q 1) qs in
      let day3 := map (fun q => Hn.Search q 3) qs in
      let titled := fun h => truthy (Hn.title h) in
      let widened := answers net (length day1) day3 in
      let s3 := absorb_all Hn.objectID titled s1 (fulfilled widened) in
      V3.round net 1 qs (∅, []) [] = (day1, Ret s1) ->
      s1 = absorb_all Hn.objectID titled (∅, []) (fulfilled (answers net 0 day1))
      /\ ((length s1.2 < 6)%nat ->
          V3.fetchAll net filter [] =
          (day1 ++ day3,
           if iterable widened then Ret (slice0 80 (sort Hn.by_points s3.2)) else Throw)
          /\ V3.round net 3 qs s1 day1 =
             (day1 ++ day3, if iterable widened then Ret s3 else Throw)
          /\ exists added,
               s3.2 = s1.2 ++ added
               /\ added `sublist_of` List.filter titled (fulfilled widened)
               /\ NoDup (map Hn.objectID (s1.2 ++ added))
               /\ forall h, h ∈ fulfilled widened -> titled h = true ->
                    first_with Hn.objectID (Hn.objectID h) s1.2 = None ->
                    exists b, b ∈ added
                      /\ List.find (fun x => has Hn.objectID (Hn.objectID h) x && titled x)
                                   (fulfilled widened) = Some b)
      /\ ((6 <= length s1.2)%nat ->
          V3.fetchAll net filter [] = (day1, Ret (slice0 80 (sort Hn.by_points s1.2))))).
Proof.
  split.
  - intros net filter tr l q Hl. unfold V2.fetchArticles, bind, V2.fetchHN.
    fold q. rewrite Hl. simpl. split; intros Hlen.
    + apply Nat.ltb_lt in Hlen. rewrite Hlen.
      rewrite length_app, Nat.add_comm. simpl. rewrite <- app_assoc. simpl.
      by destruct (net (S (length tr)) (Hn.Search q 3)).
    + apply Nat.ltb_ge in Hlen. by rewrite Hlen.
  - intros net filter s1 qs day1 day3 titled widened s3 Hround.
    assert (Hs1 : s1 = absorb_all Hn.objectID titled (∅, [])
                         (fulfilled (answers net 0 day1))).
    { rewrite round_spec in Hround. cbv zeta in Hround. fold day1 in Hround.
      simpl in Hround. destruct (iterable _); [|done]. by injection Hround as <-. }
    assert (Hr3 : V3.round net 3 qs s1 day1 =
                  (day1 ++ day3, if iterable widened then Ret s3 else Throw)).
    { by rewrite round_spec. }
    split_and!; [done| |].
    + intros Hlen. apply Nat.ltb_lt in Hlen. split_and!; [|done|].
      * unfold V3.fetchAll, V3.collect, bind. fold qs. rewrite Hround.
        unfold V3.sparse. rewrite Hlen, Hr3. by destruct (iterable widened).
      * apply round_adds.
        -- rewrite Hs1. apply absorb_all_tracks, tracks_empty.
        -- rewrite Hs1. apply absorb_all_nodup; [apply tracks_empty|constructor].
    + intros Hlen. apply Nat.ltb_ge in Hlen.
      unfold V3.fetchAll, V3.collect, bind. fold qs. rewrite Hround.
      unfold V3.sparse. by rewrite Hlen.
Qed.

(** ** Runs of [load] *)

Lemma queries_of_nonempty filter : V3.queries_of filter <> [].
Proof.
  unfold V3.queries_of.
  destruct (V3.FILTER_QUERIES !! filter) as [qs|] eqn:Hq; simpl; [|done].
  apply elem_of_list_to_map_2 in Hq.
  repeat (apply elem_of_cons in Hq as [[= _ ->]|Hq]; [done|]).
  by apply elem_of_nil in Hq.
Qed.

Lemma fetchAll_requests net filter : (V3.fetchAll net filter []).1 <> [].
Proof.
  unfold V3.fetchAll, V3.collect, bind.
  pose proof (round_requests net 1 (V3.queries_of filter) (∅, []) []) as H1.
  destruct (V3.round net 1 _ _ _) as [tr1 [s1|]]; simpl in *.
  - assert (tr1 <> []) as Hne.
    { subst tr1. pose proof (queries_of_nonempty filter).
      by destruct (V3.queries_of filter). }
    destruct (V3.sparse s1.2); [|done].
    pose proof (round_requests net 3 (V3.queries_of filter) s1 tr1) as H3.
    destruct (V3.round net 3 _ _ _) as [tr3 [s3|]]; simpl in *; subst tr3;
      by destruct tr1.
  - subst tr1. pose proof (queries_of_nonempty filter).
    by destruct (V3.queries_of filter).
Qed.

Lemma settle_fetchTag net tags tr :
  (settle_all (V4.fetchTag net) tags tr).1 = tr ++ map V4.DevToTag tags.
Proof.
  revert tr. induction tags as [|t tags IH]; intros tr; simpl.
  - by rewrite app_nil_r.
  - specialize (IH (tr ++ [V4.DevToTag t])).
    destruct (settle_all (V4.fetchTag net) tags (tr ++ [V4.DevToTag t])) as [tr2 bs].
    simpl in *. by rewrite IH, <- app_assoc.
Qed.

Lemma fetchDevTo_requests net tags tr :
  (V4.fetchDevTo net tags tr).1 = tr ++ map V4.DevToTag tags.
Proof.
  unfold V4.fetchDevTo. pose proof (settle_fetchTag net tags tr) as Hs.
  by destruct (settle_all (V4.fetchTag net) tags tr) as [tr2 bs].
Qed.

Lemma fetchHN_requests net q tr :
  (V4.fetchHN net q tr).1 = tr ++ [V4.HnSearch q].
Proof. done. Qed.

Lemma both_requests net filter :
  (both (V4.fetchDevTo net (V4.devto (V4.config_of filter)))
        (V4.fetchHN net (V4.hn (V4.config_of filter))) []).1
  = map V4.DevToTag (V4.devto (V4.config_of filter))
    ++ [V4.HnSearch (V4.hn (V4.config_of filter))].
Proof.
  unfold both.
  pose proof (fetchDevTo_requests net (V4.devto (V4.config_of filter)) []) as Hd.
  destruct (V4.fetchDevTo net _ []) as [tr1 a]. simpl in Hd. subst tr1.
  by destruct a.
Qed.

Lemma finish_all {A} filter (l : list A) fromCache banner :
  Ui.allArticles (Ui.finish filter l fromCache banner) = l.
Proof. by destruct l. Qed.

Lemma finish_banner {A} filter (l : list A) fromCache banner :
  Ui.errorBanner (Ui.finish filter l fromCache banner) = banner.
Proof. by destruct l. Qed.

Lemma consult_fresh {A} (st : Cache.storage A) t0 filter m e :
  Cache.item st = Cache.Json m -> m !! filter = Some e ->
  t0 - Cache.ts e <= Cache.CACHE_TTL ->
  Cache.consult st t0 filter false = Ret (Some (Cache.articles e)).
Proof.
  intros Hm He Hage. unfold Cache.consult. apply loadCache_Some. eauto 10.
Qed.

Lemma saveCache_no_empty {A} (st : Cache.storage A) T lbl filter arts :
  no_empty_entry st -> arts <> [] ->
  no_empty_entry (Cache.saveCache st T lbl filter arts).
Proof.
  intros Hst Harts m f e Hm He.
  destruct (saveCache_entries st T lbl filter arts m f e Hm He)
    as [-> | (m0 & Hm0 & He0)]; [done|].
  by eapply Hst.
Qed.

Lemma snoc_nonempty {R} (tr : list R) (q : R) : tr ++ [q] <> [].
Proof. by destruct tr. Qed.

Lemma v3_load_facts prev st net t0 t1 filter force r :
  V3.load false prev st net t0 t1 filter force = Some (Ret r) ->
  (Ui.disk r = st
   \/ exists a l, Ui.disk r = Cache.saveCache st t1 None filter (a :: l))
  /\ (served_from_cache r -> Ui.allArticles (Ui.shown r) <> [])
  /\ (Cache.consult st t0 filter force = Ret (Some []) -> Ui.requests r <> []).
Proof.
  unfold V3.load, served_from_cache. intros Hrun.
  pose proof (fetchAll_requests net filter) as Hreq.
  destruct (Cache.consult st t0 filter force) as [[[|a c]|]|];
    cbv beta iota in Hrun; [| | |discriminate].
  2:{ injection Hrun as <-. simpl. split_and!; [by left|done|done]. }
  all: destruct (V3.fetchAll net filter []) as [tr [all|]];
    cbv beta iota in Hrun; simpl in Hreq.
  1,3: injection Hrun as <-; simpl; split_and!;
    [destruct all; [by left|right; eauto]
    |rewrite finish_banner; by intros [?|?]
    |done].
  all: destruct (Cache.loadCache st t1 filter) as [[[|b fb]|]|];
    cbv beta iota in Hrun; [| | |discriminate].
  all: injection Hrun as <-; simpl; split_and!; [by left| |done].
  all: by intros [?|?].
Qed.

Lemma recover_facts held st t1 filter tr r :
  tr <> [] -> V4.recover held st t1 filter tr = Ret r ->
  Ui.disk r = st /\ Ui.requests r = tr
  /\ (served_from_cache r -> Ui.allArticles (Ui.shown r) <> []).
Proof.
  unfold V4.recover, served_from_cache. intros Htr Hrun.
  destruct (Cache.loadCache st t1 filter) as [[[|b fb]|]|];
    cbv beta iota in Hrun; [| | |discriminate].
  all: injection Hrun as <-; simpl; split_and!; [done..|].
  all: by intros [?|?].
Qed.

Lemma v4_load_facts prev st net t0 t1 filter force r :
  V4.load prev st net t0 t1 filter force = Ret r ->
  (Ui.disk r = st
   \/ exists a l, Ui.disk r = Cache.saveCache st t1 None filter (a :: l))
  /\ (served_from_cache r -> Ui.allArticles (Ui.shown r) <> [])
  /\ (Cache.consult st t0 filter force = Ret (Some []) -> Ui.requests r <> []).
Proof.
  unfold V4.load. intros Hrun.
  pose proof (both_requests net filter) as Hreq.
  destruct (Cache.consult st t0 filter force) as [[[|a c]|]|];
    cbv beta iota zeta in Hrun; [| | |discriminate].
  2:{ injection Hrun as <-. simpl. split_and!; [by left|done|done]. }
  all: destruct (both _ _ []) as [tr [[d h]|]];
    cbv beta iota in Hrun; simpl in Hreq;
    assert (Htr : tr <> []) by (subst tr; apply snoc_nonempty); clear Hreq.
  2,4: apply recover_facts in Hrun as (Hd & Hr & Hserved); [|done];
    rewrite Hd, Hr; split_and!; [by left|done|done].
  all: destruct (V4.aggregate filter d h) as [|x all]; cbv beta iota in Hrun.
  2,4: injection Hrun as <-; simpl; split_and!;
    [right; eauto|by intros [?|?]|done].
  all: pose proof (fetchDevTo_requests net ["artificial-intelligence"] tr) as Hfb;
    destruct (V4.fetchDevTo net ["artificial-intelligence"] tr) as [tr' [[|y fb]|]];
    cbv beta iota in Hrun; simpl in Hfb;
    assert (Htr' : tr' <> []) by (subst tr'; apply snoc_nonempty); clear Hfb.
  3,6: apply recover_facts in Hrun as (Hd & Hr & Hserved); [|done];
    rewrite Hd, Hr; split_and!; [by left|done|done].
  all: injection Hrun as <-; simpl; split_and!; [by left| |done].
  all: by intros [?|?].
Qed.

(** C3, as stated, fails: the store of [Sample.hollow_store] holds a fresh
    entry for ["llm"], written ten minutes before, and the run is not forced;
    yet [V3.load] goes to the network, with ten requests. *)
Lemma C3_fresh_empty_entry_is_refetched :
  Cache.loadCache Sample.hollow_store Sample.ten_minutes "llm" = Ret (Some [])
  /\ exists r,
       V3.load false [] Sample.hollow_store Sample.offline
               Sample.ten_minutes (Sample.ten_minutes + 1) "llm" false
       = Some (Ret r)
       /\ length (Ui.requests r) = 10%nat
       /\ Ui.requests r <> [].
Proof.
  split; [by vm_compute|].
  eexists. split; [by vm_compute|]. split; [by vm_compute|]. by vm_compute.
Qed.

(** C3, as the code has it -- when the run is not forced and the store holds
    an entry for the filter that is within the TTL and, in the variants that
    test [cached.length > 0], not empty, the run issues no request, leaves the
    storage as it is and shows the cached list itself.  The single-query
    variant serves any fresh entry, the empty list included.  In the other two
    a storage without empty entries stays without them, run after run, so
    there every entry written by the runs themselves is served while fresh. *)
Theorem C3_fresh_entry_is_served :
  (forall prev st net t0 t1 filter m e,
      Cache.item st = Cache.Json m -> m !! filter = Some e ->
      t0 - Cache.ts e <= Cache.CACHE_TTL ->
      exists r, V2.loadArticles prev st net t0 t1 filter false = Ret r
                /\ Ui.requests r = [] /\ Ui.disk r = st
                /\ Ui.allArticles (Ui.shown r) = Cache.articles e)
  /\ (forall prev st net t0 t1 filter m e,
      Cache.item st = Cache.Json m -> m !! filter = Some e ->
      t0 - Cache.ts e <= Cache.CACHE_TTL -> Cache.articles e <> [] ->
      exists r, V3.load false prev st net t0 t1 filter false = Some (Ret r)
                /\ Ui.requests r = [] /\ Ui.disk r = st
                /\ Ui.allArticles (Ui.shown r) = Cache.articles e
                /\ Ui.lastUpdated (Ui.shown r) = Ui.FromCache)
  /\ (forall prev st net t0 t1 filter m e,
      Cache.item st = Cache.Json m -> m !! filter = Some e ->
      t0 - Cache.ts e <= Cache.CACHE_TTL -> Cache.articles e <> [] ->
      exists r, V4.load prev st net t0 t1 filter false = Ret r
                /\ Ui.requests r = [] /\ Ui.disk r = st
                /\ Ui.allArticles (Ui.shown r) = Cache.articles e
                /\ Ui.lastUpdated (Ui.shown r) = Ui.FromCache)
  /\ (forall (st : Cache.storage Hn.Hit) filter m e,
      no_empty_entry st ->
      Cache.item st = Cache.Json m -> m !! filter = Some e -> Cache.articles e <> [])
  /\ (forall prev st net t0 t1 filter force r,
      V3.load false prev st net t0 t1 filter force = Some (Ret r) ->
      no_empty_entry st -> no_empty_entry (Ui.disk r))
  /\ (forall prev st net t0 t1 filter force r,
      V4.load prev st net t0 t1 filter force = Ret r ->
      no_empty_entry st -> no_empty_entry (Ui.disk r)).
Proof.
  split_and!;
    [..
    |intros st filter m e Hst Hm He; by eapply Hst
    |intros prev st net t0 t1 filter force r Hrun Hst;
     destruct (v3_load_facts _ _ _ _ _ _ _ _ Hrun) as ([-> | (a & l & ->)] & _);
     [done|by apply saveCache_no_empty]
    |intros prev st net t0 t1 filter force r Hrun Hst;
     destruct (v4_load_facts _ _ _ _ _ _ _ _ Hrun) as ([-> | (a & l & ->)] & _);
     [done|by apply saveCache_no_empty]].
  - intros prev st net t0 t1 filter m e Hm He Hage.
    unfold V2.loadArticles. rewrite (consult_fresh st t0 filter m e) by done.
    eexists. split; [done|]. simpl. by rewrite finish_all.
  - intros prev st net t0 t1 filter m e Hm He Hage Hne.
    unfold V3.load. rewrite (consult_fresh st t0 filter m e) by done.
    destruct (Cache.articles e) as [|a l]; [done|].
    eexists. split; [done|]. by simpl.
  - intros prev st net t0 t1 filter m e Hm He Hage Hne.
    unfold V4.load. rewrite (consult_fresh st t0 filter m e) by done.
    destruct (Cache.articles e) as [|a l]; [done|].
    eexists. split; [done|]. by simpl.
Qed.

(** C10 -- the empty-list invariant of the cache, in the variants that test
    [length > 0] ([V3.load], [V4.load]).  A run leaves the storage as it was
    or has called [saveCache] with a non-empty list, so a storage without
    empty entries stays so; a run that read an empty list from the cache
    behaves as the forced run, which skips the cache, and goes to the network;
    and whenever a run serves a list from the cache, at once or after a
    failed fetch, that list is not empty. *)
Theorem C10_no_empty_list_cached :
  (forall prev st net t0 t1 filter force r,
      V3.load false prev st net t0 t1 filter force = Some (Ret r) ->
      (Ui.disk r = st
       \/ exists a l, Ui.disk r = Cache.saveCache st t1 None filter (a :: l))
      /\ (no_empty_entry st -> no_empty_entry (Ui.disk r))
      /\ (served_from_cache r -> Ui.allArticles (Ui.shown r) <> [])
      /\ (Cache.consult st t0 filter force = Ret (Some []) ->
          Ui.requests r <> []
          /\ V3.load false prev st net t0 t1 filter force
             = V3.load false prev st net t0 t1 filter true))
  /\ (forall prev st net t0 t1 filter force r,
      V4.load prev st net t0 t1 filter force = Ret r ->
      (Ui.disk r = st
       \/ exists a l, Ui.disk r = Cache.saveCache st t1 None filter (a :: l))
      /\ (no_empty_entry st -> no_empty_entry (Ui.disk r))
      /\ (served_from_cache r -> Ui.allArticles (Ui.shown r) <> [])
      /\ (Cache.consult st t0 filter force = Ret (Some []) ->
          Ui.requests r <> []
          /\ V4.load prev st net t0 t1 filter force
             = V4.load prev st net t0 t1 filter true)).
Proof.
  split.
  - intros prev st net t0 t1 filter force r Hrun.
    destruct (v3_load_facts _ _ _ _ _ _ _ _ Hrun) as (Hdisk & Hserved & Hmiss).
    split_and!; [done| |done|].
    + intros Hst. destruct Hdisk as [-> | (a & l & ->)]; [done|].
      by apply saveCache_no_empty.
    + intros Hc. split; [by apply Hmiss|].
      unfold V3.load. rewrite Hc. reflexivity.
  - intros prev st net t0 t1 filter force r Hrun.
    destruct (v4_load_facts _ _ _ _ _ _ _ _ Hrun) as (Hdisk & Hserved & Hmiss).
    split_and!; [done| |done|].
    + intros Hst. destruct Hdisk as [-> | (a & l & ->)]; [done|].
      by apply saveCache_no_empty.
    + intros Hc. split; [by apply Hmiss|].
      unfold V4.load. rewrite Hc. reflexivity.
Qed.

(** ** The fallback to the cache after a failed fetch *)

Lemma loadCache_fresh {A} (st : Cache.storage A) now filter m e :
  Cache.item st = Cache.Json m -> m !! filter = Some e ->
  now - Cache.ts e <= Cache.CACHE_TTL ->
  Cache.loadCache st now filter = Ret (Some (Cache.articles e)).
Proof. intros Hm He Hage. apply loadCache_Some. eauto 10. Qed.

(** C1, as stated, fails: the store of [Sample.kept_store] holds an entry
    for ["llm"] that is two hours old.  With every query failing, [V3.load]
    ends on the "no articles found" state without a notice; with a fetch that
    raises, [V3.load] and [V2.loadArticles] end on the failure state.  The
    cached article is shown in none of the runs. *)
Lemma C1_stale_entry_is_not_served :
  (exists m e, Cache.item Sample.kept_store = Cache.Json m
               /\ m !! "llm" = Some e
               /\ Cache.articles e = [Sample.old_story])
  /\ (exists r,
        V3.load false [] Sample.kept_store Sample.offline
                Sample.two_hours (Sample.two_hours + 1) "llm" false = Some (Ret r)
        /\ Ui.view (Ui.shown r) = Ui.Empty Ui.NoArticlesFound
        /\ Ui.errorBanner (Ui.shown r) = None
        /\ Ui.allArticles (Ui.shown r) = [])
  /\ (exists r,
        V3.load false [] Sample.kept_store Sample.garbled
                Sample.two_hours (Sample.two_hours + 1) "llm" false = Some (Ret r)
        /\ Ui.view (Ui.shown r) = Ui.Empty Ui.LoadFailed
        /\ Ui.allArticles (Ui.shown r) = [])
  /\ (exists r,
        V2.loadArticles [] Sample.kept_store Sample.offline
                Sample.two_hours (Sample.two_hours + 1) "llm" false = Ret r
        /\ Ui.view (Ui.shown r) = Ui.Empty Ui.LoadFailed
        /\ Ui.errorBanner (Ui.shown r) = Some Ui.CheckConnection
        /\ Ui.allArticles (Ui.shown r) = []).
Proof.
  split_and!.
  - eexists _, _. split; [reflexivity|]. split; by vm_compute.
  - eexists. split; [by vm_compute|]. by vm_compute.
  - eexists. split; [by vm_compute|]. by vm_compute.
  - eexists. split; [by vm_compute|]. by vm_compute.
Qed.

(** C1, as the code has it -- when the fetch of a run raises, the cache is
    read again with the same TTL test: an entry for the filter that is still
    within the TTL (and, in [V3.load] and [V4.load], not empty) is shown under
    the "showing cached articles" notice, with the storage untouched; an
    entry older than the TTL, like a missing or unreadable one, gives the
    failure state with ['0 articles']. *)
Theorem C1_fallback_serves_fresh_cache_only :
  (forall prev st net t0 t1 filter force tr,
      reaches_fetch false (Cache.consult st t0 filter force) ->
      V2.fetchArticles net filter [] = (tr, Throw) ->
      (forall m e, Cache.item st = Cache.Json m -> m !! filter = Some e ->
         t1 - Cache.ts e <= Cache.CACHE_TTL ->
         V2.loadArticles prev st net t0 t1 filter force
         = Ret (Ui.Run (Ui.finish filter (Cache.articles e) true (Some Ui.ShowingCached))
                       tr st))
      /\ (forall m e, Cache.item st = Cache.Json m -> m !! filter = Some e ->
         Cache.CACHE_TTL < t1 - Cache.ts e ->
         V2.loadArticles prev st net t0 t1 filter force
         = Ret (Ui.Run (Ui.gave_up filter prev Ui.LoadFailed (Some Ui.CheckConnection))
                       tr st))
      /\ ((Cache.item st = Cache.NoItem \/ Cache.item st = Cache.Garbage
           \/ exists m, Cache.item st = Cache.Json m /\ m !! filter = None) ->
         V2.loadArticles prev st net t0 t1 filter force
         = Ret (Ui.Run (Ui.gave_up filter prev Ui.LoadFailed (Some Ui.CheckConnection))
                       tr st)))
  /\ (forall prev st net t0 t1 filter force tr,
      reaches_fetch true (Cache.consult st t0 filter force) ->
      V3.fetchAll net filter [] = (tr, Throw) ->
      (forall m e a l, Cache.item st = Cache.Json m -> m !! filter = Some e ->
         t1 - Cache.ts e <= Cache.CACHE_TTL -> Cache.articles e = a :: l ->
         V3.load false prev st net t0 t1 filter force
         = Some (Ret (Ui.Run (Ui.finish filter (a :: l) true (Some Ui.ShowingCached))
                             tr st)))
      /\ (forall m e, Cache.item st = Cache.Json m -> m !! filter = Some e ->
         Cache.CACHE_TTL < t1 - Cache.ts e ->
         V3.load false prev st net t0 t1 filter force
         = Some (Ret (Ui.Run (Ui.gave_up filter prev Ui.LoadFailed None) tr st)))
      /\ ((Cache.item st = Cache.NoItem \/ Cache.item st = Cache.Garbage
           \/ exists m, Cache.item st = Cache.Json m /\ m !! filter = None) ->
         V3.load false prev st net t0 t1 filter force
         = Some (Ret (Ui.Run (Ui.gave_up filter prev Ui.LoadFailed None) tr st))))
  /\ (forall prev st net t0 t1 filter force tr,
      reaches_fetch true (Cache.consult st t0 filter force) ->
      both (V4.fetchDevTo net (V4.devto (V4.config_of filter)))
           (V4.fetchHN net (V4.hn (V4.config_of filter))) [] = (tr, Throw) ->
      (forall m e a l, Cache.item st = Cache.Json m -> m !! filter = Some e ->
         t1 - Cache.ts e <= Cache.CACHE_TTL -> Cache.articles e = a :: l ->
         V4.load prev st net t0 t1 filter force
         = Ret (Ui.Run (Ui.finish filter (a :: l) true (Some Ui.ShowingCached)) tr st))
      /\ (forall m e, Cache.item st = Cache.Json m -> m !! filter = Some e ->
         Cache.CACHE_TTL < t1 - Cache.ts e ->
         V4.load prev st net t0 t1 filter force
         = Ret (Ui.Run (Ui.gave_up filter prev Ui.LoadFailed None) tr st))
      /\ ((Cache.item st = Cache.NoItem \/ Cache.item st = Cache.Garbage
           \/ exists m, Cache.item st = Cache.Json m /\ m !! filter = None) ->
         V4.load prev st net t0 t1 filter force
         = Ret (Ui.Run (Ui.gave_up filter prev Ui.LoadFailed None) tr st))).
Proof.
  split_and!.
  - intros prev st net t0 t1 filter force tr [Hc|[? _]] Hfetch; [|done].
    unfold V2.loadArticles. rewrite Hc, Hfetch. cbv beta iota.
    split_and!.
    + intros m e Hm He Hage. by rewrite (loadCache_fresh st t1 filter m e).
    + intros m e Hm He Hage. by rewrite (loadCache_stale st t1 filter m e).
    + intros Habs. by rewrite loadCache_absent.
  - intros prev st net t0 t1 filter force tr Hreach Hfetch.
    assert (Hload : V3.load false prev st net t0 t1 filter force =
              Some match Cache.loadCache st t1 filter with
                   | Throw => Throw
                   | Ret (Some (a :: fb)) =>
                       Ret (Ui.Run (Ui.finish filter (a :: fb) true
                                      (Some Ui.ShowingCached)) tr st)
                   | Ret _ => Ret (Ui.Run (Ui.gave_up filter prev Ui.LoadFailed None) tr st)
                   end).
    { unfold V3.load. destruct Hreach as [Hc|[_ Hc]]; by rewrite Hc, Hfetch. }
    rewrite Hload. split_and!.
    + intros m e a l Hm He Hage Harts.
      by rewrite (loadCache_fresh st t1 filter m e), Harts.
    + intros m e Hm He Hage. by rewrite (loadCache_stale st t1 filter m e).
    + intros Habs. by rewrite loadCache_absent.
  - intros prev st net t0 t1 filter force tr Hreach Hfetch.
    assert (Hload : V4.load prev st net t0 t1 filter force =
                    V4.recover prev st t1 filter tr).
    { unfold V4.load. destruct Hreach as [Hc|[_ Hc]]; by rewrite Hc, Hfetch. }
    rewrite Hload. unfold V4.recover. split_and!.
    + intros m e a l Hm He Hage Harts.
      by rewrite (loadCache_fresh st t1 filter m e), Harts.
    + intros m e Hm He Hage. by rewrite (loadCache_stale st t1 filter m e).
    + intros Habs. by rewrite loadCache_absent.
Qed.

(** ** The funding post-filter *)

Lemma prefix_occurs w s : String.prefix w s = true <-> exists post, s = w +:+ post.
Proof.
  revert w. induction s as [|c' s IH]; intros [|c w]; simpl.
  - split; [by exists ""|done].
  - split; [done|]. intros [post Hp].
    change ("" = String c (w +:+ post)) in Hp. done.
  - split; [intros _; by eexists|done].
  - destruct (Ascii.ascii_dec c c') as [<-|Hne].
    + rewrite IH. split; intros [post Hp]; exists post.
      * rewrite Hp. reflexivity.
      * change (String c s = String c (w +:+ post)) in Hp. congruence.
    + split; [done|]. intros [post Hp].
      change (String c' s = String c (w +:+ post)) in Hp. congruence.
Qed.

Lemma includes_unfold s w :
  includes s w =
  if String.prefix w s then true
  else match s with
       | EmptyString => false
       | String _ s' => includes s' w
       end.
Proof. by destruct s. Qed.

Lemma includes_occurs s w : includes s w = true <-> occurs_in w s.
Proof.
  unfold occurs_in. induction s as [|c s IH]; rewrite includes_unfold.
  - destruct (String.prefix w "") eqn:Hp.
    + split; [|done]. intros _. apply prefix_occurs in Hp as [post Hp].
      exists "", post. exact Hp.
    + split; [done|]. intros (pre & post & Heq). destruct pre as [|c pre].
      * change ("" = w +:+ post) in Heq.
        assert (String.prefix w "" = true) by (apply prefix_occurs; eauto).
        congruence.
      * change ("" = String c (pre +:+ w +:+ post)) in Heq. discriminate.
  - destruct (String.prefix w (String c s)) eqn:Hp.
    + split; [|done]. intros _. apply prefix_occurs in Hp as [post Hp].
      exists "", post. exact Hp.
    + rewrite IH. split.
      * intros (pre & post & Heq). exists (String c pre), post.
        rewrite Heq. reflexivity.
      * intros (pre & post & Heq). destruct pre as [|c' pre].
        -- change (String c s = w +:+ post) in Heq.
           assert (String.prefix w (String c s) = true)
             by (apply prefix_occurs; eauto).
           congruence.
        -- change (String c s = String c' (pre +:+ w +:+ post)) in Heq.
           injection Heq as _ Heq. eauto.
Qed.

Lemma mentions_funding_spec a :
  V4.mentions_funding a = true <->
  exists kw, kw ∈ V4.FUNDING_KEYWORDS /\ occurs_in kw (toLowerCase (V4.title a)).
Proof.
  unfold V4.mentions_funding. rewrite existsb_exists. split.
  - intros (kw & Hin & Hkw). exists kw.
    split; [by apply list_elem_of_In|by apply includes_occurs].
  - intros (kw & Hin & Hkw). exists kw.
    split; [by apply list_elem_of_In|by apply includes_occurs].
Qed.

(** C5 -- the funding filter.  A title mentions funding when some keyword,
    all of them lower-case, occurs in the lower-cased title; for the funding
    filter [load] keeps the articles of [merge]'s sorted and cut list that do,
    and shows and caches them when there are any.  When none is left (for any
    filter), [load] asks dev.to once more, for the tag
    [artificial-intelligence] alone, and ends either on that broader list
    under the "limited results" notice, or, that list being empty too, on the
    "could not load" state, or, the request having raised, on the cache
    fallback; it never shows the empty filtered list. *)
Theorem C5_funding_filter_falls_back :
  Forall (fun kw => toLowerCase kw = kw) V4.FUNDING_KEYWORDS
  /\ (forall a, V4.mentions_funding a = true <->
        exists kw, kw ∈ V4.FUNDING_KEYWORDS
                   /\ occurs_in kw (toLowerCase (V4.title a)))
  /\ (forall d h, V4.aggregate "funding" d h
                  = List.filter V4.mentions_funding (V4.merge d h))
  /\ (forall prev st net t0 t1 filter force tr d h,
      reaches_fetch true (Cache.consult st t0 filter force) ->
      both (V4.fetchDevTo net (V4.devto (V4.config_of filter)))
           (V4.fetchHN net (V4.hn (V4.config_of filter))) [] = (tr, Ret (d, h)) ->
      (forall a l, V4.aggregate filter d h = a :: l ->
         V4.load prev st net t0 t1 filter force
         = Ret (Ui.Run (Ui.finish filter (a :: l) false None) tr
                       (Cache.saveCache st t1 None filter (a :: l))))
      /\ (V4.aggregate filter d h = [] ->
          let broader := V4.fetchDevTo net ["artificial-intelligence"] tr in
          broader.1 = tr ++ [V4.DevToTag "artificial-intelligence"]
          /\ V4.load prev st net t0 t1 filter force
             = match broader.2 with
               | Ret (a :: fb) =>
                   Ret (Ui.Run (Ui.finish filter (a :: fb) false (Some Ui.LimitedResults))
                               broader.1 st)
               | Ret [] =>
                   Ret (Ui.Run (Ui.gave_up filter [] Ui.CouldNotLoad None) broader.1 st)
               | Throw => V4.recover [] st t1 filter broader.1
               end
          /\ forall r, V4.load prev st net t0 t1 filter force = Ret r ->
               (exists a l, Ui.allArticles (Ui.shown r) = a :: l
                            /\ (Ui.errorBanner (Ui.shown r) = Some Ui.LimitedResults
                                \/ Ui.errorBanner (Ui.shown r) = Some Ui.ShowingCached))
               \/ ((Ui.view (Ui.shown r) = Ui.Empty Ui.CouldNotLoad
                    \/ Ui.view (Ui.shown r) = Ui.Empty Ui.LoadFailed)
                   /\ Ui.articleCount (Ui.shown r) = 0%nat))).
Proof.
  split_and!.
  - by vm_compute; repeat constructor.
  - apply mentions_funding_spec.
  - reflexivity.
  - intros prev st net t0 t1 filter force tr d h Hreach Hboth.
    assert (Hload : V4.load prev st net t0 t1 filter force =
              match V4.aggregate filter d h with
              | a :: all =>
                  Ret (Ui.Run (Ui.finish filter (a :: all) false None) tr
                              (Cache.saveCache st t1 None filter (a :: all)))
              | [] =>
                  match V4.fetchDevTo net ["artificial-intelligence"] tr with
                  | (tr', Ret (a :: fallback)) =>
                      Ret (Ui.Run (Ui.finish filter (a :: fallback) false
                                     (Some Ui.LimitedResults)) tr' st)
                  | (tr', Ret []) =>
                      Ret (Ui.Run (Ui.gave_up filter [] Ui.CouldNotLoad None) tr' st)
                  | (tr', Throw) => V4.recover [] st t1 filter tr'
                  end
              end).
    { unfold V4.load. destruct Hreach as [Hc|[_ Hc]]; by rewrite Hc, Hboth. }
    rewrite Hload. split.
    + intros a l ->. done.
    + intros ->. cbv zeta.
      pose proof (fetchDevTo_requests net ["artificial-intelligence"] tr) as Hreq.
      destruct (V4.fetchDevTo net ["artificial-intelligence"] tr)
        as [tr' [[|a fb]|]]; simpl in Hreq; subst tr'; simpl.
      * split_and!; [done..|]. intros r [= <-]. right. simpl. by split; [left|].
      * split_and!; [done..|]. intros r [= <-]. left. simpl. eauto.
      * split_and!; [done..|]. unfold V4.recover. intros r Hr.
        destruct (Cache.loadCache st t1 filter) as [[[|b fb]|]|];
          cbv beta iota in Hr; [| | |discriminate]; injection Hr as <-; simpl;
          [right|left|right]; eauto.
Qed.

(** * Further properties *)

(** ** Writes to the cache *)


(** X1 -- writing the entry of one filter does not change what is read for
    another one, whatever the storage holds and whether or not the write
    went through. *)
Theorem X1_save_leaves_other_filters :
  forall (A : Type) (st : Cache.storage A) T lbl filter arts now f,
    f <> filter ->
    Cache.loadCache (Cache.saveCache st T lbl filter arts) now f
    = Cache.loadCache st now f.
Proof.
  intros A st T lbl filter arts now f Hne.
  rewrite !loadCache_unfold.
  unfold Cache.saveCache, Cache.saveCache_body, Cache.setItem, Cache.parse.
  destruct (Cache.item st) as [| |m] eqn:Hitem;
    destruct (Cache.quota_exceeded st); simpl; rewrite ?Hitem; try done.
  - by rewrite lookup_insert_ne, lookup_empty.
  - by rewrite lookup_insert_ne.
Qed.


(** X2 -- of two writes under one filter, the last one that goes through
    wins.  Each [setItem] may exceed the quota or not, depending on what is
    written.  When the second write goes through, the blob is the one that
    the second write alone would have left on the original blob, and the
    second list is read back while fresh; when it raises, the blob stays as
    the first write left it, so the first list is still read; a blob that
    does not parse is left alone by both.  [saveCache] on a storage is the
    write whose outcome is the storage's flag. *)
Theorem X2_last_write_through_wins :
  forall (A : Type) (b : Cache.blob A) (q1 q2 : bool) T1 l1 a1 T2 l2 a2 filter,
    let first := saveCache_when q1 b T1 l1 filter a1 in
    let second := saveCache_when q2 first T2 l2 filter a2 in
    (forall (st : Cache.storage A) T l f a,
        Cache.item (Cache.saveCache st T l f a)
        = saveCache_when (Cache.quota_exceeded st) (Cache.item st) T l f a)
    /\ second = (if q2 then first else saveCache_when false b T2 l2 filter a2)
    /\ (b = Cache.Garbage -> second = Cache.Garbage)
    /\ (b <> Cache.Garbage -> q2 = false ->
        forall q now, now - T2 <= Cache.CACHE_TTL ->
          Cache.loadCache (Cache.Storage second q) now filter = Ret (Some a2))
    /\ (b <> Cache.Garbage -> q1 = false -> q2 = true ->
        forall q now, now - T1 <= Cache.CACHE_TTL ->
          Cache.loadCache (Cache.Storage second q) now filter = Ret (Some a1)).
Proof.
  intros A b q1 q2 T1 l1 a1 T2 l2 a2 filter first second.
  unfold second, first, saveCache_when, Cache.saveCache, Cache.saveCache_body,
    Cache.setItem, Cache.parse.
  split_and!.
  - intros [i q] T l f a. simpl. by destruct i, q.
  - destruct b as [| |m], q1, q2; simpl; try done; by rewrite insert_insert_eq.
  - intros ->. by destruct q1, q2.
  - intros Hb -> q now Hage. rewrite loadCache_unfold.
    destruct b as [| |m], q1; simpl; try done; rewrite lookup_insert_eq; simpl;
      by destruct (Z.gtb_spec (now - T2) Cache.CACHE_TTL); [lia|].
  - intros Hb -> -> q now Hage. rewrite loadCache_unfold.
    destruct b as [| |m]; simpl; try done; rewrite lookup_insert_eq; simpl;
      by destruct (Z.gtb_spec (now - T1) Cache.CACHE_TTL); [lia|].
Qed.













Lemma saveCache_writable {A} (st : Cache.storage A) T lbl filter arts :
  ~ unwritable st ->
  exists m, Cache.item (Cache.saveCache st T lbl filter arts) = Cache.Json m
            /\ m !! filter = Some (Cache.Entry T lbl arts).
Proof.
  unfold unwritable. intros Hw.
  destruct (Cache.saveCache_body st T lbl filter arts) as [st'|] eqn:Hbody.
  - unfold Cache.saveCache. rewrite Hbody. by eapply saveCache_body_lookup.
  - exfalso. apply Hw.
    unfold Cache.saveCache_body, Cache.setItem, Cache.parse in Hbody.
    destruct (Cache.item st); [|by left|];
      destruct (Cache.quota_exceeded st); try done; by right.
Qed.

(** X4 -- a run that showed a freshly fetched list over a writable storage
    has cached it: the next run for the same filter, not forced and started
    within the TTL of the write, issues no request and shows the same list.
    In the single-query variant this holds for an empty fetch result as
    well, which is then shown from the cache for the next hour. *)
Theorem X4_fetched_list_is_served_next_time :
  (forall prev st net t0 t1 filter force r prev' net' t2 t3,
      ~ unwritable st ->
      V2.loadArticles prev st net t0 t1 filter force = Ret r ->
      Ui.requests r <> [] -> Ui.errorBanner (Ui.shown r) = None ->
      t2 - t1 <= Cache.CACHE_TTL ->
      V2.loadArticles prev' (Ui.disk r) net' t2 t3 filter false
      = Ret (Ui.Run (Ui.finish filter (Ui.allArticles (Ui.shown r)) true None)
                    [] (Ui.disk r)))
  /\ (forall prev st net t0 t1 filter force r prev' net' t2 t3,
      ~ unwritable st ->
      V3.load false prev st net t0 t1 filter force = Some (Ret r) ->
      Ui.lastUpdated (Ui.shown r) = Ui.Updated ->
      t2 - t1 <= Cache.CACHE_TTL ->
      V3.load false prev' (Ui.disk r) net' t2 t3 filter false
      = Some (Ret (Ui.Run (Ui.finish filter (Ui.allArticles (Ui.shown r)) true None)
                          [] (Ui.disk r))))
  /\ (forall prev st net t0 t1 filter force r prev' net' t2 t3,
      ~ unwritable st ->
      V4.load prev st net t0 t1 filter force = Ret r ->
      Ui.lastUpdated (Ui.shown r) = Ui.Updated ->
      Ui.errorBanner (Ui.shown r) = None ->
      t2 - t1 <= Cache.CACHE_TTL ->
      V4.load prev' (Ui.disk r) net' t2 t3 filter false
      = Ret (Ui.Run (Ui.finish filter (Ui.allArticles (Ui.shown r)) true None)
                    [] (Ui.disk r))).
Proof.
  split_and!.
  - intros prev st net t0 t1 filter force r prev' net' t2 t3 Hw Hrun Hreq Hban Hage.
    unfold V2.loadArticles in Hrun.
    destruct (Cache.consult st t0 filter force) as [[c|]|];
      cbv beta iota in Hrun; [| |discriminate].
    { injection Hrun as <-. done. }
    destruct (V2.fetchArticles net filter []) as [tr [all|]]; cbv beta iota in Hrun.
    2:{ destruct (Cache.loadCache st t1 filter) as [[fb|]|];
          cbv beta iota in Hrun; [| |discriminate]; injection Hrun as <-;
          simpl in Hban; [by rewrite finish_banner in Hban|done]. }
    injection Hrun as <-. cbn [Ui.disk Ui.shown Ui.allArticles]. rewrite ?finish_all.
    destruct (saveCache_writable st t1 (Some filter) filter all Hw) as (m & Hm & He).
    unfold V2.loadArticles.
    by rewrite (consult_fresh _ t2 filter m _ Hm He).
  - intros prev st net t0 t1 filter force r prev' net' t2 t3 Hw Hrun Hup Hage.
    unfold V3.load in Hrun.
    destruct (Cache.consult st t0 filter force) as [[[|a c]|]|];
      cbv beta iota in Hrun; [| | |discriminate].
    2:{ injection Hrun as <-. done. }
    all: destruct (V3.fetchAll net filter []) as [tr [all|]]; cbv beta iota in Hrun.
    2,4: destruct (Cache.loadCache st t1 filter) as [[[|b fb]|]|];
      cbv beta iota in Hrun; [| | |discriminate]; injection Hrun as <-; done.
    all: injection Hrun as <-; destruct all as [|x all]; [done|];
      cbn [Ui.disk Ui.shown Ui.allArticles]; rewrite ?finish_all.
    all: destruct (saveCache_writable st t1 None filter (x :: all) Hw) as (m & Hm & He).
    all: unfold V3.load; by rewrite (consult_fresh _ t2 filter m _ Hm He).
  - intros prev st net t0 t1 filter force r prev' net' t2 t3 Hw Hrun Hup Hban Hage.
    unfold V4.load in Hrun.
    destruct (Cache.consult st t0 filter force) as [[[|a c]|]|];
      cbv beta iota zeta in Hrun; [| | |discriminate].
    2:{ injection Hrun as <-. done. }
    all: destruct (both _ _ []) as [tr [[d h]|]]; cbv beta iota in Hrun.
    2,4: unfold V4.recover in Hrun;
      destruct (Cache.loadCache st t1 filter) as [[[|b fb]|]|];
      cbv beta iota in Hrun; [| | |discriminate]; injection Hrun as <-; done.
    all: destruct (V4.aggregate filter d h) as [|x all]; cbv beta iota in Hrun.
    1,3: destruct (V4.fetchDevTo net ["artificial-intelligence"] tr) as [tr' [[|y fb]|]];
      cbv beta iota in Hrun;
      [injection Hrun as <-; done
      |injection Hrun as <-; done
      |unfold V4.recover in Hrun;
       destruct (Cache.loadCache st t1 filter) as [[[|b fb]|]|];
       cbv beta iota in Hrun; [| | |discriminate]; injection Hrun as <-; done].
    all: injection Hrun as <-; cbn [Ui.disk Ui.shown Ui.allArticles]; rewrite ?finish_all.
    all: destruct (saveCache_writable st t1 None filter (x :: all) Hw) as (m & Hm & He).
    all: unfold V4.load; by rewrite (consult_fresh _ t2 filter m _ Hm He).
Qed.


(** ** Failing services *)

Lemma answers_cons net n r rs :
  answers net n (r :: rs) = net n r :: answers net (S n) rs.
Proof.
  unfold answers. simpl. rewrite Nat.add_0_r. f_equal.
  apply imap_ext. intros i x _. simpl. f_equal. lia.
Qed.

Lemma answers_heal net n rs :
  iterable (answers (heal net) n rs) = iterable (answers net n rs)
  /\ fulfilled (answers (heal net) n rs) = fulfilled (answers net n rs).
Proof.
  revert n. induction rs as [|r rs IH]; intros n; [done|].
  rewrite !answers_cons. destruct (IH (S n)) as [IH1 IH2].
  unfold iterable, fulfilled in *. simpl. rewrite IH1, IH2.
  unfold heal. by destruct (net n r).
Qed.

Lemma round_heal net days qs s tr :
  V3.round (heal net) days qs s tr = V3.round net days qs s tr.
Proof.
  rewrite !round_spec. cbv zeta.
  destruct (answers_heal net (length tr) (map (fun q => Hn.Search q days) qs))
    as [-> ->]. done.
Qed.

Lemma iterable_answers net n rs :
  (forall k r, net k r <> BadBody) -> iterable (answers net n rs) = true.
Proof.
  intros Hnet. revert n. induction rs as [|r rs IH]; intros n; [done|].
  rewrite answers_cons. unfold iterable in *. simpl. rewrite IH.
  specialize (Hnet n r). by destruct (net n r).
Qed.

(** X5 -- the queries of [fetchAll] fail independently: a failed exchange
    contributes nothing and aborts nothing, so the result is the one obtained
    had the failed queries answered with no hit; and as long as no answer is
    malformed, [fetchAll] returns a list, however many queries failed. *)
Theorem X5_failed_queries_count_as_empty :
  (forall net filter tr,
      V3.fetchAll (heal net) filter tr = V3.fetchAll net filter tr)
  /\ (forall net filter tr,
      (forall k r, net k r <> BadBody) ->
      exists out, (V3.fetchAll net filter tr).2 = Ret out).
Proof.
  split.
  - intros net filter tr. unfold V3.fetchAll, V3.collect, bind.
    rewrite round_heal.
    destruct (V3.round net 1 (V3.queries_of filter) (∅, []) tr) as [tr1 [s1|]];
      [|done].
    destruct (V3.sparse s1.2); [|done]. by rewrite round_heal.
  - intros net filter tr Hnet. unfold V3.fetchAll, V3.collect, bind.
    rewrite round_spec. cbv zeta. rewrite iterable_answers by done.
    destruct (V3.sparse _); [|simpl; eauto].
    rewrite round_spec. cbv zeta. rewrite iterable_answers by done.
    simpl. eauto.
Qed.

Lemma fulfilled_outage net n rs :
  (forall k r, net k r = NetFail) -> fulfilled (answers net n rs) = [].
Proof.
  intros Hnet. revert n. induction rs as [|r rs IH]; intros n; [done|].
  rewrite answers_cons. unfold fulfilled in *. simpl. by rewrite Hnet, IH.
Qed.

Lemma fetchAll_outage net filter :
  (forall k r, net k r = NetFail) ->
  V3.fetchAll net filter [] = (day 1 filter ++ day 3 filter, Ret []).
Proof.
  intros Hnet. unfold V3.fetchAll, V3.collect, bind.
  assert (Hok : forall k r, net k r <> BadBody) by (intros k r; by rewrite Hnet).
  rewrite round_spec. cbv zeta. rewrite iterable_answers by done.
  rewrite fulfilled_outage by done. simpl.
  rewrite round_spec. cbv zeta. rewrite iterable_answers by done.
  rewrite fulfilled_outage by done. done.
Qed.



Lemma fetchDevTo_outage net tags tr :
  (forall k t, V4.devto_api net k t = NetFail) ->
  V4.fetchDevTo net tags tr = (tr ++ map V4.DevToTag tags, Ret []).
Proof.
  intros Hnet. unfold V4.fetchDevTo.
  assert (Hs : forall tr0,
             settle_all (V4.fetchTag net) tags tr0
             = (tr0 ++ map V4.DevToTag tags, map (fun _ => Some []) tags)).
  { induction tags as [|t tags IH]; intros tr0; simpl.
    - by rewrite app_nil_r.
    - rewrite IH, Hnet, <- app_assoc. done. }
  rewrite Hs. f_equal.
  assert (Hf : fold_left V4.absorb_tag (map (fun _ => Some []) tags) (Ret (∅, []))
               = Ret (∅, [])).
  { clear. induction tags as [|t tags IH]; simpl; [done|]. exact IH. }
  by rewrite Hf.
Qed.

Lemma fetchHN_outage net q tr :
  (forall k t, V4.hn_api net k t = NetFail) ->
  V4.fetchHN net q tr = (tr ++ [V4.HnSearch q], Ret []).
Proof. intros Hnet. unfold V4.fetchHN. by rewrite Hnet. Qed.

(** X6 -- a total outage does not reach the [catch] branch of the variants
    that settle their queries independently.  With every exchange failing, a
    run that goes to the network (forced, or without a usable cached list)
    ends on an empty state with the storage untouched and no notice, after
    both rounds of requests in [V3.load] and after the broader dev.to
    request in [V4.load]; the cache is not read again, so an entry that is
    still fresh is not shown by a forced run. *)
Theorem X6_outage_ends_on_empty_state :
  (forall prev st net t0 t1 filter force,
      (forall k r, net k r = NetFail) ->
      reaches_fetch true (Cache.consult st t0 filter force) ->
      V3.load false prev st net t0 t1 filter force
      = Some (Ret (Ui.Run (Ui.finish filter [] false None)
                          (day 1 filter ++ day 3 filter) st)))
  /\ (forall prev st net t0 t1 filter force,
      (forall k t, V4.devto_api net k t = NetFail) ->
      (forall k q, V4.hn_api net k q = NetFail) ->
      reaches_fetch true (Cache.consult st t0 filter force) ->
      V4.load prev st net t0 t1 filter force
      = Ret (Ui.Run (Ui.gave_up filter [] Ui.CouldNotLoad None)
                    ((map V4.DevToTag (V4.devto (V4.config_of filter))
                      ++ [V4.HnSearch (V4.hn (V4.config_of filter))])
                     ++ [V4.DevToTag "artificial-intelligence"]) st)).
Proof.
  split.
  - intros prev st net t0 t1 filter force Hnet Hreach.
    unfold V3.load. rewrite (fetchAll_outage net filter Hnet).
    destruct Hreach as [-> | [_ ->]]; done.
  - intros prev st net t0 t1 filter force Hd Hh Hreach.
    assert (Hboth : both (V4.fetchDevTo net (V4.devto (V4.config_of filter)))
                         (V4.fetchHN net (V4.hn (V4.config_of filter))) []
                    = (map V4.DevToTag (V4.devto (V4.config_of filter))
                       ++ [V4.HnSearch (V4.hn (V4.config_of filter))], Ret ([], []))).
    { unfold both. rewrite fetchDevTo_outage by done. cbv beta iota zeta.
      rewrite fetchHN_outage by done. done. }
    assert (Hagg : V4.aggregate filter [] [] = []).
    { unfold V4.aggregate. by destruct (String.eqb filter "funding"). }
    unfold V4.load. rewrite Hboth. cbv beta iota zeta. rewrite Hagg.
    rewrite fetchDevTo_outage by done.
    destruct Hreach as [-> | [_ ->]]; done.
Qed.

Lemma queries_of_length filter : (length (V3.queries_of filter) <= 5)%nat.
Proof.
  unfold V3.queries_of.
  destruct (V3.FILTER_QUERIES !! filter) as [qs|] eqn:Hq; simpl; [|lia].
  apply elem_of_list_to_map_2 in Hq.
  repeat (apply elem_of_cons in Hq as [[= _ ->]|Hq]; [simpl; lia|]).
  by apply elem_of_nil in Hq.
Qed.

Lemma config_of_length filter : (length (V4.devto (V4.config_of filter)) <= 3)%nat.
Proof.
  unfold V4.config_of.
  destruct (V4.FILTERS !! filter) as [c|] eqn:Hq; simpl; [|lia].
  apply elem_of_list_to_map_2 in Hq.
  repeat (apply elem_of_cons in Hq as [[= _ ->]|Hq]; [simpl; lia|]).
  by apply elem_of_nil in Hq.
Qed.

Lemma fetchAll_trace net filter :
  (V3.fetchAll net filter []).1 = day 1 filter
  \/ (V3.fetchAll net filter []).1 = day 1 filter ++ day 3 filter.
Proof.
  unfold V3.fetchAll, V3.collect, bind.
  pose proof (round_requests net 1 (V3.queries_of filter) (∅, []) []) as H1.
  destruct (V3.round net 1 _ _ _) as [tr1 [s1|]]; simpl in *; subst tr1; [|by left].
  destruct (V3.sparse s1.2); [|by left].
  pose proof (round_requests net 3 (V3.queries_of filter) s1 (day 1 filter)) as H3.
  unfold day in *.
  destruct (V3.round net 3 _ _ _) as [tr3 [s3|]]; simpl in *; subst tr3; by right.
Qed.

Lemma fetchArticles_trace net filter :
  (V2.fetchArticles net filter []).1 = [Hn.Search (V2.topic filter) 1]
  \/ (V2.fetchArticles net filter []).1
     = [Hn.Search (V2.topic filter) 1; Hn.Search (V2.topic filter) 3].
Proof.
  unfold V2.fetchArticles, bind, V2.fetchHN. simpl.
  destruct (net 0%nat _) as [|l1|]; simpl; [by left| |by left].
  destruct (length l1 <? 5)%nat; simpl; [|by left].
  destruct (net 1%nat _); by right.
Qed.


(** ** How many requests a run issues *)


Lemma v2_requests prev st net t0 t1 filter force r :
  V2.loadArticles prev st net t0 t1 filter force = Ret r ->
  Ui.requests r = [] \/ Ui.requests r = (V2.fetchArticles net filter []).1.
Proof.
  unfold V2.loadArticles. intros Hrun.
  destruct (Cache.consult st t0 filter force) as [[c|]|];
    cbv beta iota in Hrun; [| |discriminate].
  - injection Hrun as <-. by left.
  - destruct (V2.fetchArticles net filter []) as [tr [all|]]; cbv beta iota in Hrun.
    + injection Hrun as <-. by right.
    + destruct (Cache.loadCache st t1 filter) as [[fb|]|];
        cbv beta iota in Hrun; [| |discriminate]; injection Hrun as <-; by right.
Qed.

Lemma v3_requests prev st net t0 t1 filter force r :
  V3.load false prev st net t0 t1 filter force = Some (Ret r) ->
  Ui.requests r = [] \/ Ui.requests r = (V3.fetchAll net filter []).1.
Proof.
  unfold V3.load. intros Hrun.
  destruct (Cache.consult st t0 filter force) as [[[|a c]|]|];
    cbv beta iota in Hrun; [| | |discriminate].
  2:{ injection Hrun as <-. by left. }
  all: destruct (V3.fetchAll net filter []) as [tr [all|]]; cbv beta iota in Hrun.
  1,3: injection Hrun as <-; by right.
  all: destruct (Cache.loadCache st t1 filter) as [[[|b fb]|]|];
    cbv beta iota in Hrun; [| | |discriminate]; injection Hrun as <-; by right.
Qed.

Lemma v4_requests prev st net t0 t1 filter force r :
  V4.load prev st net t0 t1 filter force = Ret r ->
  let first := map V4.DevToTag (V4.devto (V4.config_of filter))
               ++ [V4.HnSearch (V4.hn (V4.config_of filter))] in
  Ui.requests r = [] \/ Ui.requests r = first
  \/ Ui.requests r = first ++ [V4.DevToTag "artificial-intelligence"].
Proof.
  intros Hrun first. unfold V4.load in Hrun.
  pose proof (both_requests net filter) as Hreq. fold first in Hreq.
  assert (Hrec : forall held tr r0, V4.recover held st t1 filter tr = Ret r0 ->
                                    Ui.requests r0 = tr).
  { intros held tr r0. unfold V4.recover.
    destruct (Cache.loadCache st t1 filter) as [[[|b fb]|]|]; intros [= <-]; done. }
  destruct (Cache.consult st t0 filter force) as [[[|a c]|]|];
    cbv beta iota zeta in Hrun; [| | |discriminate].
  2:{ injection Hrun as <-. by left. }
  all: right.
  all: destruct (both _ _ []) as [tr [[d h]|]]; cbv beta iota in Hrun;
    simpl in Hreq; subst tr.
  2,4: apply Hrec in Hrun; by left.
  all: destruct (V4.aggregate filter d h) as [|x all]; cbv beta iota in Hrun.
  2,4: injection Hrun as <-; by left.
  all: pose proof (fetchDevTo_requests net ["artificial-intelligence"] first) as Hfb;
    destruct (V4.fetchDevTo net ["artificial-intelligence"] first) as [tr' [[|y fb]|]];
    cbv beta iota in Hrun; simpl in Hfb; subst tr'.
  3,6: apply Hrec in Hrun; by right.
  all: injection Hrun as <-; by right.
Qed.

(** X7 -- a run issues few requests.  [V2.loadArticles] issues at most 2, all
    for the topic of the filter; [V3.load] at most 10, each for a query of
    the filter over one day or three; [V4.load] at most 5. *)
Theorem X7_requests_are_bounded :
  (forall prev st net t0 t1 filter force r,
      V2.loadArticles prev st net t0 t1 filter force = Ret r ->
      (length (Ui.requests r) <= 2)%nat
      /\ forall q, q ∈ Ui.requests r ->
           Hn.query q = V2.topic filter /\ (Hn.daysBack q = 1 \/ Hn.daysBack q = 3))
  /\ (forall prev st net t0 t1 filter force r,
      V3.load false prev st net t0 t1 filter force = Some (Ret r) ->
      (length (Ui.requests r) <= 10)%nat
      /\ forall q, q ∈ Ui.requests r ->
           Hn.query q ∈ V3.queries_of filter
           /\ (Hn.daysBack q = 1 \/ Hn.daysBack q = 3))
  /\ (forall prev st net t0 t1 filter force r,
      V4.load prev st net t0 t1 filter force = Ret r ->
      (length (Ui.requests r) <= 5)%nat).
Proof.
  split_and!.
  - intros prev st net t0 t1 filter force r Hrun.
    destruct (v2_requests _ _ _ _ _ _ _ _ Hrun) as [-> | ->].
    { split; [simpl; lia|]. intros q Hq. by apply elem_of_nil in Hq. }
    destruct (fetchArticles_trace net filter) as [-> | ->]; (split; [simpl; lia|]).
    + intros q ->%list_elem_of_singleton. auto.
    + intros q [-> | ->%list_elem_of_singleton]%elem_of_cons; auto.
  - intros prev st net t0 t1 filter force r Hrun.
    pose proof (queries_of_length filter) as Hlen.
    assert (Hday : forall d q, q ∈ day d filter ->
              Hn.query q ∈ V3.queries_of filter /\ Hn.daysBack q = d).
    { intros d q (x & -> & Hx)%list_elem_of_fmap. done. }
    destruct (v3_requests _ _ _ _ _ _ _ _ Hrun) as [-> | ->].
    { split; [simpl; lia|]. intros q Hq. by apply elem_of_nil in Hq. }
    destruct (fetchAll_trace net filter) as [-> | ->].
    + split; [unfold day; rewrite length_map; lia|].
      intros q Hq. destruct (Hday _ _ Hq). auto.
    + split; [unfold day; rewrite length_app, !length_map; lia|].
      intros q [Hq|Hq]%elem_of_app; destruct (Hday _ _ Hq); auto.
  - intros prev st net t0 t1 filter force r Hrun.
    pose proof (config_of_length filter) as Hlen.
    destruct (v4_requests _ _ _ _ _ _ _ _ Hrun) as [-> | [-> | ->]];
      rewrite ?length_app, ?length_map; simpl; lia.
Qed.


(** ** What the fetchers of the two-source variant return *)


Lemma append_cons c p x : String c p +:+ x = String c (p +:+ x).
Proof. reflexivity. Qed.

Lemma append_inj_r p x y : p +:+ x = p +:+ y -> x = y.
Proof.
  induction p as [|c p IH]; [done|].
  rewrite !append_cons. intros [= H]. by apply IH.
Qed.

Lemma fold_absorb_tag_Throw batches :
  fold_left V4.absorb_tag batches Throw = Throw.
Proof. induction batches as [|b bs IH]; simpl; [done|]. exact IH. Qed.

Lemma fold_absorb_tag batches s :
  fold_left V4.absorb_tag batches (Ret s) =
  if forallb (fun b => match b with Some _ => true | None => false end) batches
  then Ret (absorb_all V4.dt_id (fun a => truthy (V4.dt_title a)) s (bodies batches))
  else Throw.
Proof.
  unfold bodies, absorb_all. revert s.
  induction batches as [|[l|] bs IH]; intros s; simpl; [done| |].
  - rewrite IH. by rewrite fold_left_app.
  - apply fold_absorb_tag_Throw.
Qed.

Lemma settle_fetchTag_ok net tags tr :
  (forall k t, V4.devto_api net k t <> BadBody) ->
  forallb (fun b => match b with Some _ => true | None => false end) (settle_all (V4.fetchTag net) tags tr).2
  = true.
Proof.
  intros Hnet. revert tr. induction tags as [|t tags IH]; intros tr; simpl; [done|].
  specialize (IH (tr ++ [V4.DevToTag t])).
  destruct (settle_all (V4.fetchTag net) tags (tr ++ [V4.DevToTag t])) as [tr2 bs].
  simpl in *. rewrite IH, andb_true_r.
  specialize (Hnet (length tr) t).
  by destruct (V4.devto_api net (length tr) t).
Qed.

Lemma fetchDevTo_result net tags tr out :
  (V4.fetchDevTo net tags tr).2 = Ret out ->
  exists raws,
    out = map V4.of_devto
            (absorb_all V4.dt_id (fun a => truthy (V4.dt_title a)) (∅, []) raws).2.
Proof.
  unfold V4.fetchDevTo.
  destruct (settle_all (V4.fetchTag net) tags tr) as [tr' bs]. simpl.
  rewrite fold_absorb_tag. destruct (forallb _ bs); [|done].
  intros [= <-]. eauto.
Qed.

Lemma fetchDevTo_wf net tags tr out :
  (V4.fetchDevTo net tags tr).2 = Ret out ->
  NoDup (map V4.id out)
  /\ forall a, a ∈ out ->
       V4.title a <> "" /\ exists n : Z, V4.id a = "devto-" +:+ pretty n.
Proof.
  intros (raws & ->)%fetchDevTo_result. split.
  - rewrite <- list_fmap_compose.
    pose proof (results_nodup V4.dt_id (fun a => truthy (V4.dt_title a)) raws) as Hnd.
    set (l := (absorb_all V4.dt_id (fun a => truthy (V4.dt_title a)) (∅, []) raws).2) in *.
    replace (V4.id ∘ V4.of_devto <$> l)
      with ((fun n : Z => "devto-" +:+ pretty n) <$> (V4.dt_id <$> l))
      by (by rewrite <- list_fmap_compose).
    apply NoDup_fmap_2; [|done].
    intros x y Hxy%append_inj_r. by apply (inj pretty).
  - intros a (raw & -> & Hraw)%list_elem_of_fmap.
    split; [|by exists (V4.dt_id raw)].
    pose proof (results_sublist V4.dt_id (fun a => truthy (V4.dt_title a)) raws) as Hsub.
    apply (sublist_subseteq _ _ Hsub) in Hraw.
    apply list_elem_of_In, List.filter_In in Hraw as [_ Ht].
    unfold V4.of_devto. simpl.
    by destruct (V4.dt_title raw) as [[|c t]|].
Qed.

(** X8 -- [fetchDevTo] asks once per tag, in order; a failed tag contributes
    nothing, and only a body that is not a list makes the call throw.  The
    articles it returns have pairwise distinct ids of the form
    [devto-<number>] and non-empty titles. *)
Theorem X8_fetchDevTo_articles :
  forall net tags tr,
    (V4.fetchDevTo net tags tr).1 = tr ++ map V4.DevToTag tags
    /\ ((forall k t, V4.devto_api net k t <> BadBody) ->
        exists out, (V4.fetchDevTo net tags tr).2 = Ret out)
    /\ (forall out, (V4.fetchDevTo net tags tr).2 = Ret out ->
        NoDup (map V4.id out)
        /\ forall a, a ∈ out ->
             V4.title a <> "" /\ exists n : Z, V4.id a = "devto-" +:+ pretty n).
Proof.
  intros net tags tr. split_and!.
  - apply fetchDevTo_requests.
  - intros Hnet. unfold V4.fetchDevTo.
    pose proof (settle_fetchTag_ok net tags tr Hnet) as Hok.
    destruct (settle_all (V4.fetchTag net) tags tr) as [tr' bs]. simpl in *.
    rewrite fold_absorb_tag, Hok. eauto.
  - apply fetchDevTo_wf.
Qed.

(** X9 -- [fetchHN] never throws and asks exactly once: a failed exchange
    and a malformed body both give the empty list.  Its articles have a
    non-empty title, a non-empty link (the Hacker News item page when the hit
    has no URL) and an id of the form [hn-<objectID>], so no article of
    [fetchHN] shares its id with an article of [fetchDevTo]. *)
Theorem X9_fetchHN_articles :
  forall net q tr,
    exists out,
      V4.fetchHN net q tr = (tr ++ [V4.HnSearch q], Ret out)
      /\ (V4.hn_api net (length tr) q = NetFail
          \/ V4.hn_api net (length tr) q = BadBody -> out = [])
      /\ (forall a, a ∈ out ->
            V4.title a <> "" /\ V4.url a <> ""
            /\ exists oid, V4.id a = "hn-" +:+ oid)
      /\ (forall tags tr' outd a b,
            (V4.fetchDevTo net tags tr').2 = Ret outd ->
            a ∈ outd -> b ∈ out -> V4.id a <> V4.id b).
Proof.
  intros net q tr. unfold V4.fetchHN.
  assert (Hwf : forall hits a,
             a ∈ map V4.of_hit (List.filter (fun h => truthy (Hn.title h)) hits) ->
             V4.title a <> "" /\ V4.url a <> ""
             /\ exists oid, V4.id a = "hn-" +:+ oid).
  { intros hits a (h & -> & Hh)%list_elem_of_fmap.
    apply list_elem_of_In, List.filter_In in Hh as [_ Ht].
    unfold V4.of_hit. simpl. split_and!.
    - by destruct (Hn.title h) as [[|c t]|].
    - by destruct (Hn.url h) as [[|c u]|].
    - by exists (Hn.objectID h). }
  assert (Hdis : forall tags tr' outd a b,
             (V4.fetchDevTo net tags tr').2 = Ret outd -> a ∈ outd ->
             (exists oid, V4.id b = "hn-" +:+ oid) -> V4.id a <> V4.id b).
  { intros tags tr' outd a b Hd Ha [oid Hb].
    destruct (fetchDevTo_wf net tags tr' outd Hd) as [_ Hall].
    destruct (Hall a Ha) as [_ [n Hn]].
    rewrite Hn, Hb. discriminate. }
  destruct (V4.hn_api net (length tr) q) as [|hits|]; eexists; split_and!;
    try done.
  - intros a Ha. by apply elem_of_nil in Ha.
  - intros tags tr' outd a b _ _ Hb. by apply elem_of_nil in Hb.
  - intros [?|?]; done.
  - apply Hwf.
  - intros tags tr' outd a b Hd Ha Hb. eapply Hdis; eauto.
    by destruct (Hwf hits b Hb) as (_ & _ & ?).
  - intros a Ha. by apply elem_of_nil in Ha.
  - intros tags tr' outd a b _ _ Hb. by apply elem_of_nil in Hb.
Qed.


(** ** Escaping *)

Lemma append_nil_l x : "" +:+ x = x.
Proof. reflexivity. Qed.

Lemma chars_app a b : chars (a +:+ b) = chars a ++ chars b.
Proof.
  unfold chars. induction a as [|c a IH]; [done|].
  rewrite append_cons. simpl. by rewrite IH.
Qed.

Lemma append_assoc a b c : (a +:+ b) +:+ c = a +:+ (b +:+ c).
Proof.
  induction a as [|x a IH]; [done|]. rewrite !append_cons. by rewrite IH.
Qed.

Lemma replace_char_app c rep a b :
  Text.replace_char c rep (a +:+ b)
  = Text.replace_char c rep a +:+ Text.replace_char c rep b.
Proof.
  induction a as [|x a IH]; [done|].
  rewrite append_cons. simpl.
  destruct (Ascii.eqb x c); rewrite IH; [by rewrite append_assoc|done].
Qed.

Lemma esc5_app a b : V3.esc (a +:+ b) = V3.esc a +:+ V3.esc b.
Proof. unfold V3.esc. by rewrite !replace_char_app. Qed.

Lemma esc4_app a b : V4.esc (a +:+ b) = V4.esc a +:+ V4.esc b.
Proof. unfold V4.esc. by rewrite !replace_char_app. Qed.

Lemma esc5_cons x s : V3.esc (String x s) = V3.esc (String x "") +:+ V3.esc s.
Proof. by rewrite <- esc5_app. Qed.

Lemma esc4_cons x s : V4.esc (String x s) = V4.esc (String x "") +:+ V4.esc s.
Proof. by rewrite <- esc4_app. Qed.

(** What one character becomes. *)
Lemma esc5_char x :
  (x = "&"%char /\ V3.esc (String x "") = "&amp;")
  \/ (x = "<"%char /\ V3.esc (String x "") = "&lt;")
  \/ (x = ">"%char /\ V3.esc (String x "") = "&gt;")
  \/ (x = Text.quot /\ V3.esc (String x "") = "&quot;")
  \/ (x = Text.apos /\ V3.esc (String x "") = "&#39;")
  \/ (~ markup x /\ x <> Text.apos /\ V3.esc (String x "") = String x "").
Proof.
  unfold markup.
  destruct x as [[] [] [] [] [] [] [] []]; vm_compute;
    first [ left; split; reflexivity
          | right; left; split; reflexivity
          | right; right; left; split; reflexivity
          | right; right; right; left; split; reflexivity
          | right; right; right; right; left; split; reflexivity
          | right; right; right; right; right;
            split_and!; [intros [?|[?|[?|?]]]; discriminate|discriminate|reflexivity] ].
Qed.

Lemma esc4_char x :
  (x = "&"%char /\ V4.esc (String x "") = "&amp;")
  \/ (x = "<"%char /\ V4.esc (String x "") = "&lt;")
  \/ (x = ">"%char /\ V4.esc (String x "") = "&gt;")
  \/ (x = Text.quot /\ V4.esc (String x "") = "&quot;")
  \/ (~ markup x /\ V4.esc (String x "") = String x "").
Proof.
  unfold markup.
  destruct x as [[] [] [] [] [] [] [] []]; vm_compute;
    first [ left; split; reflexivity
          | right; left; split; reflexivity
          | right; right; left; split; reflexivity
          | right; right; right; left; split; reflexivity
          | right; right; right; right;
            split; [intros [?|[?|[?|?]]]; discriminate|reflexivity] ].
Qed.

Lemma esc5_safe s c :
  c ∈ chars (V3.esc s) ->
  c <> "<"%char /\ c <> ">"%char /\ c <> Text.quot /\ c <> Text.apos.
Proof.
  induction s as [|x s IH]; [intros Hc; by apply elem_of_nil in Hc|].
  rewrite esc5_cons, chars_app. intros [Hc|Hc]%elem_of_app; [|by apply IH].
  destruct (esc5_char x) as [[_ He]|[[_ He]|[[_ He]|[[_ He]|[[_ He]|(Hm & Ha & He)]]]]];
    rewrite He in Hc; unfold chars in Hc; simpl in Hc.
  1-5: repeat (apply elem_of_cons in Hc as [->|Hc]; [by vm_compute|]);
       by apply elem_of_nil in Hc.
  apply list_elem_of_singleton in Hc as ->. unfold markup in Hm.
  split_and!; intros ->; try done; apply Hm; auto.
Qed.

Lemma esc4_safe s c :
  c ∈ chars (V4.esc s) -> c <> "<"%char /\ c <> ">"%char /\ c <> Text.quot.
Proof.
  induction s as [|x s IH]; [intros Hc; by apply elem_of_nil in Hc|].
  rewrite esc4_cons, chars_app. intros [Hc|Hc]%elem_of_app; [|by apply IH].
  destruct (esc4_char x) as [[_ He]|[[_ He]|[[_ He]|[[_ He]|(Hm & He)]]]];
    rewrite He in Hc; unfold chars in Hc; simpl in Hc.
  1-4: repeat (apply elem_of_cons in Hc as [->|Hc]; [by vm_compute|]);
       by apply elem_of_nil in Hc.
  apply list_elem_of_singleton in Hc as ->. unfold markup in Hm.
  split_and!; intros ->; apply Hm; auto.
Qed.

Lemma esc5_plain s :
  (forall c, c ∈ chars s -> ~ markup c /\ c <> Text.apos) -> V3.esc s = s.
Proof.
  induction s as [|x s IH]; [done|]. intros Hs.
  rewrite esc5_cons, IH by (intros c Hc; apply Hs; by right).
  destruct (Hs x) as [Hm Ha]; [by left|]. unfold markup in Hm.
  destruct (esc5_char x) as [[-> _]|[[-> _]|[[-> _]|[[-> _]|[[-> _]|(_ & _ & ->)]]]]];
    try done; exfalso; apply Hm; auto.
Qed.

Lemma esc4_plain s : (forall c, c ∈ chars s -> ~ markup c) -> V4.esc s = s.
Proof.
  induction s as [|x s IH]; [done|]. intros Hs.
  rewrite esc4_cons, IH by (intros c Hc; apply Hs; by right).
  assert (Hm : ~ markup x) by (apply Hs; by left). unfold markup in Hm.
  destruct (esc4_char x) as [[-> _]|[[-> _]|[[-> _]|[[-> _]|(_ & ->)]]]];
    try done; exfalso; apply Hm; auto.
Qed.

(** Strips the equal heads of two strings. *)
Ltac heads H :=
  rewrite ?append_cons, ?append_nil_l in H;
  repeat (let E := fresh in injection H as E H; try discriminate E);
  try discriminate H.

Lemma esc5_inj s1 s2 : V3.esc s1 = V3.esc s2 -> s1 = s2.
Proof.
  revert s2. induction s1 as [|x s1 IH]; intros [|y s2] H.
  - done.
  - exfalso. rewrite esc5_cons in H. change (V3.esc "") with "" in H.
    destruct (esc5_char y) as [[_ He]|[[_ He]|[[_ He]|[[_ He]|[[_ He]|(_ & _ & He)]]]]];
      rewrite He in H; heads H.
  - exfalso. rewrite esc5_cons in H. change (V3.esc "") with "" in H.
    destruct (esc5_char x) as [[_ He]|[[_ He]|[[_ He]|[[_ He]|[[_ He]|(_ & _ & He)]]]]];
      rewrite He in H; heads H.
  - rewrite (esc5_cons x), (esc5_cons y) in H.
    destruct (esc5_char x) as [[Hx He]|[[Hx He]|[[Hx He]|[[Hx He]|[[Hx He]|(Hx & Hx' & He)]]]]];
    destruct (esc5_char y) as [[Hy Hf]|[[Hy Hf]|[[Hy Hf]|[[Hy Hf]|[[Hy Hf]|(Hy & Hy' & Hf)]]]]];
      rewrite He, Hf in H; rewrite ?append_cons, ?append_nil_l in H;
      try (subst; injection H as H; heads H; f_equal; by apply IH);
      try (injection H as -> H; f_equal; by apply IH);
      try (exfalso; unfold markup in *; injection H as E H; subst;
           first [ discriminate
                 | apply Hx; auto; fail
                 | apply Hy; auto; fail
                 | done ]).
Qed.

Lemma esc4_inj s1 s2 : V4.esc s1 = V4.esc s2 -> s1 = s2.
Proof.
  revert s2. induction s1 as [|x s1 IH]; intros [|y s2] H.
  - done.
  - exfalso. rewrite esc4_cons in H. change (V4.esc "") with "" in H.
    destruct (esc4_char y) as [[_ He]|[[_ He]|[[_ He]|[[_ He]|(_ & He)]]]];
      rewrite He in H; heads H.
  - exfalso. rewrite esc4_cons in H. change (V4.esc "") with "" in H.
    destruct (esc4_char x) as [[_ He]|[[_ He]|[[_ He]|[[_ He]|(_ & He)]]]];
      rewrite He in H; heads H.
  - rewrite (esc4_cons x), (esc4_cons y) in H.
    destruct (esc4_char x) as [[Hx He]|[[Hx He]|[[Hx He]|[[Hx He]|(Hx & He)]]]];
    destruct (esc4_char y) as [[Hy Hf]|[[Hy Hf]|[[Hy Hf]|[[Hy Hf]|(Hy & Hf)]]]];
      rewrite He, Hf in H; rewrite ?append_cons, ?append_nil_l in H;
      try (subst; injection H as H; heads H; f_equal; by apply IH);
      try (injection H as -> H; f_equal; by apply IH);
      try (exfalso; unfold markup in *; injection H as E H; subst;
           first [ discriminate
                 | apply Hx; auto; fail
                 | apply Hy; auto; fail
                 | done ]).
Qed.

(** X10 -- what the escaping functions return is free of markup: the output
    of [esc]/[escapeHTML] of the Algolia variants holds no ['<'], ['>'],
    double quote or apostrophe, the output of [esc] of the two-source variant
    no ['<'], ['>'] or double quote (it leaves the apostrophe alone); a text
    without the replaced characters is returned as it is. *)
Theorem X10_escaped_text_has_no_markup :
  (forall s c, c ∈ chars (V3.esc s) ->
      c <> "<"%char /\ c <> ">"%char /\ c <> Text.quot /\ c <> Text.apos)
  /\ (forall s c, c ∈ chars (V4.esc s) ->
      c <> "<"%char /\ c <> ">"%char /\ c <> Text.quot)
  /\ (forall s, V2.escapeHTML s = V3.esc s)
  /\ (forall s, (forall c, c ∈ chars s -> ~ markup c /\ c <> Text.apos) -> V3.esc s = s)
  /\ (forall s, (forall c, c ∈ chars s -> ~ markup c) -> V4.esc s = s).
Proof.
  split_and!.
  - apply esc5_safe.
  - apply esc4_safe.
  - reflexivity.
  - apply esc5_plain.
  - apply esc4_plain.
Qed.

(** X11 -- escaping works character by character and loses nothing: the
    escape of a concatenation is the concatenation of the escapes, and two
    different texts never have the same escape. *)
Theorem X11_escaping_is_injective :
  (forall a b, V3.esc (a +:+ b) = V3.esc a +:+ V3.esc b)
  /\ (forall a b, V4.esc (a +:+ b) = V4.esc a +:+ V4.esc b)
  /\ (forall s1 s2, V3.esc s1 = V3.esc s2 -> s1 = s2)
  /\ (forall s1 s2, V4.esc s1 = V4.esc s2 -> s1 = s2).
Proof.
  split_and!.
  - apply esc5_app.
  - apply esc4_app.
  - apply esc5_inj.
  - apply esc4_inj.
Qed.


(** ** Tags and relative times *)

Lemma lower_char_idem c : lower_char (lower_char c) = lower_char c.
Proof. destruct c as [[] [] [] [] [] [] [] []]; reflexivity. Qed.

Lemma toLowerCase_idem s : toLowerCase (toLowerCase s) = toLowerCase s.
Proof. induction s as [|c s IH]; simpl; [done|]. by rewrite lower_char_idem, IH. Qed.

Lemma pick_spec table t :
  NoDup (map Text.label table) ->
  (length (Text.pick table t) <= 3)%nat
  /\ NoDup (Text.pick table t)
  /\ Text.pick table t `sublist_of` map Text.label table
  /\ (forall l, l ∈ Text.pick table t ->
        exists r w, r ∈ table /\ Text.label r = l /\ w ∈ Text.words r
                    /\ occurs_in w t)
  /\ (forall r w, r ∈ table -> w ∈ Text.words r -> occurs_in w t ->
        Text.label r ∈ Text.pick table t \/ length (Text.pick table t) = 3%nat).
Proof.
  intros Hnd. unfold Text.pick, slice0.
  set (hit := fun r => existsb (includes t) (Text.words r)).
  assert (Hsub : map Text.label (List.filter hit table) `sublist_of` map Text.label table).
  { apply (fmap_sublist Text.label), filter_sublist. }
  split_and!.
  - rewrite length_take. lia.
  - eapply sublist_NoDup; [exact Hnd|].
    etransitivity; [apply sublist_take|done].
  - etransitivity; [apply sublist_take|done].
  - intros l Hl. apply (subseteq_take 3) in Hl.
    apply list_elem_of_fmap in Hl as (r & -> & Hr).
    apply list_elem_of_In, List.filter_In in Hr as [Hr Hhit].
    apply existsb_exists in Hhit as (w & Hw & Hin).
    exists r, w. split_and!; [by apply list_elem_of_In|done|by apply list_elem_of_In|].
    by apply includes_occurs.
  - intros r w Hr Hw Hocc.
    assert (Hin : Text.label r ∈ map Text.label (List.filter hit table)).
    { apply list_elem_of_fmap. exists r. split; [done|].
      apply list_elem_of_In, List.filter_In. split; [by apply list_elem_of_In|].
      apply existsb_exists. exists w. split; [by apply list_elem_of_In|].
      by apply includes_occurs. }
    destruct (decide (length (map Text.label (List.filter hit table)) <= 3)%nat) as [Hle|Hgt].
    + left. by rewrite take_ge.
    + right. rewrite length_take. lia.
Qed.

(** X12 -- the auto-taggers give at most three labels, without repeats and
    in table order, each backed by a keyword of its row occurring in the
    lower-cased title; a matching row is left out only when three labels are
    there already; upper and lower case in the title make no difference. *)
Theorem X12_auto_tags :
  tags_by V2.TAG_MAP V2.getTags
  /\ tags_by V3.TAGS V3.getTags
  /\ tags_by V4.TAG_MAP V4.autoTags.
Proof.
  assert (H : forall table, NoDup (map Text.label table) ->
                            tags_by table (fun title => Text.pick table (toLowerCase title))).
  { intros table Hnd title.
    destruct (pick_spec table (toLowerCase title) Hnd) as (H1 & H2 & H3 & H4 & H5).
    split_and!; try done. by rewrite toLowerCase_idem. }
  split_and!; apply H; apply (bool_decide_unpack _); by vm_compute.
Qed.

(** X13 -- the relative times.  Less than a minute, the future included, is
    "just now"; then minutes from 1 to 59, hours from 1 to 23, "yesterday"
    for the second day, and days from 2 on.  The three implementations agree:
    going through an ISO date string in the two-source variant gives the text
    the Algolia variants compute from the Unix time. *)
Theorem X13_relative_time :
  forall now unix,
    let s := now / 1000 - unix in
    V2.timeAgo now unix = V3.timeAgo now unix
    /\ V4.timeAgoUnix now unix = V3.timeAgo now unix
    /\ (s < 60 -> V3.timeAgo now unix = "just now")
    /\ (60 <= s < 3600 ->
        exists n, 1 <= n <= 59 /\ V3.timeAgo now unix = pretty n +:+ "m ago")
    /\ (3600 <= s < 86400 ->
        exists n, 1 <= n <= 23 /\ V3.timeAgo now unix = pretty n +:+ "h ago")
    /\ (86400 <= s < 172800 -> V3.timeAgo now unix = "yesterday")
    /\ (172800 <= s ->
        exists n, 2 <= n /\ n * 86400 <= s < (n + 1) * 86400
                  /\ V3.timeAgo now unix = pretty n +:+ "d ago").
Proof.
  intros now unix s. split_and!.
  - reflexivity.
  - unfold V4.timeAgoUnix, V4.timeAgo, V3.timeAgo.
    replace ((now - unix * 1000) / 1000) with (now / 1000 - unix); [done|].
    Z.div_mod_to_equations. lia.
  - intros Hs. unfold V3.timeAgo. fold s.
    destruct (Z.ltb_spec s 60); [done|lia].
  - intros Hs. unfold V3.timeAgo. fold s.
    destruct (Z.ltb_spec s 60); [lia|].
    destruct (Z.ltb_spec s 3600); [|lia].
    exists (s / 60). split; [|done]. Z.div_mod_to_equations. lia.
  - intros Hs. unfold V3.timeAgo. fold s.
    destruct (Z.ltb_spec s 60); [lia|].
    destruct (Z.ltb_spec s 3600); [lia|].
    destruct (Z.ltb_spec s 86400); [|lia].
    exists (s / 3600). split; [|done]. Z.div_mod_to_equations. lia.
  - intros Hs. unfold V3.timeAgo. fold s.
    destruct (Z.ltb_spec s 60); [lia|].
    destruct (Z.ltb_spec s 3600); [lia|].
    destruct (Z.ltb_spec s 86400); [lia|].
    destruct (Z.ltb_spec s 172800); [done|lia].
  - intros Hs. unfold V3.timeAgo. fold s.
    destruct (Z.ltb_spec s 60); [lia|].
    destruct (Z.ltb_spec s 3600); [lia|].
    destruct (Z.ltb_spec s 86400); [lia|].
    destruct (Z.ltb_spec s 172800); [lia|].
    exists (s / 86400). split_and!; [| | |done]; Z.div_mod_to_equations; lia.
Qed.


(** ** The title key *)

Lemma chars_strip_punct s c : c ∈ chars (strip_punct s) -> key_char c = true.
Proof.
  unfold chars. induction s as [|x s IH]; simpl; [intros H; by apply elem_of_nil in H|].
  destruct (is_lower x || is_digit x || is_space x) eqn:Hx; [|done].
  simpl. intros [->|H]%elem_of_cons; [done|by apply IH].
Qed.

Lemma chars_trim_start s : chars (trim_start s) ⊆ chars s.
Proof.
  unfold chars. induction s as [|x s IH]; simpl; [done|].
  destruct (is_space x); [|done]. intros c Hc. right. by apply IH.
Qed.

Lemma chars_trim_end s : chars (trim_end s) ⊆ chars s.
Proof.
  unfold chars. induction s as [|x s IH]; simpl; [done|].
  destruct (trim_end s) as [|y t] eqn:Ht.
  - destruct (is_space x); simpl; [intros c Hc; by apply elem_of_nil in Hc|].
    intros c ->%list_elem_of_singleton. by left.
  - simpl. intros c [->|Hc]%elem_of_cons; [by left|]. right. by apply IH.
Qed.

Lemma chars_substring n s : chars (String.substring 0 n s) ⊆ chars s.
Proof.
  unfold chars. revert n. induction s as [|x s IH]; intros [|n]; simpl; try done.
  - intros c Hc. by apply elem_of_nil in Hc.
  - intros c [->|Hc]%elem_of_cons; [by left|]. right. by eapply IH.
Qed.

Lemma length_substring n s : (String.length (String.substring 0 n s) <= n)%nat.
Proof.
  revert n. induction s as [|x s IH]; intros [|n]; simpl; try lia.
  specialize (IH n). lia.
Qed.

Lemma strip_only_spaces s :
  (forall c, c ∈ chars s -> no_alnum c) ->
  forall c, c ∈ chars (strip_punct (toLowerCase s)) -> is_space c = true.
Proof.
  unfold chars. induction s as [|x s IH]; simpl; intros Hs c Hc;
    [by apply elem_of_nil in Hc|].
  destruct (Hs x) as (_ & Hu & Hl & Hd); [by left|].
  unfold lower_char in Hc. rewrite Hu, Hl, Hd in Hc. simpl in Hc.
  destruct (is_space x) eqn:Hsp.
  - simpl in Hc. apply elem_of_cons in Hc as [->|Hc]; [done|].
    apply IH; [|done]. intros c' Hc'. apply Hs. by right.
  - apply IH; [|done]. intros c' Hc'. apply Hs. by right.
Qed.

Lemma trim_spaces s :
  (forall c, c ∈ chars s -> is_space c = true) -> trim s = "".
Proof.
  unfold trim, chars. induction s as [|x s IH]; simpl; intros Hs; [done|].
  rewrite (Hs x) by by left. apply IH. intros c Hc. apply Hs. by right.
Qed.

(** X14 -- the deduplication key of [merge].  A key has at most 60
    characters, all of them lower-case letters, digits or spaces, and does
    not depend on the case of the title.  A title made only of ASCII
    punctuation and spaces has the empty key, so [merge] returns at most one
    article with such a title. *)
Theorem X14_title_keys :
  (forall a, (String.length (V4.key a) <= 60)%nat
             /\ forall c, c ∈ chars (V4.key a) -> key_char c = true)
  /\ (forall t, V4.normalize (toLowerCase t) = V4.normalize t)
  /\ (forall a, (forall c, c ∈ chars (V4.title a) -> no_alnum c) -> V4.key a = "")
  /\ (forall devto hn a b,
      a ∈ V4.merge devto hn -> b ∈ V4.merge devto hn ->
      (forall c, c ∈ chars (V4.title a) -> no_alnum c) ->
      (forall c, c ∈ chars (V4.title b) -> no_alnum c) ->
      a = b).
Proof.
  assert (Hempty : forall a, (forall c, c ∈ chars (V4.title a) -> no_alnum c) ->
                             V4.key a = "").
  { intros a Ha. unfold V4.key, V4.normalize.
    rewrite trim_spaces; [done|]. by apply strip_only_spaces. }
  split_and!.
  - intros a. unfold V4.key, slice_str. split; [apply length_substring|].
    intros c Hc. apply chars_substring in Hc. unfold V4.normalize, trim in Hc.
    apply chars_trim_end, chars_trim_start in Hc. by apply chars_strip_punct in Hc.
  - intros t. unfold V4.normalize. by rewrite toLowerCase_idem.
  - exact Hempty.
  - intros devto hn a b Ha Hb Hpa Hpb.
    apply (nodup_keys_eq V4.key (V4.merge devto hn)); [apply ranked_nodup|done..|].
    by rewrite !Hempty.
Qed.


(** ** Paging *)

Lemma renderPage_in_step {A} size (p : Pager.state A) :
  in_step p ->
  let q := Pager.renderPage size p in
  in_step q
  /\ Pager.allArticles q = Pager.allArticles p
  /\ Pager.displayedCount q
     = Nat.min (Pager.displayedCount p + size) (length (Pager.allArticles p))
  /\ Pager.loadMore q
     = (Pager.displayedCount p + size <? length (Pager.allArticles p))%nat.
Proof.
  intros [Hc Hle]. unfold Pager.renderPage, in_step, slice. simpl.
  set (n := Pager.displayedCount p) in *. set (l := Pager.allArticles p) in *.
  assert (Hlen : length (take size (drop n l)) = Nat.min size (length l - n)).
  { by rewrite length_take, length_drop. }
  rewrite Hlen. split_and!.
  - rewrite Hc. replace (n + Nat.min size (length l - n))%nat
      with (n + Nat.min size (length l - n))%nat by done.
    destruct (Nat.le_gt_cases size (length l - n)) as [H|H].
    + rewrite Nat.min_l by done. by rewrite take_take_drop.
    + rewrite Nat.min_r by lia.
      rewrite (take_ge (drop n l)) by (rewrite length_drop; lia).
      rewrite take_drop. rewrite take_ge by lia. done.
  - lia.
  - done.
  - lia.
  - destruct (Nat.ltb_spec (n + Nat.min size (length l - n)) (length l)),
             (Nat.ltb_spec (n + size) (length l)); try done; lia.
Qed.

Lemma pressed_S {A} size k (p : Pager.state A) :
  Pager.pressed size (S k) p = Pager.renderPage size (Pager.pressed size k p).
Proof. reflexivity. Qed.

Lemma pressed_spec {A} size k (all : list A) :
  in_step (Pager.pressed size k (Pager.cleared all))
  /\ Pager.allArticles (Pager.pressed size k (Pager.cleared all)) = all
  /\ Pager.displayedCount (Pager.pressed size k (Pager.cleared all))
     = Nat.min (k * size) (length all).
Proof.
  induction k as [|k IH].
  - unfold in_step. simpl. split_and!; [done|lia|done|done].
  - destruct IH as (Hstep & Hall & Hcount).
    destruct (renderPage_in_step size _ Hstep) as (Hstep' & Hall' & Hcount' & _).
    rewrite pressed_S. split_and!; [done|congruence|].
    rewrite Hcount', Hcount, Hall. lia.
Qed.

Lemma pressed_facts {A} size k (all : list A) :
  let p := Pager.pressed size k (Pager.cleared all) in
  Pager.cards p = take (k * size) all
  /\ Pager.allArticles p = all
  /\ Pager.displayedCount p = Nat.min (k * size) (length all)
  /\ ((0 < k)%nat -> Pager.loadMore p = (k * size <? length all)%nat)
  /\ ((length all <= k * size)%nat -> (0 < k)%nat ->
      Pager.renderPage size p = p).
Proof.
  intros p.
  destruct (pressed_spec size k all) as ([Hcards Hle] & Hall & Hcount).
  fold p in Hcards, Hle, Hall, Hcount.
  assert (Hc : Pager.cards p = take (k * size) all).
  { rewrite Hcards, Hall, Hcount.
    destruct (Nat.le_gt_cases (k * size) (length all)) as [H|H].
    - by rewrite Nat.min_l.
    - rewrite Nat.min_r by lia. by rewrite !take_ge by lia. }
  split_and!; [done..| |].
  - intros Hk. destruct k as [|k]; [lia|].
    destruct (pressed_spec size k all) as (Hstep & Hall' & Hcount').
    destruct (renderPage_in_step size _ Hstep) as (_ & _ & _ & Hmore).
    unfold p. rewrite pressed_S, Hmore, Hcount', Hall'.
    destruct (Nat.ltb_spec (Nat.min (k * size) (length all) + size) (length all)),
             (Nat.ltb_spec (S k * size) (length all)); try done; lia.
  - intros Hfull Hk. destruct k as [|k]; [lia|].
    destruct (pressed_spec size k all) as (Hstep & Hall' & Hcount').
    destruct (renderPage_in_step size _ Hstep) as (_ & _ & _ & Hmore).
    assert (Hm : Pager.loadMore p = false).
    { unfold p. rewrite pressed_S, Hmore, Hcount', Hall'. apply Nat.ltb_ge. lia. }
    unfold Pager.renderPage at 1, slice.
    rewrite Hall, Hcount, Nat.min_r by lia.
    rewrite drop_all, take_nil. simpl length.
    rewrite Nat.add_0_r, app_nil_r, Nat.ltb_irrefl.
    clearbody p. destruct p as [pa pd pc pm]. simpl in *. subst.
    f_equal. lia.
Qed.

(** X15 -- paging.  After the load-more button was pressed [k] times on a
    freshly cleared page, the grid holds the first [k * size] articles of the
    list, or all of them when there are fewer, in list order; the counter
    never passes the length of the list; the button stays displayed exactly
    while articles are left, and a press after that changes nothing.  The
    first page that [finish] shows is one such press. *)
Theorem X15_pages_are_prefixes :
  (forall (A : Type) size k (all : list A),
      let p := Pager.pressed size k (Pager.cleared all) in
      Pager.cards p = take (k * size) all
      /\ Pager.allArticles p = all
      /\ Pager.displayedCount p = Nat.min (k * size) (length all)
      /\ ((0 < k)%nat -> Pager.loadMore p = (k * size <? length all)%nat)
      /\ ((length all <= k * size)%nat -> (0 < k)%nat ->
          Pager.renderPage size p = p))
  /\ (forall filter (all : list Hn.Hit) fromCache banner,
      all <> [] ->
      let p := V3.renderPage (Pager.cleared all) in
      let shown := Ui.finish filter all fromCache banner in
      Ui.view shown = Ui.Cards (Pager.cards p)
      /\ Ui.displayedCount shown = Pager.displayedCount p
      /\ Ui.loadMore shown = Pager.loadMore p)
  /\ (forall p : Pager.state Hn.Hit, V2.renderPage p = V3.renderPage p)
  /\ (forall p : Pager.state V4.Article,
      V4.renderPage p = Pager.renderPage 18 p)
  /\ (forall p : Pager.state V5.Article,
      V5.renderPage p = Pager.renderPage 15 p).
Proof.
  split_and!; try done.
  - intros A size k all. apply pressed_facts.
  - intros filter all fromCache banner Hne p shown.
    destruct all as [|a all]; [done|]. done.
Qed.


(** ** The static-feed filter *)


Lemma filter_filter_same {A} (f : A -> bool) (l : list A) :
  List.filter f (List.filter f l) = List.filter f l.
Proof.
  induction l as [|a l IH]; [done|]. simpl.
  destruct (f a) eqn:E; [|done]. simpl. by rewrite E, IH.
Qed.

Lemma filter_all_true {A} (f : A -> bool) (l : list A) :
  (forall a, f a = true) -> List.filter f l = l.
Proof.
  intros H. induction l as [|a l IH]; [done|]. simpl. by rewrite H, IH.
Qed.

Lemma matchesFilter_funding a :
  V5.matchesFilter a "funding" = true <->
  V5.in_category a "funding" = true
  \/ exists w, w ∈ V5.FUNDING_WORDS
               /\ occurs_in w (toLowerCase (default "" (V5.title a))).
Proof.
  unfold V5.matchesFilter.
  destruct (String.eqb_spec "funding" "all") as [|_]; [discriminate|].
  destruct (String.eqb_spec "funding" "funding") as [_|]; [|done].
  cbv zeta. destruct (V5.in_category a "funding"); [split; auto|].
  rewrite existsb_exists. split.
  - intros (w & Hin & Hw). right. exists w.
    split; [by apply list_elem_of_In|by apply includes_occurs].
  - intros [?|(w & Hin & Hw)]; [done|]. exists w.
    split; [by apply list_elem_of_In|by apply includes_occurs].
Qed.

(** X16 -- the filter of the static-feed page.  [applyFilter] shows exactly
    the loaded articles that match the filter, in feed order: all of them for
    the filter [all]; for [funding] those of the category [funding] and those
    whose lower-cased title holds one of [FUNDING_WORDS]; for any other
    filter those of that category.  The count is the number of matching
    articles, the empty-state message is written exactly when there is none,
    the grid holds the first 15 and then 15 more per press of the button, and
    filtering the filtered list again changes nothing. *)
Theorem X16_filtered_feed :
  forall (all : list V5.Article) (filter : string),
    let matching := List.filter (fun a => V5.matchesFilter a filter) all in
    let s := V5.applyFilter all filter in
    V5.currentFilter s = filter
    /\ Pager.allArticles (V5.pager s) = matching
    /\ matching `sublist_of` all
    /\ (forall a, In a all ->
          (In a matching <-> V5.matchesFilter a filter = true))
    /\ (filter = "all" -> matching = all)
    /\ (forall a, V5.in_category a filter = true ->
          V5.matchesFilter a filter = true)
    /\ (forall a, filter <> "all" -> filter <> "funding" ->
          V5.matchesFilter a filter = V5.in_category a filter)
    /\ (forall a f, V5.in_category a f = true <-> V5.category a = Some f)
    /\ (forall a, V5.matchesFilter a "funding" = true <->
          V5.category a = Some "funding"
          \/ exists w, w ∈ V5.FUNDING_WORDS
                       /\ occurs_in w (toLowerCase (default "" (V5.title a))))
    /\ V5.articleCount s = length matching
    /\ (V5.empty_state s = true <-> matching = [])
    /\ Pager.cards (V5.pager s) = take 15 matching
    /\ Pager.loadMore (V5.pager s) = (15 <? length matching)%nat
    /\ (forall k,
          Pager.cards (Pager.pressed V5.PAGE_SIZE k (V5.pager s))
          = take ((k + 1) * 15) matching)
    /\ V5.applyFilter matching filter = s.
Proof.
  intros all filter matching s.
  assert (Hs : s = V5.Screen filter
                 (match matching with
                  | [] => Pager.cleared matching
                  | _ => V5.renderPage (Pager.cleared matching) end)
                 (match matching with [] => true | _ => false end)
                 (length matching)).
  { unfold s, V5.applyFilter. fold matching. by destruct matching. }
  assert (Hp : V5.pager s = Pager.pressed V5.PAGE_SIZE 1 (Pager.cleared matching)).
  { rewrite Hs. simpl. by destruct matching. }
  assert (Hcat : forall a f, V5.in_category a f = true <-> V5.category a = Some f).
  { intros a f. unfold V5.in_category. destruct (V5.category a) as [c|]; [|done].
    rewrite String.eqb_eq. split; congruence. }
  pose proof (fun k => pressed_facts V5.PAGE_SIZE k matching) as Hpress.
  split_and!.
  - by rewrite Hs.
  - rewrite Hp. apply (pressed_spec V5.PAGE_SIZE 1 matching).
  - apply filter_sublist.
  - intros a Ha. unfold matching. rewrite filter_In. tauto.
  - intros ->. by apply filter_all_true.
  - intros a Hc. unfold V5.matchesFilter.
    destruct (String.eqb filter "all"); [done|].
    destruct (String.eqb_spec filter "funding") as [->|]; [|done].
    by rewrite Hc.
  - intros a H1 H2. unfold V5.matchesFilter.
    destruct (String.eqb_spec filter "all"); [done|].
    by destruct (String.eqb_spec filter "funding").
  - exact Hcat.
  - intros a. rewrite matchesFilter_funding. by rewrite Hcat.
  - by rewrite Hs.
  - rewrite Hs. simpl. by destruct matching.
  - rewrite Hp. apply (Hpress 1%nat).
  - rewrite Hp. destruct (Hpress 1%nat) as (_ & _ & _ & H & _).
    apply H. lia.
  - intros k. rewrite Hp.
    change (Pager.pressed V5.PAGE_SIZE k (Pager.pressed V5.PAGE_SIZE 1 (Pager.cleared matching)))
      with (Nat.iter k (Pager.renderPage V5.PAGE_SIZE)
              (Nat.iter 1 (Pager.renderPage V5.PAGE_SIZE) (Pager.cleared matching))).
    rewrite <- Nat.iter_add.
    destruct (Hpress (k + 1)%nat) as (H & _).
    apply H.
  - assert (H : List.filter (fun a => V5.matchesFilter a filter) matching = matching)
      by apply filter_filter_same.
    unfold s, V5.applyFilter. cbv zeta. fold matching. by rewrite H.
Qed.

(** ** Instances on concrete feeds *)

(** C4 at an entry written at time 0 into an empty storage and read one
    millisecond before it expires. *)
Lemma C4_written_entry_read_back :
  Cache.loadCache (Cache.Storage (Cache.Json {[ "llm" := Cache.Entry 0 None [Sample.old_story] ]}) false)
                  (0 + Cache.CACHE_TTL - 1) "llm"
  = Ret (Some [Sample.old_story]).
Proof.
  destruct (C4_loadCache_contract Hn.Hit Sample.blank 0 "llm") as (_ & _ & _ & _ & H & _).
  destruct (H 0 None [Sample.old_story]
              (Cache.Storage (Cache.Json {[ "llm" := Cache.Entry 0 None [Sample.old_story] ]}) false) 1)
    as (Hread & _).
  - reflexivity.
  - lia.
  - exact Hread.
Defined.

(** C1 at a forced run whose fetch raises while the cached entry is ten
    minutes old. *)
Lemma C1_fresh_entry_after_failed_fetch :
  V3.load false [] Sample.kept_store Sample.garbled
          Sample.ten_minutes Sample.ten_minutes "llm" true
  = Some (Ret (Ui.Run (Ui.finish "llm" [Sample.old_story] true (Some Ui.ShowingCached))
                      (map (fun q => Hn.Search q 1) (V3.queries_of "llm"))
                      Sample.kept_store)).
Proof.
  destruct C1_fallback_serves_fresh_cache_only as (_ & H3 & _).
  destruct (H3 [] Sample.kept_store Sample.garbled Sample.ten_minutes
               Sample.ten_minutes "llm" true
               (map (fun q => Hn.Search q 1) (V3.queries_of "llm")))
    as (Hfresh & _).
  - left. reflexivity.
  - vm_compute. reflexivity.
  - apply (Hfresh {[ "llm" := Cache.Entry 0 None [Sample.old_story] ]}
                  (Cache.Entry 0 None [Sample.old_story]) Sample.old_story []).
    + reflexivity.
    + vm_compute. reflexivity.
    + vm_compute. discriminate.
    + reflexivity.
Defined.

(** C2 at the two reports of one story alone. *)
Lemma C2_two_reports_one_entry :
  count_key V4.key (V4.key Sample.report_hn)
            (V4.merge [Sample.report_devto] [Sample.report_hn]) = 1%nat.
Proof.
  destruct C2_one_per_key_up_to_the_cut as (H4 & _).
  destruct (H4 [Sample.report_devto] [Sample.report_hn] Sample.report_hn)
    as (_ & _ & Hcut).
  - apply list_elem_of_In. simpl. auto.
  - apply Hcut. vm_compute. lia.
Defined.

(** C3 at a store whose entry for the filter is ten minutes old and holds one
    article. *)
Lemma C3_fresh_entry_no_request :
  exists r,
    V3.load false [] Sample.kept_store Sample.offline
            Sample.ten_minutes (Sample.ten_minutes + 1) "llm" false = Some (Ret r)
    /\ Ui.requests r = [] /\ Ui.disk r = Sample.kept_store
    /\ Ui.allArticles (Ui.shown r) = [Sample.old_story]
    /\ Ui.lastUpdated (Ui.shown r) = Ui.FromCache.
Proof.
  destruct C3_fresh_entry_is_served as (_ & H3 & _).
  apply (H3 [] Sample.kept_store Sample.offline Sample.ten_minutes
            (Sample.ten_minutes + 1) "llm"
            {[ "llm" := Cache.Entry 0 None [Sample.old_story] ]}
            (Cache.Entry 0 None [Sample.old_story])).
  - reflexivity.
  - vm_compute. reflexivity.
  - vm_compute. discriminate.
  - simpl. discriminate.
Defined.

(** C5 at services that return no funding story. *)
Lemma C5_broader_query_is_issued :
  (V4.fetchDevTo Sample.quiet_wire ["artificial-intelligence"] Sample.funding_requests).1
  = Sample.funding_requests ++ [V4.DevToTag "artificial-intelligence"]
  /\ V4.load [] Sample.blank Sample.quiet_wire 0 1 "funding" false
     = Ret (Ui.Run (Ui.finish "funding" [Sample.funded] false (Some Ui.LimitedResults))
                   (Sample.funding_requests ++ [V4.DevToTag "artificial-intelligence"])
                   Sample.blank).
Proof.
  destruct C5_funding_filter_falls_back as (_ & _ & _ & H).
  destruct (H [] Sample.blank Sample.quiet_wire 0 1 "funding" false
              Sample.funding_requests [Sample.funded] [])
    as (_ & Hempty).
  - left. reflexivity.
  - vm_compute. reflexivity.
  - destruct Hempty as (Hreq & Hload & _).
    + vm_compute. reflexivity.
    + split; [exact Hreq|]. rewrite Hload. vm_compute. reflexivity.
Defined.

(** C6 at a feed whose one-day window gives two distinct stories: the
    three-day window adds two more. *)
Lemma C6_sparse_day_widens_once :
  V3.fetchAll Sample.feed "robotics" []
  = (map (fun q => Hn.Search q 1) (V3.queries_of "robotics")
     ++ map (fun q => Hn.Search q 3) (V3.queries_of "robotics"),
     Ret [Sample.story 2 9; Sample.story 3 9; Sample.story 1 5; Sample.story 4 1]).
Proof.
  destruct C6_sparse_fallback as (_ & H3).
  edestruct (H3 Sample.feed "robotics") as (_ & Hsparse & _).
  - vm_compute. reflexivity.
  - destruct Hsparse as (Hrun & _).
    + vm_compute. lia.
    + rewrite Hrun. vm_compute. reflexivity.
Defined.

(** C7 at a first visit over a cache that holds another filter's list: the
    two tutorials come out of [merge], the more popular one first, and are
    cached so. *)
Lemma C7_feed_is_ranked :
  exists r,
    V4.load [] Sample.funding_store Sample.rising_wire 0 1 "all" false = Ret r
    /\ map V4.points (listed r) = [10; 3]
    /\ Sorted (desc V4.points) (listed r)
    /\ entries_all (Sorted (desc V4.points)) (Ui.disk r).
Proof.
  destruct C7_sorted_and_stable as (_ & _ & _ & _ & _ & _ & _ & _ & H4).
  eexists. split; [vm_compute; reflexivity|]. split; [reflexivity|].
  edestruct (H4 [] Sample.funding_store Sample.rising_wire 0 1 "all" false)
    as (Hdisk & Hshown & _).
  - intros m f e [= <-] [_ <-]%lookup_singleton_Some. simpl. repeat constructor.
  - vm_compute. reflexivity.
  - split; [|exact Hdisk]. apply Hshown. discriminate.
Defined.

(** C8 at a first visit with eighty-one distinct stories upstream, over a
    cache that holds another filter's list. *)
Lemma C8_feed_is_cut :
  length (V4.dedupe (map V4.of_devto Sample.crowd_raw)) = 81%nat
  /\ exists r,
       V4.load [] Sample.funding_store Sample.crowded_wire 0 1 "all" false = Ret r
       /\ (length (listed r) <= 80)%nat
       /\ entries_all (fun l => (length l <= 80)%nat) (Ui.disk r).
Proof.
  destruct C8_truncation as (_ & _ & _ & _ & _ & _ & _ & _ & _ & _ & H4).
  split; [vm_compute; reflexivity|].
  eexists. split; [vm_compute; reflexivity|].
  edestruct (H4 [] Sample.funding_store Sample.crowded_wire 0 1 "all" false)
    as (Hdisk & Hshown & _).
  - intros m f e [= <-] [_ <-]%lookup_singleton_Some. simpl. lia.
  - vm_compute. reflexivity.
  - split; [|exact Hdisk]. apply Hshown. discriminate.
Defined.

(** C9 at the two reports of one story alone: the dev.to one is kept, and
    nothing else with that key. *)
Lemma C9_devto_report_wins :
  Sample.report_devto ∈ V4.merge [Sample.report_devto] [Sample.report_hn]
  /\ forall c, c ∈ V4.merge [Sample.report_devto] [Sample.report_hn] ->
               V4.key c = V4.key Sample.report_hn -> c = Sample.report_devto.
Proof.
  destruct C9_first_occurrence_wins as (H4 & _).
  destruct (H4 [Sample.report_devto] [Sample.report_hn]) as (_ & _ & _ & _ & Hkept).
  destruct (Hkept Sample.report_hn) as (b & Hb & _ & _ & Huniq & Hin).
  - apply list_elem_of_In. vm_compute. auto.
  - assert (b = Sample.report_devto) as ->.
    { vm_compute in Hb. by injection Hb as <-. }
    split; [|exact Huniq].
    apply Hin. vm_compute. lia.
Defined.

(** C10 at a first run over an empty storage. *)
Lemma C10_run_leaves_no_empty_entry :
  exists r,
    V3.load false [] Sample.blank Sample.feed 0 1 "robotics" false = Some (Ret r)
    /\ no_empty_entry (Ui.disk r).
Proof.
  destruct C10_no_empty_list_cached as (H3 & _).
  eexists. split; [vm_compute; reflexivity|].
  refine (proj1 (proj2 (H3 [] Sample.blank Sample.feed 0 1 "robotics" false _ _)) _).
  - vm_compute. reflexivity.
  - intros m f e Hm. discriminate Hm.
Defined.

(** ** Instances of the further properties *)

(** X1 at a write under ["all"] and a read under ["llm"]. *)
Lemma X1_other_filter_still_read :
  Cache.loadCache (Cache.saveCache Sample.kept_store 5 None "all" []) 9 "llm"
  = Cache.loadCache Sample.kept_store 9 "llm".
Proof. apply X1_save_leaves_other_filters. discriminate. Defined.

(** X2 at a second write that exceeds the quota: the first list is still
    read. *)
Lemma X2_second_write_over_quota :
  Cache.loadCache
    (Cache.Storage
       (saveCache_when true
          (saveCache_when false Cache.NoItem 0 None "llm" [Sample.old_story])
          5 None "llm" [Sample.old_story; Sample.old_story])
       false)
    9 "llm"
  = Ret (Some [Sample.old_story]).
Proof.
  destruct (X2_last_write_through_wins Hn.Hit Cache.NoItem false true
              0 None [Sample.old_story] 5 None [Sample.old_story; Sample.old_story] "llm")
    as (_ & _ & _ & _ & H).
  apply H; [discriminate|reflexivity|reflexivity|].
  vm_compute. discriminate.
Defined.


(** X4 at a first visit over an empty storage, followed ten minutes later by
    a visit without network. *)
Lemma X4_second_visit_reads_cache :
  exists r,
    V3.load false [] Sample.blank Sample.feed 0 1 "robotics" false = Some (Ret r)
    /\ V3.load false [] (Ui.disk r) Sample.offline
               Sample.ten_minutes (Sample.ten_minutes + 1) "robotics" false
       = Some (Ret (Ui.Run (Ui.finish "robotics" (Ui.allArticles (Ui.shown r)) true None)
                           [] (Ui.disk r))).
Proof.
  destruct X4_fetched_list_is_served_next_time as (_ & H3 & _).
  eexists. split; [vm_compute; reflexivity|].
  refine (H3 [] Sample.blank Sample.feed 0 1 "robotics" false _ [] Sample.offline
             Sample.ten_minutes (Sample.ten_minutes + 1) _ _ _ _).
  - intros [H|H]; discriminate H.
  - vm_compute. reflexivity.
  - vm_compute. reflexivity.
  - vm_compute. discriminate.
Defined.

(** X5 at a service that fails every exchange. *)
Lemma X5_offline_fetch_returns :
  exists out, (V3.fetchAll Sample.offline "llm" []).2 = Ret out.
Proof.
  destruct X5_failed_queries_count_as_empty as (_ & H).
  apply H. intros k r. discriminate.
Defined.

(** X6 at a forced refresh without network over a fresh entry. *)
Lemma X6_forced_refresh_offline :
  V3.load false [] Sample.kept_store Sample.offline
          Sample.ten_minutes Sample.ten_minutes "llm" true
  = Some (Ret (Ui.Run (Ui.finish "llm" [] false None)
                      (day 1 "llm" ++ day 3 "llm") Sample.kept_store)).
Proof.
  destruct X6_outage_ends_on_empty_state as (H & _).
  apply H.
  - reflexivity.
  - left. reflexivity.
Defined.

(** X7 at a first visit over an empty storage. *)
Lemma X7_first_visit_requests :
  exists r,
    V3.load false [] Sample.blank Sample.feed 0 1 "robotics" false = Some (Ret r)
    /\ (length (Ui.requests r) <= 10)%nat.
Proof.
  destruct X7_requests_are_bounded as (_ & H3 & _).
  eexists. split; [vm_compute; reflexivity|].
  refine (proj1 (H3 [] Sample.blank Sample.feed 0 1 "robotics" false _ _)).
  vm_compute. reflexivity.
Defined.

(** X8 at services that answer every tag with the same two articles. *)
Lemma X8_wire_ids_are_distinct :
  exists out,
    (V4.fetchDevTo Sample.wire ["ai"; "machinelearning"] []).2 = Ret out
    /\ NoDup (map V4.id out).
Proof.
  destruct (X8_fetchDevTo_articles Sample.wire ["ai"; "machinelearning"] [])
    as (_ & Hret & Hwf).
  destruct Hret as [out Hout].
  - intros k t. discriminate.
  - exists out. split; [exact Hout|]. exact (proj1 (Hwf out Hout)).
Defined.

(** X9 at the same services. *)
Lemma X9_wire_hits_have_links :
  exists out,
    V4.fetchHN Sample.wire "AI" [] = ([V4.HnSearch "AI"], Ret out)
    /\ forall a, a ∈ out -> V4.url a <> "".
Proof.
  destruct (X9_fetchHN_articles Sample.wire "AI" []) as (out & Hrun & _ & Hwf & _).
  exists out. split; [exact Hrun|].
  intros a Ha. exact (proj1 (proj2 (Hwf a Ha))).
Defined.

(** X10 at a title without markup. *)
Lemma X10_plain_title_unchanged : V3.esc "AI news" = "AI news".
Proof.
  destruct X10_escaped_text_has_no_markup as (_ & _ & _ & H & _).
  apply H. intros c Hc. unfold chars in Hc. simpl in Hc.
  repeat (apply elem_of_cons in Hc as [->|Hc];
          [split; [intros [E|[E|[E|E]]]; vm_compute in E; discriminate E
                  |intros E; vm_compute in E; discriminate E]|]).
  by apply elem_of_nil in Hc.
Defined.

(** X13 at a story posted thirty seconds ago. *)
Lemma X13_thirty_seconds_ago : V3.timeAgo 90000 60 = "just now".
Proof.
  destruct (X13_relative_time 90000 60) as (_ & _ & H & _).
  apply H. reflexivity.
Defined.

(** X14 at a title of punctuation only. *)
Lemma X14_punctuation_title_has_empty_key :
  V4.key (V4.MkArticle "devto-1" "?! ..." "https://dev.to/q" 0 0) = "".
Proof.
  destruct X14_title_keys as (_ & _ & H & _).
  apply H. intros c Hc. unfold chars in Hc. simpl in Hc.
  repeat (apply elem_of_cons in Hc as [->|Hc];
          [split; [apply Nat.ltb_lt; reflexivity|repeat split]|]).
  by apply elem_of_nil in Hc.
Defined.

(** X15 at a list of one article: a second press changes nothing. *)
Lemma X15_press_after_the_last_page :
  Pager.renderPage 18 (Pager.pressed 18 1 (Pager.cleared [Sample.old_story]))
  = Pager.pressed 18 1 (Pager.cleared [Sample.old_story]).
Proof.
  destruct X15_pages_are_prefixes as (H & _).
  destruct (H Hn.Hit 18%nat 1%nat [Sample.old_story]) as (_ & _ & _ & _ & Hfix).
  apply Hfix; simpl; lia.
Defined.

(** X16 at an article of another category whose title holds a funding
    word. *)
Lemma X16_funding_word_in_title :
  V5.category Sample.note = Some "llm"
  /\ V5.matchesFilter Sample.note "funding" = true.
Proof.
  destruct (X16_filtered_feed [Sample.note] "funding")
    as (_ & _ & _ & _ & _ & _ & _ & _ & Hfund & _).
  split; [reflexivity|].
  apply Hfund. right. exists "raises". split.
  - apply list_elem_of_In. simpl. auto.
  - exists "openai ", " $500m". reflexivity.
Defined.
